(** * discord-mcp: a shallow embedding of the scraping client and the
      tool layer, with the properties of its specification.

    Conventions of the embedding.
    - A Python or JavaScript string is a [string]: a sequence of characters
      taken as code points below 256.  Python [len] and the slice bounds are
      integers, so lengths are in [Z].
    - A Python [dict] used for membership is a [gmap], a [set] a [gset].
    - What the browser shows is an input: a scraper is a function of the DOM
      snapshots it is handed, one per query, in the order it asks for them.
    - A call that may raise returns a [result]. *)

From Stdlib Require Import ZArith Ascii String List Lia Bool DecimalString.
From stdpp Require Import base list gmap strings sorting.

Open Scope Z_scope.

(* ================================================================== *)
(** * Part I: definitions                                              *)
(* ================================================================== *)

(** ** Outcomes of fallible calls *)

Inductive exn : Type :=
| ValueError (msg : string)
| RuntimeError (msg : string)
| IndexError
| TypeError
| PlaywrightError.

Inductive result (A : Type) : Type :=
| Ok (a : A)
| Raise (e : exn).
Arguments Ok {A} a.
Arguments Raise {A} e.

(** ** Strings as Python and JavaScript see them *)

Module Text.

(** [len(s)] *)
Definition len (s : string) : Z := Z.of_nat (String.length s).

(** Truthiness of a string: [if s:] holds for the non-empty ones. *)
Definition truthy (s : string) : bool :=
  match s with
  | EmptyString => false
  | String _ _ => true
  end.

Definition newline : ascii := "010"%char.
Definition space : ascii := " "%char.

Fixpoint take (n : nat) (s : string) : string :=
  match n, s with
  | O, _ => EmptyString
  | S _, EmptyString => EmptyString
  | S n', String c s' => String c (take n' s')
  end.

Fixpoint drop (n : nat) (s : string) : string :=
  match n, s with
  | O, _ => s
  | S _, EmptyString => EmptyString
  | S n', String _ s' => drop n' s'
  end.

(** [s[:n]], also for a negative [n] (all but the last [-n]). *)
Definition slice_to (n : Z) (s : string) : string :=
  if 0 <=? n then take (Z.to_nat n) s
  else take (Z.to_nat (len s + n)) s.

(** [s.split(sep)] for a one-character separator: every occurrence
    cuts, so empty pieces are kept and the result is never empty. *)
Fixpoint split (sep : ascii) (s : string) : list string :=
  match s with
  | EmptyString => [EmptyString]
  | String c s' =>
      if Ascii.eqb c sep then EmptyString :: split sep s'
      else match split sep s' with
           | w :: ws => String c w :: ws
           | [] => [String c EmptyString]
           end
  end.

Fixpoint filter (keep : ascii -> bool) (s : string) : string :=
  match s with
  | EmptyString => EmptyString
  | String c s' =>
      if keep c then String c (filter keep s') else filter keep s'
  end.

Fixpoint forallb (p : ascii -> bool) (s : string) : bool :=
  match s with
  | EmptyString => true
  | String c s' => p c && forallb p s'
  end.

Fixpoint concat (l : list string) : string :=
  match l with
  | [] => EmptyString
  | s :: l' => s +:+ concat l'
  end.

Fixpoint replicate (n : nat) (c : ascii) : string :=
  match n with
  | O => EmptyString
  | S n' => String c (replicate n' c)
  end.

Definition code (c : ascii) : N := N_of_ascii c.

Definition between (lo hi : N) (c : ascii) : bool :=
  ((lo <=? code c) && (code c <=? hi))%N.

(** [str.isspace] on one character, for the code points below 256:
    U+0009..U+000D, U+001C..U+0020, U+0085 and U+00A0. *)
Definition py_space (c : ascii) : bool :=
  between 9 13 c || between 28 32 c
  || (code c =? 133)%N || (code c =? 160)%N.

(** The text with every whitespace character removed. *)
Definition non_whitespace (s : string) : string :=
  filter (fun c => negb (py_space c)) s.

Definition has_no (c : ascii) (s : string) : bool :=
  forallb (fun x => negb (Ascii.eqb x c)) s.

(** [str(n)] and the JavaScript template of a number. *)
Definition of_Z (n : Z) : string := NilZero.string_of_int (Z.to_int n).

(** Whitespace for JavaScript ([\s] in a regular expression, [trim]),
    for the code points below 256: U+0009..U+000D, U+0020, U+00A0. *)
Definition js_space (c : ascii) : bool :=
  between 9 13 c || (code c =? 32)%N || (code c =? 160)%N.

(** [[0-9]], which is also [\d]. *)
Definition is_digit (c : ascii) : bool := between 48 57 c.

Fixpoint take_while (p : ascii -> bool) (s : string) : string :=
  match s with
  | EmptyString => EmptyString
  | String c s' => if p c then String c (take_while p s') else EmptyString
  end.

Fixpoint drop_while (p : ascii -> bool) (s : string) : string :=
  match s with
  | EmptyString => EmptyString
  | String c s' => if p c then drop_while p s' else s
  end.

(** The text without its trailing characters in [p]. *)
Fixpoint rstrip_by (p : ascii -> bool) (s : string) : string :=
  match s with
  | EmptyString => EmptyString
  | String c s' =>
      let r := rstrip_by p s' in
      if negb (truthy r) && p c then EmptyString else String c r
  end.

Definition strip_by (p : ascii -> bool) (s : string) : string :=
  rstrip_by p (drop_while p s).

(** Python [s.strip()] and JavaScript [s.trim()]. *)
Definition py_strip : string -> string := strip_by py_space.
Definition js_trim : string -> string := strip_by js_space.

(** [pat in s] in Python, [s.includes(pat)] in JavaScript. *)
Fixpoint includes (pat s : string) : bool :=
  String.prefix pat s
  || match s with
     | EmptyString => false
     | String _ s' => includes pat s'
     end.

(** Python [s.replace(pat, "")] for a non-empty [pat]: every occurrence
    goes, found from the left and without overlap.  [skip] counts the
    characters of an occurrence that are still to be dropped. *)
Fixpoint remove_all_go (pat : string) (skip : nat) (s : string) : string :=
  match s with
  | EmptyString => EmptyString
  | String c s' =>
      match skip with
      | S k => remove_all_go pat k s'
      | O => if String.prefix pat s
             then remove_all_go pat (String.length pat - 1) s'
             else String c (remove_all_go pat 0 s')
      end
  end.

Definition py_remove_all (pat s : string) : string := remove_all_go pat 0 s.

(** JavaScript [s.replace(pat, '')] with a string pattern: the first
    occurrence only. *)
Fixpoint js_remove_first (pat s : string) : string :=
  if String.prefix pat s then drop (String.length pat) s
  else match s with
       | EmptyString => EmptyString
       | String c s' => String c (js_remove_first pat s')
       end.

(** JavaScript [s.replace(/\s+/g, ' ')]: each run of whitespace becomes
    one space.  [in_run] tells that the previous character was
    whitespace. *)
Fixpoint collapse_ws (in_run : bool) (s : string) : string :=
  match s with
  | EmptyString => EmptyString
  | String c s' =>
      if js_space c
      then if in_run then collapse_ws true s'
           else String space (collapse_ws true s')
      else String c (collapse_ws false s')
  end.

(** [/^[0-9]+$/.test(s)] *)
Definition all_digits (s : string) : bool := truthy s && forallb is_digit s.

(** Comparison of Python strings: by code point, a proper prefix first. *)
Definition lt (a b : string) : bool :=
  match String.compare a b with Lt => true | _ => false end.
Definition le (a b : string) : bool :=
  match String.compare a b with Gt => false | _ => true end.
Definition ge (a b : string) : bool :=
  match String.compare a b with Lt => false | _ => true end.
Definition gt (a b : string) : bool :=
  match String.compare a b with Gt => true | _ => false end.

End Text.

(** ** server.py: the tool layer *)

Module Server.
Import Text.

(** The three places of [send_message] that move a finished piece
    (a packed line of words, or a whole short line) into the chunk
    under construction read the same:
<<
    if len(current_chunk + "\n" + piece) <= 2000:
        current_chunk += ("\n" + piece) if current_chunk else piece
    else:
        chunks.append(current_chunk)
        current_chunk = piece
>>
    The state is [(chunks, current_chunk)]. *)
Definition add_piece (st : list string * string) (piece : string)
  : list string * string :=
  let '(chunks, current_chunk) := st in
  if len (current_chunk +:+ String newline EmptyString +:+ piece) <=? 2000
  then (chunks,
        if truthy current_chunk
        then current_chunk +:+ String newline EmptyString +:+ piece
        else piece)
  else (chunks ++ [current_chunk], piece).

(** One turn of [for word in words:], on
    [(chunks, current_chunk, current_line)]. *)
Definition word_step (st : list string * string * string) (word : string)
  : list string * string * string :=
  let '(chunks, current_chunk, current_line) := st in
  if len (current_line +:+ String space EmptyString +:+ word) <=? 2000
  then (chunks, current_chunk,
        if truthy current_line
        then current_line +:+ String space EmptyString +:+ word
        else word)
  else if truthy current_line
       then let '(chunks', current_chunk') :=
              add_piece (chunks, current_chunk) current_line in
            (chunks', current_chunk', word)
       else (chunks, current_chunk, slice_to 2000 word).

(** One turn of [for line in lines:]. *)
Definition line_step (st : list string * string) (line : string)
  : list string * string :=
  if 2000 <? len line
  then let '(chunks, current_chunk, current_line) :=
         fold_left word_step (split space line)
                   (fst st, snd st, EmptyString) in
       if truthy current_line
       then add_piece (chunks, current_chunk) current_line
       else (chunks, current_chunk)
  else add_piece st line.

(** The chunking block of [send_message]. *)
Definition chunk_content (content : string) : list string :=
  if len content <=? 2000 then [content]
  else let '(chunks, current_chunk) :=
         fold_left line_step (split newline content) ([], EmptyString) in
       if truthy current_chunk then chunks ++ [current_chunk] else chunks.

(** [send_message], as far as the texts handed one by one to the
    client's [send_message] go: an empty content is refused before the
    chunking. *)
Definition send_message (content : string) : result (list string) :=
  if len content =? 0
  then Raise (ValueError "Message content cannot be empty")
  else Ok (chunk_content content).

(** Every space-separated word of the text has at most 2000
    characters. *)
Definition words_fit (content : string) : bool :=
  List.forallb (fun w => len w <=? 2000) (split space content).

(** The invariants of the loops: every chunk closed so far, the chunk
    and the line under construction have at most 2000 characters; the
    text held by a loop state is what it has closed followed by what it
    is building. *)
Definition fits (s : string) : Prop := len s <= 2000.

Definition fits2 (st : list string * string) : Prop :=
  Forall fits st.1 /\ fits st.2.

Definition flat2 (st : list string * string) : string :=
  concat st.1 +:+ st.2.

Definition fits3 (st : list string * string * string) : Prop :=
  Forall fits st.1.1 /\ fits st.1.2 /\ fits st.2.

Definition flat3 (st : list string * string * string) : string :=
  concat st.1.1 +:+ st.1.2 +:+ st.2.

(** Three words of 1500, 1499 and 1499 characters: 4500 with the two
    spaces. *)
Definition sample_4500 : string :=
  replicate 1500 "x" +:+ " " +:+ replicate 1499 "y" +:+ " "
  +:+ replicate 1499 "z".

End Server.


(** ** Python lists: slices and indexing with integers *)

Module PyList.

Definition len {A} (l : list A) : Z := Z.of_nat (length l).

(** A slice bound as Python normalises it: a negative bound counts from
    the end, and the result is clamped to [0 .. len]. *)
Definition clamp (n i : Z) : Z :=
  if i <? 0 then Z.max 0 (n + i) else Z.min i n.

(** [l[a:b]]: never raises. *)
Definition slice {A} (l : list A) (a b : Z) : list A :=
  let a' := clamp (len l) a in
  let b' := clamp (len l) b in
  take (Z.to_nat (b' - a')) (drop (Z.to_nat a') l).

(** [l[:b]] *)
Definition slice_to {A} (l : list A) (b : Z) : list A := slice l 0 b.

(** [l[i]]: a negative index counts from the end; out of range it
    raises [IndexError]. *)
Definition index {A} (l : list A) (i : Z) : result A :=
  let j := if i <? 0 then len l + i else i in
  if (j <? 0) || (len l <=? j) then Raise IndexError
  else match l !! Z.to_nat j with
       | Some x => Ok x
       | None => Raise IndexError
       end.

(** Truthiness of a list. *)
Definition truthy {A} (l : list A) : bool :=
  match l with [] => false | _ :: _ => true end.

End PyList.

(** ** client.py: the data model *)

(** A [datetime]: an instant in microseconds, counted from the epoch in
    UTC when the value carries an offset ([aware]) and on the wall clock
    when it carries none.  Two values of the same kind compare by their
    instants; comparing an aware value with a naive one raises
    [TypeError]. *)
Record datetime : Type := {
  instant : Z;
  aware : bool
}.

(** [datetime.now(timezone.utc)] when the clock reads [t]. *)
Definition utc (t : Z) : datetime := {| instant := t; aware := true |}.

Record DiscordMessage : Type := {
  m_id : string;
  m_content : string;
  m_author_name : string;
  m_author_id : string;
  m_channel_id : string;
  m_timestamp : datetime;
  m_attachments : list string
}.

Record DiscordChannel : Type := {
  ch_id : string;
  ch_name : string;
  ch_type : Z;
  ch_guild_id : option string
}.

Record DiscordGuild : Type := {
  g_id : string;
  g_name : string;
  g_icon : option string
}.

(** A browser resource held by a session is known by its identity. *)
Definition handle : Type := nat.

Record ClientState : Type := {
  email : string;
  password : string;
  headless : bool;
  extra_wait_ms : Z;
  playwright : option handle;
  browser : option handle;
  context : option handle;
  page : option handle;
  logged_in : bool;
  cookies_file : string
}.

Record MessageContext : Type := {
  target_message : DiscordMessage;
  messages_before : list DiscordMessage;
  messages_after : list DiscordMessage;
  channel_name : string;
  channel_id : string
}.

(** ** The browser as the client drives it

    Every call on the page or on a resource is an event.  The world
    decides, from the events so far, what a query finds and whether a
    call raises; a program is a function of the events so far that
    returns or raises and extends them. *)

Module Eff.

Inductive selector : Type :=
| SelPageButton (n : Z)   (** button:has-text(Page n) *)
| SelEllipsis             (** button:has-text(...) *)
| SelPageInput            (** input[type=number], input[type=text] *)
| SelNext.                (** button:has-text(Next) *)

Inductive event : Type :=
| Query (s : selector)
| IsVisible (s : selector)
| Click (s : selector)
| Fill (s : selector) (text : string)
| Press (s : selector) (key : string)
| WaitFor (ms : Z)
| Invoke (h : handle) (method : string).

#[global] Instance selector_eq_dec : EqDecision selector.
Proof. solve_decision. Defined.

#[global] Instance event_eq_dec : EqDecision event.
Proof. solve_decision. Defined.

Record world : Type := {
  (** [query_selector] finds an element *)
  present : list event -> selector -> bool;
  (** [is_visible()] of the element found *)
  visible : list event -> selector -> bool;
  (** the call raises an [Exception] *)
  fails : list event -> event -> bool
}.

Definition Eff (A : Type) : Type := list event -> result A * list event.

Definition ret {A} (a : A) : Eff A := fun h => (Ok a, h).

Definition bind {A B} (c : Eff A) (k : A -> Eff B) : Eff B :=
  fun h => match c h with
           | (Ok a, h') => k a h'
           | (Raise e, h') => (Raise e, h')
           end.

(** [try: body  except Exception: pass] *)
Definition try_pass (body : Eff unit) : Eff unit :=
  fun h => match body h with
           | (Ok _, h') => (Ok tt, h')
           | (Raise _, h') => (Ok tt, h')
           end.

(** One call: it is recorded, and it raises when the world says so. *)
Definition perform (w : world) (e : event) : Eff unit :=
  fun h => if fails w h e then (Raise PlaywrightError, h ++ [e])
           else (Ok tt, h ++ [e]).

Definition query_selector (w : world) (s : selector) : Eff bool :=
  fun h => match perform w (Query s) h with
           | (Ok _, h') => (Ok (present w h s), h')
           | (Raise e, h') => (Raise e, h')
           end.

Definition is_visible (w : world) (s : selector) : Eff bool :=
  fun h => match perform w (IsVisible s) h with
           | (Ok _, h') => (Ok (visible w h s), h')
           | (Raise e, h') => (Raise e, h')
           end.

End Eff.

Notation "x <- c ;; k" := (Eff.bind c (fun x => k))
  (at level 100, c at next level, right associativity).
Notation "c ;;; k" := (Eff.bind c (fun _ => k))
  (at level 100, right associativity).

(** ** client.py: session teardown and page navigation *)

Module Client.
Import Eff.

Section Driving.
Variable w : world.

Fixpoint for_each {A} (l : list A) (body : A -> Eff unit) : Eff unit :=
  match l with
  | [] => ret tt
  | x :: l' => body x ;;; for_each l' body
  end.

(** The body of the loop of [close_client]:
<<
    try:
        if resource:
            await getattr(resource, action)()
    except Exception:
        pass
>>
*)
Definition close_resource (ra : option handle * string) : Eff unit :=
  try_pass (match ra.1 with
            | Some h => perform w (Invoke h ra.2)
            | None => ret tt
            end).

(** [close_client]; the garbage collection that ends it calls nothing
    of the session. *)
Definition close_client (state : ClientState) : Eff unit :=
  let resources :=
    [ (page state, "close"); (context state, "close");
      (browser state, "close"); (playwright state, "stop") ] in
  for_each resources close_resource.

(** [el = await page.query_selector(s)] followed by
    [el and await el.is_visible()]. *)
Definition found_and_visible (s : selector) : Eff bool :=
  el <- query_selector w s ;;
  if el then is_visible w s else ret false.

(** Method 3 of [_navigate_to_search_page]: the loop
    [for _ in range(target_page - 1)], with the turns left to do. *)
Fixpoint next_clicks (turns : nat) : Eff bool :=
  match turns with
  | O => ret true
  | S turns' =>
      next_button <- found_and_visible SelNext ;;
      if next_button
      then perform w (Click SelNext) ;;; perform w (WaitFor 800) ;;;
           next_clicks turns'
      else ret false
  end.

Definition _navigate_to_search_page (target_page : Z) : Eff bool :=
  if target_page =? 1 then ret true
  else
    page_button <- found_and_visible (SelPageButton target_page) ;;
    if page_button
    then perform w (Click (SelPageButton target_page)) ;;;
         perform w (WaitFor 1000) ;;; ret true
    else
      ellipsis <- found_and_visible SelEllipsis ;;
      by_input <-
        (if ellipsis
         then perform w (Click SelEllipsis) ;;; perform w (WaitFor 500) ;;;
              page_input <- query_selector w SelPageInput ;;
              if page_input
              then perform w (Fill SelPageInput (Text.of_Z target_page)) ;;;
                   perform w (Press SelPageInput "Enter") ;;;
                   perform w (WaitFor 1000) ;;; ret true
              else ret false
         else ret false) ;;
      if by_input then ret true
      else next_clicks (Z.to_nat (target_page - 1)).

End Driving.

(** The resources a session holds, in the order [close_client] goes
    through them, each with the method that releases it. *)
Definition held (state : ClientState) : list event :=
  omap (fun ra : option handle * string =>
          match ra.1 with Some h => Some (Invoke h ra.2) | None => None end)
       [ (page state, "close"); (context state, "close");
         (browser state, "close"); (playwright state, "stop") ].

Definition is_click (e : event) : bool :=
  match e with Click _ => true | _ => false end.

Definition is_click_next (e : event) : bool :=
  match e with Click SelNext => true | _ => false end.

(** How often Next has been clicked. *)
Definition next_clicked (h : list event) : nat :=
  length (List.filter is_click_next h).

(** After the events [h], looking for [s] finds an element and the
    element is visible. *)
Definition shown (w : world) (h : list event) (s : selector) : bool :=
  present w h s && visible w (h ++ [Query s]) s.

(** A page that shows neither a button for the page asked for nor the
    ellipsis. *)
Definition only_next (w : world) (target_page : Z) : Prop :=
  forall h, shown w h (SelPageButton target_page) = false
            /\ shown w h SelEllipsis = false.

(** The events of one successful turn of the loop over Next. *)
Definition next_turn (w : world) (h : list event) : list event :=
  Query SelNext :: (if present w h SelNext then [IsVisible SelNext] else [])
  ++ [Click SelNext; WaitFor 800].

Definition never_fails (w : world) : Prop :=
  forall h e, fails w h e = false.

(** A world where only Next is ever shown, until it has been clicked
    [k] times. *)
Definition next_only_world (k : nat) : world :=
  {| present := fun h s =>
       match s with SelNext => bool_decide (next_clicked h < k)%nat
               | _ => false end;
     visible := fun _ _ => true;
     fails := fun _ _ => false |}.

(** A world where every call listed in [bad] raises. *)
Definition failing_world (bad : list event) : world :=
  {| present := fun _ _ => false;
     visible := fun _ _ => false;
     fails := fun _ e => bool_decide (e ∈ bad) |}.

Definition full_session : ClientState :=
  {| email := "user@example.org"; password := "secret";
     headless := true; extra_wait_ms := 0;
     playwright := Some 1%nat; browser := Some 2%nat;
     context := Some 3%nat; page := Some 4%nat;
     logged_in := true; cookies_file := ".discord_mcp_cookies.json" |}.

End Client.

(** ** client.py: guilds and channels *)

Module Guilds.
Import Text.

(** A tree item of the guild rail as the extraction script reads it:
    its [data-list-item-id] attribute, the [textContent] of each of its
    descendants in document order, and its own [textContent]. *)
Record tree_item : Type := {
  item_list_item_id : option string;
  item_descendant_texts : list string;
  item_text : string
}.

(** A JavaScript value that is [null] or a string is falsy when it is
    [null] or empty. *)
Definition truthy_o (o : option string) : bool :=
  match o with Some s => truthy s | None => false end.

(** [s.replace(/^\d+\s+mentions?,\s*/, '')]: a leading count of
    mentions goes.  The classes of the pattern are disjoint from the
    letters that follow them, so each greedy run is the maximal one. *)
Definition strip_mentions (s : string) : string :=
  let digits := take_while is_digit s in
  let r1 := drop_while is_digit s in
  let gap := take_while js_space r1 in
  let r2 := drop_while js_space r1 in
  if truthy digits && truthy gap && String.prefix "mention" r2
  then let r3 := drop 7 r2 in
       if String.prefix "s," r3 then drop_while js_space (drop 2 r3)
       else if String.prefix "," r3 then drop_while js_space (drop 1 r3)
       else s
  else s.

(** The test of the loop over the descendants: a text that can be a
    guild name. *)
Definition plausible_name (text : string) : bool :=
  truthy text && (2 <? len text) && (len text <? 100)
  && negb (includes "notification" text) && negb (includes "unread" text)
  && negb (all_digits text).

(** [for (let elem of textElements) { ... break; }]: the first
    plausible trimmed text, or [null]. *)
Fixpoint first_plausible (texts : list string) : option string :=
  match texts with
  | [] => None
  | t :: rest =>
      let text := js_trim t in
      if plausible_name text then Some text else first_plausible rest
  end.

Definition guild_name (item : tree_item) : option string :=
  let guildName := first_plausible (item_descendant_texts item) in
  let guildName :=
    if truthy_o guildName then guildName
    else let fullText := js_trim (item_text item) in
         if truthy fullText
         then Some (js_trim (collapse_ws false (strip_mentions fullText)))
         else guildName in
  match guildName with
  | Some n => if truthy n then Some (js_trim (strip_mentions n)) else Some n
  | None => None
  end.

(** One turn of [treeItems.forEach], on the list [guilds] of
    [(id, name)] built so far. *)
Definition guild_step (guilds : list (string * string)) (item : tree_item)
  : list (string * string) :=
  match item_list_item_id item with
  | Some listItemId =>
      if String.prefix "guildsnav___" listItemId
         && negb (String.eqb listItemId "guildsnav___home")
      then let guildId := js_remove_first "guildsnav___" listItemId in
           if all_digits guildId
           then let guildName := guild_name item in
                if truthy_o guildName
                   && negb (existsb (fun g => String.eqb g.1 guildId) guilds)
                then guilds ++ [(guildId, default EmptyString guildName)]
                else guilds
           else guilds
      else guilds
  | None => guilds
  end.

(** The extraction script of [get_guilds]. *)
Definition extract_guilds_js (treeItems : list tree_item)
  : list (string * string) :=
  fold_left guild_step treeItems [].

(** [get_guilds], on the tree items the page shows. *)
Definition get_guilds (treeItems : list tree_item) : list DiscordGuild :=
  map (fun guild_data =>
         {| g_id := guild_data.1; g_name := guild_data.2; g_icon := None |})
      (extract_guilds_js treeItems).

Definition is_home (item : tree_item) : bool :=
  match item_list_item_id item with
  | Some i => String.eqb i "guildsnav___home"
  | None => false
  end.

Definition numeric (g : string * string) : Prop := all_digits g.1 = true.

(** A guild rail: the home entry, a guild with two mentions, the same
    guild once more, an entry that is no guild and a folder. *)
Definition sample_rail : list tree_item :=
  [ {| item_list_item_id := Some "guildsnav___home";
       item_descendant_texts := ["Direct Messages"];
       item_text := "Direct Messages" |};
    {| item_list_item_id := Some "guildsnav___123456789012345";
       item_descendant_texts := [];
       item_text := "2 mentions,  My   Server " |};
    {| item_list_item_id := Some "guildsnav___123456789012345";
       item_descendant_texts := ["My Server"];
       item_text := "My Server" |};
    {| item_list_item_id := None;
       item_descendant_texts := ["Add a Server"];
       item_text := "Add a Server" |};
    {| item_list_item_id := Some "guildsnav___folder-7";
       item_descendant_texts := ["Folder"];
       item_text := "Folder" |};
    {| item_list_item_id := Some "guildsnav___42";
       item_descendant_texts := ["17"; "3 unread"; " Lounge "];
       item_text := "17 Lounge" |} ].

End Guilds.

Module Channels.
Import Text.

(** An anchor of the page: its resolved [href] and its [textContent]. *)
Record link : Type := {
  link_href : string;
  link_text : string
}.

(** A record of the extraction script. *)
Record channel_data : Type := {
  cd_id : string;
  cd_name : string;
  cd_href : string
}.

(** [href.match(/\/channels\/{guild_id}\/([0-9]+)/)], group 1: the
    digits after the leftmost [/channels/{guild_id}/] that has a digit
    behind it.  The guild identifier is spliced into the pattern as it
    is; it stands for itself, as the numeric identifiers of the platform
    do. *)
Fixpoint match_channel (pat : string) (href : string) : option string :=
  let here :=
    if String.prefix pat href
    then let digits := take_while is_digit (drop (String.length pat) href) in
         if truthy digits then Some digits else None
    else None in
  match here with
  | Some d => Some d
  | None => match href with
            | EmptyString => None
            | String _ rest => match_channel pat rest
            end
  end.

(** A character of the class [[a-zA-Z0-9#-_]]; [#-_] is the range from
    U+0023 to U+005F. *)
Definition name_char (c : ascii) : bool :=
  between 97 122 c || between 65 90 c || between 48 57 c || between 35 95 c.

(** The three assignments to [name] of the script. *)
Definition clean_name (text : string) : string :=
  let name := js_trim text in
  let name := js_trim (drop_while (fun c => negb (name_char c)) name) in
  js_trim (collapse_ws false name).

(** One turn of [links.forEach], on [(channels, seenIds)]. *)
Definition link_step (guild_id : string)
    (st : list channel_data * gset string) (l : link)
  : list channel_data * gset string :=
  let '(channels, seenIds) := st in
  match match_channel ("/channels/" +:+ guild_id +:+ "/") (link_href l) with
  | Some channelId =>
      if bool_decide (channelId ∈ seenIds) then st
      else let name := clean_name (link_text l) in
           (channels ++
              [ {| cd_id := channelId;
                   cd_name := if truthy name then name
                              else "channel-" +:+ channelId;
                   cd_href := link_href l |} ],
            {[ channelId ]} ∪ seenIds)
  | None => st
  end.

(** The script returned by [extract_channels_js], run on the anchors of
    the page. *)
Definition extract_channels_js (guild_id : string) (links : list link)
  : list channel_data :=
  (fold_left (link_step guild_id) links ([], ∅)).1.

(** Step 3 of [get_guild_channels]: the two loops over the original and
    the browse channels, on [(all_channels, final_channels)]. *)
Definition add_original
    (st : gmap string channel_data * list channel_data) (ch : channel_data)
  : gmap string channel_data * list channel_data :=
  (<[cd_id ch := ch]> st.1, st.2 ++ [ch]).

Definition add_browse (all_channels : gmap string channel_data)
    (final_channels : list channel_data) (ch : channel_data)
  : list channel_data :=
  if bool_decide (is_Some (all_channels !! cd_id ch)) then final_channels
  else final_channels ++ [ch].

Definition merge_channels (original_channels browse_channels
                           : list channel_data) : list channel_data :=
  let '(all_channels, final_channels) :=
    fold_left add_original original_channels (∅, []) in
  fold_left (add_browse all_channels) browse_channels final_channels.

Definition to_channel (guild_id : string) (ch : channel_data)
  : DiscordChannel :=
  {| ch_id := cd_id ch; ch_name := cd_name ch; ch_type := 0;
     ch_guild_id := Some guild_id |}.

(** [get_guild_channels], on the anchors of the guild page and, when the
    Browse Channels control was there and the second pass went through,
    on the anchors of the page after it. *)
Definition get_guild_channels (guild_id : string)
    (direct : list link) (browse : option (list link))
  : list DiscordChannel :=
  let original_channels := extract_channels_js guild_id direct in
  let browse_channels :=
    match browse with
    | Some links => extract_channels_js guild_id links
    | None => []
    end in
  map (to_channel guild_id) (merge_channels original_channels browse_channels).

(** The browse entries that the direct set does not know. *)
Definition browse_only (original_channels browse_channels
                        : list channel_data) : list channel_data :=
  List.filter
    (fun ch => negb (bool_decide (cd_id ch ∈ map cd_id original_channels)))
    browse_channels.

Definition with_id (i : string) (l : list channel_data) : list channel_data :=
  List.filter (fun ch => String.eqb (cd_id ch) i) l.

Definition named (cd : channel_data) : Prop := cd_name cd <> EmptyString.

(** Two listings that share the channel 2 and where the browse listing
    names the channel 3 twice. *)
Definition sample_direct : list channel_data :=
  [ {| cd_id := "1"; cd_name := "general"; cd_href := "/channels/9/1" |};
    {| cd_id := "2"; cd_name := "memes"; cd_href := "/channels/9/2" |} ].

Definition sample_browse : list channel_data :=
  [ {| cd_id := "2"; cd_name := "memes (browse)";
       cd_href := "/channels/9/2" |};
    {| cd_id := "3"; cd_name := "archive"; cd_href := "/channels/9/3" |};
    {| cd_id := "3"; cd_name := "archive again";
       cd_href := "/channels/9/3" |} ].

(** An anchor to the channel 456 of the guild 123 whose text is only
    blanks and an exclamation mark. *)
Definition blank_link : link :=
  {| link_href := "https://discord.com/channels/123/456";
     link_text := "  ! " |}.

End Channels.

(** ** client.py: the messages of a channel *)

Module Messages.
Import Text.

(** What the [datetime] attribute of a message holds for the parser:
    nothing, a text that [datetime.fromisoformat] rejects, or a text
    that it reads as a [datetime], aware when the text ends with an
    offset or with Z. *)
Inductive time_attr : Type :=
| NoTime
| BadTime
| GoodTime (t : datetime).

(** The selectors tried in turn for the content and for the author. *)
Inductive content_selector : Type :=
| ClassMessageContent    (** [class*="messageContent"] *)
| ClassMarkup            (** [class*="markup"] *)
| DotMessageContent.     (** .messageContent *)

Inductive author_selector : Type :=
| ClassUsername          (** [class*="username"] *)
| ClassAuthorName        (** [class*="authorName"] *)
| DotUsername.           (** .username *)

(** A message element as Playwright answers about it. *)
Record message_node : Type := {
  (** some call on the element raises *)
  node_raises : bool;
  (** [get_attribute("id")] *)
  node_id : option string;
  (** [text_content()] of the element found by a selector; [None] when
      there is no such element or it has no text *)
  node_content : content_selector -> option string;
  node_author : author_selector -> option string;
  (** the [datetime] attribute of the [time] element *)
  node_time : time_attr;
  (** the [href] of each attachment link *)
  node_attachments : list (option string);
  (** the clock, should the extraction read it *)
  node_now : Z
}.

(** The cascades
<<
    for selector in [...]:
        elem = await element.query_selector(selector)
        if elem and (text := await elem.text_content()):
            value = text.strip()
            break
>>
    The first selector with a non-empty text decides. *)
Fixpoint cascade {S} (text_of : S -> option string) (selectors : list S)
    (default : string) : string :=
  match selectors with
  | [] => default
  | selector :: rest =>
      match text_of selector with
      | Some text => if truthy text then py_strip text
                     else cascade text_of rest default
      | None => cascade text_of rest default
      end
  end.

Definition or_else (o : option string) (d : string) : string :=
  match o with
  | Some s => if truthy s then s else d
  | None => d
  end.

(** The attachments: the links whose [href] is a non-empty text. *)
Definition hrefs (l : list (option string)) : list string :=
  omap (fun o => match o with
                 | Some s => if truthy s then Some s else None
                 | None => None
                 end) l.

Definition _extract_message_data (element : message_node)
    (channel_id : string) (collected : Z) : option DiscordMessage :=
  if node_raises element then None
  else
    let message_id :=
      py_remove_all "chat-messages-"
        (or_else (node_id element) ("message-" +:+ of_Z collected)) in
    let content :=
      cascade (node_content element)
              [ClassMessageContent; ClassMarkup; DotMessageContent]
              EmptyString in
    let author_name :=
      cascade (node_author element)
              [ClassUsername; ClassAuthorName; DotUsername] "Unknown" in
    match node_time element with
    | BadTime => None
    | time =>
        let timestamp :=
          match time with
          | GoodTime t => t
          | _ => utc (node_now element)
          end in
        let attachments := hrefs (node_attachments element) in
        if negb (truthy content) && negb (PyList.truthy attachments)
        then None
        else Some {| m_id := message_id;
                     m_content := content;
                     m_author_name := author_name;
                     m_author_id := "unknown";
                     m_channel_id := channel_id;
                     m_timestamp := timestamp;
                     m_attachments := attachments |}
    end.

(** [if bound and message.id >= bound] and its mirror. *)
Definition at_or_after (bound : option string) (i : string) : bool :=
  match bound with
  | Some b => truthy b && ge i b
  | None => false
  end.

Definition at_or_before (bound : option string) (i : string) : bool :=
  match bound with
  | Some a => truthy a && le i a
  | None => false
  end.

Section Reading.
Variable channel_id : string.
Variable limit : Z.
Variables before after : option string.

(** The inner loop [for element in reversed(elements)], on
    [(messages, seen_ids)]; it is handed the elements already
    reversed. *)
Fixpoint walk (elements : list message_node)
    (st : list DiscordMessage * gset string)
  : list DiscordMessage * gset string :=
  match elements with
  | [] => st
  | element :: rest =>
      if limit <=? PyList.len st.1 then st
      else
        match _extract_message_data element channel_id
                (Z.of_nat (size st.2)) with
        | Some message =>
            if bool_decide (m_id message ∈ st.2) then walk rest st
            else if at_or_after before (m_id message) then walk rest st
            else if at_or_before after (m_id message) then walk rest st
            else walk rest (st.1 ++ [message], {[ m_id message ]} ∪ st.2)
        | None => walk rest st
        end
  end.

(** The outer loop [for attempt in range(10)], with the attempts left
    and the number of the next one; [elements_at k] is what the [k]-th
    query of the message list finds. *)
Fixpoint attempts (elements_at : nat -> list message_node)
    (left : nat) (attempt : nat) (st : list DiscordMessage * gset string)
  : list DiscordMessage * gset string :=
  match left with
  | O => st
  | S left' =>
      let elements := elements_at attempt in
      if negb (PyList.truthy elements)
      then attempts elements_at left' (S attempt) st
      else
        let st' := walk (rev elements) st in
        if (limit <=? PyList.len st'.1) || negb (PyList.truthy elements)
        then st'
        else attempts elements_at left' (S attempt) st'
  end.

End Reading.

(** [sorted(messages, key=lambda m: m.timestamp, reverse=True)] is a
    stable sort, latest first: messages of one instant keep their
    order. *)
Fixpoint insert_desc (m : DiscordMessage) (l : list DiscordMessage)
  : list DiscordMessage :=
  match l with
  | [] => [m]
  | x :: l' =>
      if instant (m_timestamp m) <? instant (m_timestamp x)
      then x :: insert_desc m l'
      else m :: x :: l'
  end.

Fixpoint sorted_desc (l : list DiscordMessage) : list DiscordMessage :=
  match l with
  | [] => []
  | m :: l' => insert_desc m (sorted_desc l')
  end.

(** A sort has to compare, directly or through others, any two of its
    elements: it raises as soon as the list holds an aware and a naive
    timestamp. *)
Definition mixed (l : list DiscordMessage) : bool :=
  existsb (fun m => aware (m_timestamp m)) l
  && existsb (fun m => negb (aware (m_timestamp m))) l.

Definition sorted_by_timestamp (l : list DiscordMessage)
  : result (list DiscordMessage) :=
  if mixed l then Raise TypeError else Ok (sorted_desc l).

(** What the page of a channel answers: whether the login goes through,
    whether the message list appears in time, and the elements found by
    each query of it. *)
Record channel_page : Type := {
  login_ok : bool;
  list_appears : bool;
  elements_at : nat -> list message_node
}.

Definition get_channel_messages (p : channel_page)
    (server_id channel_id : string) (limit : Z)
    (before after : option string) : result (list DiscordMessage) :=
  if negb (login_ok p) then Raise (RuntimeError "Failed to login to Discord")
  else if negb (list_appears p) then Raise PlaywrightError
  else
    let '(messages, _) :=
      attempts channel_id limit before after (elements_at p) 10 0 ([], ∅) in
    match sorted_by_timestamp messages with
    | Ok sorted => Ok (PyList.slice_to sorted limit)
    | Raise e => Raise e
    end.

(** Every timestamp the page carries has its offset, as the platform
    writes them. *)
Definition offsets_given (p : channel_page) : Prop :=
  forall k element,
    element ∈ elements_at p k ->
    match node_time element with
    | GoodTime t => aware t = true
    | _ => True
    end.

(** A message passes the two bounds. *)
Definition within (before after : option string) (m : DiscordMessage)
  : Prop :=
  at_or_after before (m_id m) = false /\ at_or_before after (m_id m) = false.

(** [P] holds of whatever is extracted from an element of the page and
    passes the two bounds. *)
Definition collects (channel_id : string) (before after : option string)
    (elements_at : nat -> list message_node) (P : DiscordMessage -> Prop)
  : Prop :=
  forall k element collected m,
    element ∈ elements_at k ->
    _extract_message_data element channel_id collected = Some m ->
    within before after m -> P m.

(** Latest first. *)
Definition later_first (a b : DiscordMessage) : Prop :=
  instant (m_timestamp b) <= instant (m_timestamp a).

(** A message element with a text, an author and an instant. *)
Definition node (i text : string) (t : Z) : message_node :=
  {| node_raises := false;
     node_id := Some ("chat-messages-" +:+ i);
     node_content := fun s =>
       match s with ClassMessageContent => Some text | _ => None end;
     node_author := fun s =>
       match s with ClassUsername => Some "ann" | _ => None end;
     node_time := GoodTime (utc t);
     node_attachments := [];
     node_now := 0 |}.

(** A message element whose timestamp has no offset. *)
Definition naive_node (i text : string) (t : Z) : message_node :=
  {| node_raises := false;
     node_id := Some ("chat-messages-" +:+ i);
     node_content := fun s =>
       match s with ClassMarkup => Some text | _ => None end;
     node_author := fun _ => None;
     node_time := GoodTime {| instant := t; aware := false |};
     node_attachments := [];
     node_now := 0 |}.

(** A channel whose list shows a message with an offset and one
    without. *)
Definition mixed_page : channel_page :=
  {| login_ok := true;
     list_appears := true;
     elements_at := fun _ => [node "100" "a" 10; naive_node "200" "b" 20] |}.

(** A channel whose list shows, oldest first, the messages 100, 200,
    300 and 400, and once more 300 and 400 after a page up. *)
Definition sample_page : channel_page :=
  {| login_ok := true;
     list_appears := true;
     elements_at := fun k =>
       match k with
       | O => [node "300" "c" 30; node "400" "d" 40]
       | _ => [node "100" "a" 10; node "200" "b" 20;
               node "300" "c" 30; node "400" "d" 40]
       end |}.

End Messages.

(** ** client.py: search results and the context of a hit *)

Module Search.
Import Text.

(** A record returned by the extraction script of the search results;
    [hit_now] is the clock when the record is turned into a message. *)
Record hit : Type := {
  hit_author : string;
  hit_content : string;
  hit_timestamp : string;
  hit_channel : string;
  hit_index : Z;
  hit_now : Z
}.

(** [f"{result['author']}:{result['content'][:50] if result['content']
    else ''}"] *)
Definition content_key (result : hit) : string :=
  hit_author result +:+ ":" +:+
  (if truthy (hit_content result) then slice_to 50 (hit_content result)
   else EmptyString).

(** The same key, read off a message returned. *)
Definition message_key (m : DiscordMessage) : string :=
  m_author_name m +:+ ":" +:+
  (if truthy (m_content m) then slice_to 50 (m_content m) else EmptyString).

(** [in_channels[0] if in_channels else ""] *)
Definition first_channel (in_channels : option (list string)) : string :=
  match in_channels with
  | Some (c :: _) => c
  | _ => EmptyString
  end.

Section Scraping.
Variable limit : Z.
Variable in_channels : option (list string).

(** [for result in results_data], on [(messages, seen_content)]. *)
Fixpoint collect (results_data : list hit)
    (st : list DiscordMessage * gset string)
  : list DiscordMessage * gset string :=
  match results_data with
  | [] => st
  | result :: rest =>
      if limit <=? PyList.len st.1 then st
      else
        let key := content_key result in
        if bool_decide (key ∈ st.2) then collect rest st
        else
          collect rest
            (st.1 ++
               [ {| m_id := "search-" +:+ of_Z (PyList.len st.1);
                    m_content := hit_content result;
                    m_author_name := hit_author result;
                    m_author_id := "unknown";
                    m_channel_id :=
                      if truthy (hit_channel result) then hit_channel result
                      else first_channel in_channels;
                    m_timestamp := utc (hit_now result);
                    m_attachments := [] |} ],
             {[ key ]} ∪ st.2)
  end.

(** [while len(messages) < limit and scroll_attempts < max_scrolls],
    with the scrolls left of the five; [results_at k] is what the
    script returns when it is run for the [k]-th time. *)
Fixpoint scrolls (results_at : nat -> list hit) (left : nat)
    (scroll_attempts : nat) (st : list DiscordMessage * gset string)
  : list DiscordMessage * gset string :=
  match left with
  | O => st
  | S left' =>
      if limit <=? PyList.len st.1 then st
      else
        let st' := collect (results_at scroll_attempts) st in
        if limit <=? PyList.len st'.1 then st'
        else scrolls results_at left' (S scroll_attempts) st'
  end.

End Scraping.

(** What the search of a guild answers: whether the login and the search
    box are there, whether results appear in time, and the records of
    each run of the script. *)
Record search_page : Type := {
  search_login_ok : bool;
  search_box_found : bool;
  results_appear : bool;
  results_at : nat -> list hit
}.

Definition max_scrolls : nat := 5.

Definition search_messages (p : search_page) (in_channels : option (list string))
    (limit : Z) : result (list DiscordMessage) :=
  if negb (search_login_ok p)
  then Raise (RuntimeError "Failed to login to Discord")
  else if negb (search_box_found p)
  then Raise (RuntimeError "Could not find search box")
  else if negb (results_appear p) then Ok []
  else
    let '(messages, _) :=
      scrolls limit in_channels (results_at p) max_scrolls 0 ([], ∅) in
    Ok (PyList.slice_to messages limit).

(** The state of the loops holds the key of every message collected. *)
Definition keyed (st : list DiscordMessage * gset string) : Prop :=
  NoDup (map message_key st.1)
  /\ (forall m, m ∈ st.1 -> message_key m ∈ st.2).

Definition sample_hit (author content : string) : hit :=
  {| hit_author := author; hit_content := content;
     hit_timestamp := EmptyString; hit_channel := "general";
     hit_index := 0; hit_now := 0 |}.

(** Sixty characters, and the same sixty with another ending. *)
Definition long_a : string := Text.replicate 50 "a" +:+ "0123456789".
Definition long_b : string := Text.replicate 50 "a" +:+ "9876543210".

(** A search whose first run shows two hits that agree on the author and
    on the first fifty characters, and whose second run shows them in
    the other order together with a third hit. *)
Definition sample_search : search_page :=
  {| search_login_ok := true;
     search_box_found := true;
     results_appear := true;
     results_at := fun k =>
       match k with
       | O => [sample_hit "ann" long_a; sample_hit "ann" long_b]
       | _ => [sample_hit "ann" long_b; sample_hit "ann" long_a;
               sample_hit "bob" long_a]
       end |}.

(** *** The context of a hit *)

(** A record returned by the script that reads the channel view. *)
Record rendered : Type := {
  r_id : string;
  r_author : string;
  r_content : string;
  (** the [timestamp] field as the parser takes it *)
  r_timestamp : Messages.time_attr;
  r_index : Z;
  r_now : Z
}.

Definition make_message (channel_id : string) (data : rendered)
  : DiscordMessage :=
  {| m_id := r_id data;
     m_content := r_content data;
     m_author_name := r_author data;
     m_author_id := "unknown";
     m_channel_id := channel_id;
     m_timestamp := match r_timestamp data with
                    | Messages.GoodTime t => t
                    | _ => utc (r_now data)
                    end;
     m_attachments := [] |}.

(** The loop that looks for the target by its identifier:
<<
    for i, msg in enumerate(messages_data):
        if target_message_id and target_message_id in msg["id"]:
            target_idx = i
            break
>>
*)
Fixpoint find_target (target_message_id : string)
    (messages_data : list rendered) (i : Z) (target_idx : Z) : Z :=
  match messages_data with
  | [] => target_idx
  | msg :: rest =>
      if truthy target_message_id && includes target_message_id (r_id msg)
      then i
      else find_target target_message_id rest (i + 1) target_idx
  end.

Definition target_index (target_message_id : string)
    (messages_data : list rendered) : Z :=
  find_target target_message_id messages_data 0
              (PyList.len messages_data / 2).

(** The slicing at the end of [get_search_result_context]: the messages
    before the target, the target and the messages after it. *)
Definition context_window (channel_id : string)
    (messages_data : list rendered) (target_idx before_count after_count : Z)
  : result (list DiscordMessage * DiscordMessage * list DiscordMessage) :=
  let before_start := Z.max 0 (target_idx - before_count) in
  let after_end :=
    Z.min (PyList.len messages_data) (target_idx + after_count + 1) in
  let messages_before :=
    map (make_message channel_id)
        (PyList.slice messages_data before_start target_idx) in
  match PyList.index messages_data target_idx with
  | Raise e => Raise e
  | Ok target =>
      let messages_after :=
        map (make_message channel_id)
            (PyList.slice messages_data (target_idx + 1) after_end) in
      Ok (messages_before, make_message channel_id target, messages_after)
  end.

(** [get_search_result_context] from the click on the hit onwards: the
    address the click leads to, the records of the channel view, the
    title of the header. *)
Definition get_search_result_context (url : string)
    (messages_data : list rendered) (header_title : string)
    (before_count after_count : Z) (in_channels : option (list string))
  : result (option MessageContext) :=
  let url_parts := split "/" url in
  let channel_id :=
    if 2 <=? PyList.len url_parts
    then match PyList.index url_parts (-2) with
         | Ok s => s
         | Raise _ => EmptyString
         end
    else EmptyString in
  let target_message_id :=
    if 1 <=? PyList.len url_parts
    then match PyList.index url_parts (-1) with
         | Ok s => s
         | Raise _ => EmptyString
         end
    else EmptyString in
  if negb (PyList.truthy messages_data) then Ok None
  else
    let target_idx := target_index target_message_id messages_data in
    match context_window channel_id messages_data target_idx
                         before_count after_count with
    | Raise e => Raise e
    | Ok (before, target, after) =>
        let channel_name := first_channel in_channels in
        let channel_name :=
          if truthy channel_name then channel_name else header_title in
        Ok (Some {| target_message := target;
                    messages_before := before;
                    messages_after := after;
                    channel_name := py_strip channel_name;
                    channel_id := channel_id |})
    end.

Definition sample_rendered (i : Z) : rendered :=
  {| r_id := "8-" +:+ of_Z (1000 + i); r_author := "ann";
     r_content := "message " +:+ of_Z i;
     r_timestamp := Messages.GoodTime (utc i); r_index := i; r_now := 0 |}.

(** Eight messages of a channel view. *)
Definition eight_messages : list rendered :=
  map sample_rendered [0; 1; 2; 3; 4; 5; 6; 7].

End Search.

(** ** server.py: more about the chunking *)

Module ChunkingSamples.
Import Text.

(** Two lines: one of 1200 characters in two words, one of 2400
    characters in two words. *)
Definition sample_lines : string :=
  replicate 600 "p" +:+ " " +:+ replicate 599 "q"
  +:+ String newline EmptyString
  +:+ replicate 1200 "r" +:+ " " +:+ replicate 1199 "s".

End ChunkingSamples.

(** ** client.py: more about guilds and channels *)

Module GuildViews.
Import Text Guilds.

(** What a tree item gives when no guild has been found yet: the record
    that [guild_step] pushes for it, if it pushes one. *)
Definition guild_of (item : tree_item) : option (string * string) :=
  match guild_step [] item with
  | g :: _ => Some g
  | [] => None
  end.

(** The name that the first tree item of the guild [i] gives to it. *)
Definition first_name (i : string) (treeItems : list tree_item)
  : option string :=
  snd <$> List.find (fun g => String.eqb g.1 i) (omap guild_of treeItems).

(** A text that neither starts nor ends with a character of [p]. *)
Definition head_clean (p : ascii -> bool) (s : string) : bool :=
  match s with
  | EmptyString => true
  | String c _ => negb (p c)
  end.

Definition well_named (g : string * string) : Prop :=
  g.2 <> EmptyString /\ js_trim g.2 = g.2.

End GuildViews.

Module ChannelViews.
Import Text Channels.






End ChannelViews.

Module MessageViews.
Import Text Messages.

(** The state of the loops of [get_channel_messages]: the messages
    collected have distinct identifiers, all of them in [seen_ids]. *)
Definition seen_all (st : list DiscordMessage * gset string) : Prop :=
  NoDup (map m_id st.1) /\ (forall m, m ∈ st.1 -> m_id m ∈ st.2).

(** The page that shows what [p] shows at the first ten queries and
    nothing afterwards. *)
Definition first_ten (p : channel_page) : channel_page :=
  {| login_ok := login_ok p;
     list_appears := list_appears p;
     elements_at := fun k =>
       if (k <? 10)%nat then elements_at p k else [] |}.

(** A message element that carries only an attachment, no text and no
    time. *)
Definition attachment_node : message_node :=
  {| node_raises := false;
     node_id := None;
     node_content := fun _ => Some "   ";
     node_author := fun _ => None;
     node_time := NoTime;
     node_attachments :=
       [None; Some EmptyString;
        Some "https://cdn.discordapp.com/attachments/1/2/a.png"];
     node_now := 77 |}.

End MessageViews.

(** ** client.py: more about the search *)

Module SearchViews.
Import Text Search.

(** The state of the loops of [search_messages]: the message at the
    position [i] is called [search-i]. *)
Definition numbered (l : list DiscordMessage) : Prop :=
  forall i m, l !! i = Some m -> m_id m = "search-" +:+ of_Z (Z.of_nat i).

(** The message is made from the record [h]. *)
Definition made_from (in_channels : option (list string))
    (m : DiscordMessage) (h : hit) : Prop :=
  m_content m = hit_content h
  /\ m_author_name m = hit_author h
  /\ m_timestamp m = utc (hit_now h)
  /\ m_channel_id m = (if truthy (hit_channel h) then hit_channel h
                       else first_channel in_channels).

(** The search that shows what [p] shows at the first five runs of the
    script and nothing afterwards. *)
Definition first_five (p : search_page) : search_page :=
  {| search_login_ok := search_login_ok p;
     search_box_found := search_box_found p;
     results_appear := results_appear p;
     results_at := fun k =>
       if (k <? 5)%nat then results_at p k else [] |}.

(** A search where the results never appear. *)
Definition silent_search : search_page :=
  {| search_login_ok := true;
     search_box_found := true;
     results_appear := false;
     results_at := fun _ => [sample_hit "ann" "lost"] |}.

(** *** Composing the query *)

(** The criteria of a search as [search_messages] receives them. *)
Record criteria : Type := {
  query : string;
  in_channels : option (list string);
  from_users : option (list string);
  mentions_users : option (list string);
  has_filters : option (list string);
  before : option string;
  after : option string;
  during : option string;
  author_type : option string;
  pinned : option bool
}.

(** [if values: for v in values: parts.append(f"{tag}{v}")] *)
Definition each (tag : string) (values : option (list string))
  : list string :=
  match values with
  | Some l => if PyList.truthy l then map (fun v => tag +:+ v) l else []
  | None => []
  end.

(** [if value: parts.append(f"{tag}{value}")] *)
Definition one (tag : string) (value : option string) : list string :=
  match value with
  | Some v => if truthy v then [tag +:+ v] else []
  | None => []
  end.

(** [sep.join(parts)] *)
Fixpoint join (sep : string) (parts : list string) : string :=
  match parts with
  | [] => EmptyString
  | [p] => p
  | p :: rest => p +:+ sep +:+ join sep rest
  end.

(** The parts of the query of [search_messages], in the order they are
    appended. *)
Definition query_parts (c : criteria) : list string :=
  (if truthy (query c) then [query c] else [])
  ++ each "in: " (in_channels c)
  ++ each "from: " (from_users c)
  ++ each "mentions: " (mentions_users c)
  ++ each "has: " (has_filters c)
  ++ one "before: " (before c)
  ++ one "after: " (after c)
  ++ one "during: " (during c)
  ++ one "authorType: " (author_type c)
  ++ (match pinned c with Some true => ["pinned: true"] | _ => [] end).

Definition full_query (c : criteria) : string := join " " (query_parts c).

(** The parts of the query of [get_search_result_context]: the text, the
    channels and the authors. *)
Definition context_query (q : string)
    (channels users : option (list string)) : string :=
  join " " ((if truthy q then [q] else [])
            ++ each "in: " channels ++ each "from: " users).

(** Truthiness of the optional values of a request. *)
Definition some_list (o : option (list string)) : bool :=
  match o with Some l => PyList.truthy l | None => false end.

Definition some_text (o : option string) : bool :=
  match o with Some s => truthy s | None => false end.

Definition some_true (o : option bool) : bool :=
  match o with Some b => b | None => false end.

(** [any([in_channels, from_users, ..., pinned])] *)
Definition any_filter (c : criteria) : bool :=
  some_list (in_channels c) || some_list (from_users c)
  || some_list (mentions_users c) || some_list (has_filters c)
  || some_text (before c) || some_text (after c) || some_text (during c)
  || some_text (author_type c) || some_true (pinned c).

Definition only_text (q : string) : criteria :=
  {| query := q; in_channels := None; from_users := None;
     mentions_users := None; has_filters := None; before := None;
     after := None; during := None; author_type := None; pinned := None |}.

(** A search for pinned images of two channels since a day. *)
Definition sample_criteria : criteria :=
  {| query := "release notes";
     in_channels := Some ["general"; "dev"];
     from_users := Some [];
     mentions_users := None;
     has_filters := Some ["image"];
     before := None;
     after := Some "2025-01-31";
     during := Some EmptyString;
     author_type := Some "bot";
     pinned := Some true |}.

End SearchViews.

(** ** server.py: the tools around the client *)

Module Tools.
Import Text SearchViews Eff Client.

Definition raise {A} (e : exn) : Eff A := fun h => (Raise e, h).

(** [try: body  finally: final]: [final] runs whatever [body] does, and
    an exception of [final] takes the place of the outcome of [body]. *)
Definition try_finally {A} (body : Eff A) (final : Eff unit) : Eff A :=
  fun h => match body h with
           | (r, h') => match final h' with
                        | (Ok _, h'') => (r, h'')
                        | (Raise e, h'') => (Raise e, h'')
                        end
           end.

(** What the tools read of the configuration. *)
Record config : Type := {
  cfg_email : string;
  cfg_password : string;
  cfg_extra_wait_ms : Z
}.

(** [create_client_state] of client.py; [home] is the home directory,
    under which the default cookie file lies. *)
Definition create_client_state (home : string) (email password : string)
    (headless : bool) (extra_wait_ms : Z) : ClientState :=
  {| email := email; password := password; headless := headless;
     extra_wait_ms := extra_wait_ms;
     playwright := None; browser := None; context := None; page := None;
     logged_in := false;
     cookies_file := home +:+ "/.discord_mcp_cookies.json" |}.

Section Executing.
Variable w : world.
Variable home : string.
Variable cfg : config.

(** [_execute_with_fresh_client], for one call at a time (the lock is
    not modelled):
<<
    client_state = create_client_state(...)
    try:
        _, result = await operation(client_state)
        return result
    finally:
        await close_client(client_state)
>>
*)
Definition _execute_with_fresh_client {T}
    (operation : ClientState -> Eff (ClientState * T)) : Eff T :=
  let client_state :=
    create_client_state home (cfg_email cfg) (cfg_password cfg) true
                        (cfg_extra_wait_ms cfg) in
  try_finally (r <- operation client_state ;; ret r.2)
              (close_client w client_state).

(** The checks at the head of the tool [search_messages];
    [valid_has_text] is how Python prints the set of valid content
    types. *)
Definition valid_has : list string :=
  ["image"; "video"; "link"; "file"; "embed"].

Definition validate_search (valid_has_text : string) (c : criteria)
    (page max_results : Z) : result unit :=
  if negb (truthy (py_strip (query c))) && negb (any_filter c)
  then Raise (ValueError "Must provide query text or at least one filter")
  else if negb ((1 <=? max_results) && (max_results <=? 100))
  then Raise (ValueError "max_results must be between 1 and 100")
  else if page <? 1
  then Raise (ValueError "page must be at least 1")
  else if some_list (has_filters c)
          && negb (List.forallb (fun h => bool_decide (h ∈ valid_has))
                                (default [] (has_filters c)))
  then Raise (ValueError ("has_filters must be from: " +:+ valid_has_text))
  else if some_text (author_type c)
          && negb (bool_decide (default EmptyString (author_type c)
                                ∈ ["user"; "bot"; "webhook"]))
  then Raise (ValueError "author_type must be one of: user, bot, webhook")
  else Ok tt.

(** The tool [search_messages], up to the conversion of the messages to
    dictionaries; [search] is the search of the client. *)
Definition search_messages_tool (valid_has_text : string) (c : criteria)
    (page max_results : Z)
    (search : criteria -> Z -> Z -> ClientState
              -> Eff (ClientState * list DiscordMessage))
  : Eff (list DiscordMessage) :=
  match validate_search valid_has_text c page max_results with
  | Raise e => raise e
  | Ok _ => _execute_with_fresh_client (search c page max_results)
  end.

End Executing.

(** A text of blanks only. *)
Definition blank (s : string) : bool := forallb py_space s.

(** An operation that starts a browser, so that the state it returns
    holds four resources, and returns the number 7. *)
Definition launching (w : world) (state : ClientState)
  : Eff (ClientState * Z) :=
  perform w (Invoke 1%nat "start") ;;; perform w (Invoke 2%nat "launch") ;;;
  perform w (Invoke 3%nat "new_context") ;;;
  perform w (Invoke 4%nat "new_page") ;;;
  ret ({| email := email state; password := password state;
          headless := headless state; extra_wait_ms := extra_wait_ms state;
          playwright := Some 1%nat; browser := Some 2%nat;
          context := Some 3%nat; page := Some 4%nat;
          logged_in := true; cookies_file := cookies_file state |}, 7).

Definition sample_config : config :=
  {| cfg_email := "user@example.org"; cfg_password := "secret";
     cfg_extra_wait_ms := 0 |}.

End Tools.

(** ** client.py: more about the navigation between result pages *)

Module NavigateViews.
Import Eff Client.

(** The calls that act on the page: clicks, fills and key presses. *)
Definition acts (e : event) : bool :=
  match e with
  | Click _ | Fill _ _ | Press _ _ => true
  | _ => false
  end.

(** A page that shows a button for every page. *)
Definition buttons_world : world :=
  {| present := fun _ s =>
       match s with SelPageButton _ => true | _ => false end;
     visible := fun _ _ => true;
     fails := fun _ _ => false |}.

(** A page that shows the ellipsis, and the input after a click on it
    when [input] holds. *)
Definition ellipsis_world (input : bool) : world :=
  {| present := fun _ s =>
       match s with
       | SelEllipsis => true
       | SelPageInput => input
       | _ => false
       end;
     visible := fun _ _ => true;
     fails := fun _ _ => false |}.

End NavigateViews.

(** ** client.py: starting the browser and logging in

    The calls of these functions go to the driver, the browser, the
    context and the page; each is recorded with the resource it is made
    on.  The surroundings decide, from the calls so far, whether a call
    raises, which resource a call creates and what the page shows. *)

Module Session.
Import Text.

Inductive selector : Type :=
| GuildItem       (** [data-list-id=guildsnav] [role=treeitem] *)
| EmailInput      (** input[name=email] *)
| PasswordInput   (** input[name=password] *)
| SubmitButton    (** button[type=submit] *)
| CheckEmailText. (** text=Check your email *)

(** The two conditions [_login] waits for. *)
Inductive condition : Type :=
| LeftLogin         (** the address no longer includes /login *)
| ReachedChannels.  (** the address includes /channels/ *)

Inductive call : Type :=
| Start
| Launch (driver : handle) (headless : bool)
| FileExists (path : string)
| NewContext (browser : handle) (storage_state : option string)
| NewPage (context : handle)
| Goto (page : handle) (url : string) (wait_until : option string)
| WaitForSelector (page : handle) (s : selector) (timeout : Z)
| QuerySelector (page : handle) (s : selector)
| Count (page : handle) (s : selector)
| Fill (page : handle) (s : selector) (text : string)
| Click (page : handle) (s : selector)
| WaitForFunction (page : handle) (c : condition) (timeout : Z)
| Sleep (ms : Z)
| StorageState (page : handle) (path : string).

Record env : Type := {
  (** the call raises *)
  raises : list call -> call -> bool;
  (** the resource that a creating call returns *)
  created : list call -> handle;
  (** [Path.exists()] *)
  file_exists : list call -> string -> bool;
  (** [page.url] *)
  url : list call -> string;
  (** [query_selector] finds an element *)
  found : list call -> selector -> bool;
  (** [locator(...).count()] *)
  counted : list call -> selector -> Z
}.

Definition Run (A : Type) : Type := list call -> result A * list call.

Definition ret {A} (a : A) : Run A := fun h => (Ok a, h).

Definition raise {A} (e : exn) : Run A := fun h => (Raise e, h).

Definition bind {A B} (c : Run A) (k : A -> Run B) : Run B :=
  fun h => match c h with
           | (Ok a, h') => k a h'
           | (Raise e, h') => (Raise e, h')
           end.

(** [try: body  except Exception as e: handler(e)] *)
Definition try_except {A} (body : Run A) (handler : exn -> Run A) : Run A :=
  fun h => match body h with
           | (Ok a, h') => (Ok a, h')
           | (Raise e, h') => handler e h'
           end.

Section Driving.
Variable e : env.

(** One call: recorded, raising when the surroundings say so, and
    answering with what they show before it.  The look at the cookie
    file is a call like the others: it goes to the file system and may
    raise as well. *)
Definition call_for {A} (c : call) (answer : list call -> A) : Run A :=
  fun h => if raises e h c then (Raise PlaywrightError, h ++ [c])
           else (Ok (answer h), h ++ [c]).

Definition do (c : call) : Run unit := call_for c (fun _ => tt).

(** [asyncio.sleep], in milliseconds. *)
Definition sleep (ms : Z) : Run unit := fun h => (Ok tt, h ++ [Sleep ms]).

Definition create (c : call) : Run handle := call_for c (created e).

(** Reading the attribute [page.url] is no call. *)
Definition read_url : Run string := fun h => (Ok (url e h), h).

Definition complete (state : ClientState) : bool :=
  match playwright state, browser state, context state, page state with
  | Some _, Some _, Some _, Some _ => true
  | _, _, _, _ => false
  end.

Definition _ensure_browser (state : ClientState) : Run ClientState :=
  if complete state then ret state
  else
    bind (create Start) (fun playwright =>
    bind (create (Launch playwright (headless state))) (fun browser =>
    bind (call_for (FileExists (cookies_file state))
                   (fun h => file_exists e h (cookies_file state)))
         (fun there =>
    bind (create (NewContext browser
                    (if there then Some (cookies_file state) else None)))
         (fun context =>
    bind (create (NewPage context)) (fun page =>
    ret {| email := email state; password := password state;
           headless := headless state;
           extra_wait_ms := extra_wait_ms state;
           playwright := Some playwright; browser := Some browser;
           context := Some context; page := Some page;
           logged_in := logged_in state;
           cookies_file := cookies_file state |}))))).

Definition _save_storage_state (state : ClientState) : Run unit :=
  match page state with
  | Some p => do (StorageState p (cookies_file state))
  | None => ret tt
  end.

(** [any(path in url for path in ["/login", "/register"])
     or "/channels/@me" not in url] *)
Definition off_the_app (u : string) : bool :=
  includes "/login" u || includes "/register" u
  || negb (includes "/channels/@me" u).

Definition _check_logged_in (state : ClientState) : Run bool :=
  match page state with
  | None => ret false
  | Some p =>
      try_except
        (bind (do (Goto p "https://discord.com/channels/@me"
                       (Some "domcontentloaded"))) (fun _ =>
         bind (do (WaitForSelector p GuildItem 15000)) (fun _ =>
         bind read_url (fun u =>
         if off_the_app u then ret false
         else call_for (QuerySelector p GuildItem)
                       (fun h => found e h GuildItem)))))
        (fun _ => ret false)
  end.

Definition with_login (state : ClientState) (b : bool) : ClientState :=
  {| email := email state; password := password state;
     headless := headless state; extra_wait_ms := extra_wait_ms state;
     playwright := playwright state; browser := browser state;
     context := context state; page := page state;
     logged_in := b; cookies_file := cookies_file state |}.

(** [str(e)]: the message of an exception the program raised itself,
    [driver_text] for an error that came from a call. *)
Definition describe (driver_text : string) (x : exn) : string :=
  match x with
  | ValueError m | RuntimeError m => m
  | _ => driver_text
  end.

(** The part of [_login] under [try], for the page [p]. *)
Definition after_submit (state : ClientState) (p : handle)
  : Run ClientState :=
  bind (do (WaitForFunction p LeftLogin 60000)) (fun _ =>
  bind (sleep (1000 + extra_wait_ms state)) (fun _ =>
  bind read_url (fun u =>
  bind (if includes "/verify" u then ret true
        else bind (call_for (Count p CheckEmailText)
                            (fun h => counted e h CheckEmailText))
                  (fun n => ret (negb (n =? 0)))) (fun verify =>
  bind (if verify then do (WaitForFunction p ReachedChannels 120000)
        else ret tt) (fun _ =>
  bind (_check_logged_in state) (fun inside =>
  if inside
  then
    let was_logged_in := logged_in state in
    let state := with_login state true in
    bind (sleep 5000) (fun _ =>
    bind (match page state with
          | Some p' => do (Goto p' "https://discord.com/channels/@me" None)
          | None => ret tt
          end) (fun _ =>
    bind (sleep 3000) (fun _ =>
    bind (if negb was_logged_in then _save_storage_state state
          else ret tt) (fun _ =>
    ret state))))
  else raise (RuntimeError
                "Login appeared to succeed but verification failed"))))))).

Definition _login (driver_text : string) (state : ClientState)
  : Run ClientState :=
  if logged_in state then ret state
  else
    bind (_ensure_browser state) (fun state =>
    match page state with
    | None => raise (RuntimeError "Browser page not initialized")
    | Some p =>
        bind (_check_logged_in state) (fun inside =>
        if inside then ret (with_login state true)
        else
          bind (do (Goto p "https://discord.com/login" None)) (fun _ =>
          bind (sleep 2000) (fun _ =>
          bind (do (Fill p EmailInput (email state))) (fun _ =>
          bind (do (Fill p PasswordInput (password state))) (fun _ =>
          bind (do (Click p SubmitButton)) (fun _ =>
          try_except (after_submit state p)
            (fun x => raise (RuntimeError
                               ("Failed to login to Discord: "
                                +:+ describe driver_text x)))))))))
    end).

End Driving.

Definition verification_failed : string :=
  "Login appeared to succeed but verification failed".

(** No call raises. *)
Definition quiet (e : env) : Prop := forall h c, raises e h c = false.

(** The calls that hand the credentials to the page or write the
    session to the disk. *)
Definition types_or_saves (c : call) : bool :=
  match c with
  | Fill _ _ _ | Click _ _ | StorageState _ _ => true
  | _ => false
  end.

(** The waits for the address to change. *)
Definition waits (c : call) : bool :=
  match c with
  | WaitForFunction _ _ _ => true
  | _ => false
  end.

Definition submitted (h : list call) : bool :=
  existsb (fun c => match c with Click _ SubmitButton => true | _ => false end)
          h.

(** Surroundings where no call raises, the handles are numbered by the
    calls made so far, a cookie file is there when [cookies] holds, and
    the page is inside the application when [resumed] holds or once the
    form has been submitted. *)
Definition plain_env (cookies resumed : bool) : env :=
  {| raises := fun _ _ => false;
     created := fun h => length h;
     file_exists := fun _ _ => cookies;
     url := fun h =>
       if resumed || submitted h then "https://discord.com/channels/@me"
       else "https://discord.com/login";
     found := fun _ _ => true;
     counted := fun _ _ => 0 |}.

(** Surroundings where the wait for the address to leave the login view
    runs out. *)
Definition stuck_env : env :=
  {| raises := fun _ c =>
       match c with WaitForFunction _ LeftLogin _ => true | _ => false end;
     created := fun h => length h;
     file_exists := fun _ _ => false;
     url := fun _ => "https://discord.com/login";
     found := fun _ _ => false;
     counted := fun _ _ => 0 |}.

Definition new_session : ClientState :=
  {| email := "user@example.org"; password := "secret";
     headless := true; extra_wait_ms := 250;
     playwright := None; browser := None; context := None; page := None;
     logged_in := false; cookies_file := "/home/u/.discord_mcp_cookies.json" |}.

End Session.
(* ================================================================== *)
(** * Part II: properties                                              *)
(* ================================================================== *)

Module TextFacts.
Import Text.

Lemma app_nil_l (s : string) : EmptyString +:+ s = s.
Proof. reflexivity. Qed.

Lemma app_cons (c : ascii) (s t : string) :
  String c s +:+ t = String c (s +:+ t).
Proof. reflexivity. Qed.

Lemma app_nil_r (s : string) : s +:+ EmptyString = s.
Proof. induction s as [|c s IH]; [done|]. by rewrite app_cons, IH. Qed.

Lemma app_assoc (s t u : string) : (s +:+ t) +:+ u = s +:+ (t +:+ u).
Proof.
  induction s as [|c s IH]; [done|]. by rewrite !app_cons, IH.
Qed.

Lemma len_nil : len EmptyString = 0.
Proof. reflexivity. Qed.

Lemma len_cons c s : len (String c s) = 1 + len s.
Proof. unfold len. cbn [String.length]. lia. Qed.

Lemma len_nonneg s : 0 <= len s.
Proof. unfold len. lia. Qed.

Lemma len_app s t : len (s +:+ t) = len s + len t.
Proof.
  induction s as [|c s IH]; [rewrite app_nil_l, len_nil; lia|].
  rewrite app_cons, !len_cons, IH. lia.
Qed.

Lemma truthy_false s : truthy s = false -> s = EmptyString.
Proof. by destruct s. Qed.

Lemma filter_app p s t : filter p (s +:+ t) = filter p s +:+ filter p t.
Proof.
  induction s as [|c s IH]; [done|].
  rewrite app_cons. cbn [filter]. destruct (p c); [|done].
  by rewrite app_cons, IH.
Qed.

Lemma concat_app l1 l2 : concat (l1 ++ l2) = concat l1 +:+ concat l2.
Proof.
  induction l1 as [|s l1 IH]; [done|].
  cbn [concat app]. simpl. by rewrite IH, app_assoc.
Qed.

End TextFacts.

(** ** The chunking of [send_message] *)

Module ChunkingFacts.
Import Text TextFacts Server.

Lemma len_take_le n s : len (take n s) <= len s.
Proof.
  revert s; induction n as [|n IH]; intros [|c s]; cbn [take];
    rewrite ?len_nil, ?len_cons; try lia.
  - pose proof (len_nonneg s). lia.
  - specialize (IH s). lia.
Qed.

Lemma take_all n s : len s <= Z.of_nat n -> take n s = s.
Proof.
  revert s; induction n as [|n IH]; intros [|c s]; cbn [take];
    rewrite ?len_nil, ?len_cons; intros H; try done.
  - pose proof (len_nonneg s). lia.
  - f_equal. apply IH. lia.
Qed.

Lemma slice_to_fits w : fits w -> slice_to 2000 w = w.
Proof.
  unfold fits, slice_to. intros H.
  change (0 <=? 2000) with true. cbv iota. apply take_all. lia.
Qed.

Lemma split_not_nil sep s : split sep s <> [].
Proof.
  destruct s as [|c s]; cbn [split]; [done|].
  destruct (Ascii.eqb c sep); [done|]. by destruct (split sep s).
Qed.

(** Gluing the pieces of a split back together gives the text without
    its separators. *)
Lemma concat_split sep s :
  concat (split sep s) = filter (fun c => negb (Ascii.eqb c sep)) s.
Proof.
  induction s as [|c s IH]; [done|].
  cbn [split filter]. destruct (Ascii.eqb c sep) eqn:E; cbn [negb].
  - cbn [concat]. by rewrite app_nil_l.
  - pose proof (split_not_nil sep s) as Hne.
    destruct (split sep s) as [|w ws]; [done|].
    cbn [concat] in *. by rewrite app_cons, IH.
Qed.

Lemma filter_absorb (p q : ascii -> bool) s :
  (forall c, p c = true -> q c = true) ->
  filter p (filter q s) = filter p s.
Proof.
  intros Hpq. induction s as [|c s IH]; [done|]. cbn [filter].
  destruct (q c) eqn:Hq; cbn [filter].
  - by rewrite IH.
  - destruct (p c) eqn:Hp; [|done]. apply Hpq in Hp. congruence.
Qed.

Lemma split_no_sep sep s : has_no sep s = true -> split sep s = [s].
Proof.
  unfold has_no. induction s as [|c s IH]; [done|].
  cbn [forallb split]. intros [Hc Hs]%andb_prop.
  destruct (Ascii.eqb c sep); [done|]. by rewrite (IH Hs).
Qed.

Lemma nw_app s t :
  non_whitespace (s +:+ t) = non_whitespace s +:+ non_whitespace t.
Proof. apply filter_app. Qed.

Lemma nw_split_space s :
  non_whitespace (concat (split space s)) = non_whitespace s.
Proof.
  rewrite concat_split. apply filter_absorb.
  intros c Hc. destruct (Ascii.eqb c space) eqn:E; [|done].
  apply Ascii.eqb_eq in E. subst c. done.
Qed.

Lemma nw_split_newline s :
  non_whitespace (concat (split newline s)) = non_whitespace s.
Proof.
  rewrite concat_split. apply filter_absorb.
  intros c Hc. destruct (Ascii.eqb c newline) eqn:E; [|done].
  apply Ascii.eqb_eq in E. subst c. done.
Qed.

Lemma nw_concat_snoc chunks s :
  non_whitespace (concat (chunks ++ [s]))
  = non_whitespace (concat chunks) +:+ non_whitespace s.
Proof.
  rewrite concat_app, nw_app. cbn [concat]. by rewrite app_nil_r.
Qed.

Lemma nw_nil : non_whitespace EmptyString = EmptyString.
Proof. reflexivity. Qed.

Lemma nw_space : non_whitespace (String space EmptyString) = EmptyString.
Proof. reflexivity. Qed.

Lemma nw_newline :
  non_whitespace (String newline EmptyString) = EmptyString.
Proof. reflexivity. Qed.

(** Both sides of an equation between non-whitespace contents are
    brought to one right-nested concatenation. *)
Ltac nw_norm :=
  rewrite ?nw_app, ?nw_concat_snoc, ?nw_space, ?nw_newline, ?nw_nil,
    ?app_nil_r, ?app_nil_l, ?app_assoc.

(** *** Moving a piece into the chunk under construction *)

Lemma add_piece_fits chunks cc piece :
  Forall fits chunks -> fits cc -> fits piece ->
  Forall fits (fst (add_piece (chunks, cc) piece))
  /\ fits (snd (add_piece (chunks, cc) piece)).
Proof.
  intros Hch Hcc Hp. unfold add_piece.
  destruct (Z.leb_spec
              (len (cc +:+ String newline EmptyString +:+ piece)) 2000)
    as [Hle|Hgt]; cbn [fst snd].
  - split; [done|]. by destruct (truthy cc).
  - split; [|done]. apply Forall_app. split; [done|]. by constructor.
Qed.

Lemma add_piece_content chunks cc piece :
  non_whitespace (concat (fst (add_piece (chunks, cc) piece))
                  +:+ snd (add_piece (chunks, cc) piece))
  = non_whitespace (concat chunks +:+ cc) +:+ non_whitespace piece.
Proof.
  unfold add_piece.
  destruct (len (cc +:+ String newline EmptyString +:+ piece) <=? 2000);
    cbn [fst snd].
  - destruct (truthy cc) eqn:Hcc.
    + by nw_norm.
    + apply truthy_false in Hcc. subst cc. by nw_norm.
  - by nw_norm.
Qed.

(** *** The loop over the words of an over-long line *)

Lemma word_step_fits st w : fits3 st -> fits w -> fits3 (word_step st w).
Proof.
  destruct st as [[chunks cc] cl]. unfold fits3. cbn [fst snd].
  intros (Hch & Hcc & Hcl) Hw. unfold word_step.
  destruct (Z.leb_spec (len (cl +:+ String space EmptyString +:+ w)) 2000)
    as [Hle|Hgt]; cbn [fst snd].
  - repeat split; try done. by destruct (truthy cl).
  - destruct (truthy cl) eqn:Ht.
    + pose proof (add_piece_fits chunks cc cl Hch Hcc Hcl) as [H1 H2].
      destruct (add_piece (chunks, cc) cl) as [chunks' cc'].
      cbn [fst snd] in *. done.
    + cbn [fst snd]. repeat split; try done.
      by rewrite slice_to_fits.
Qed.

Lemma word_step_content st w :
  fits w ->
  non_whitespace (flat3 (word_step st w))
  = non_whitespace (flat3 st) +:+ non_whitespace w.
Proof.
  destruct st as [[chunks cc] cl]. intros Hw.
  unfold word_step, flat3.
  destruct (len (cl +:+ String space EmptyString +:+ w) <=? 2000);
    cbn [fst snd].
  - destruct (truthy cl) eqn:Ht.
    + by nw_norm.
    + apply truthy_false in Ht. subst cl. by nw_norm.
  - destruct (truthy cl) eqn:Ht.
    + pose proof (add_piece_content chunks cc cl) as Hc.
      destruct (add_piece (chunks, cc) cl) as [chunks' cc'].
      cbn [fst snd] in *.
      rewrite <- (app_assoc (concat chunks') cc' w).
      rewrite (nw_app (concat chunks' +:+ cc')), Hc. by nw_norm.
    + apply truthy_false in Ht. subst cl. cbn [fst snd].
      rewrite (slice_to_fits w Hw). by nw_norm.
Qed.

Lemma words_fits ws st :
  fits3 st -> Forall fits ws -> fits3 (fold_left word_step ws st).
Proof.
  revert st. induction ws as [|w ws IH]; intros st Hst Hws; [done|].
  inversion Hws; subst. cbn [fold_left].
  apply IH; [|done]. by apply word_step_fits.
Qed.

Lemma words_content ws st :
  Forall fits ws ->
  non_whitespace (flat3 (fold_left word_step ws st))
  = non_whitespace (flat3 st) +:+ non_whitespace (concat ws).
Proof.
  revert st. induction ws as [|w ws IH]; intros st Hws.
  - cbn [fold_left concat]. by nw_norm.
  - inversion Hws; subst. cbn [fold_left concat].
    rewrite IH by done. rewrite word_step_content by done.
    by nw_norm.
Qed.

End ChunkingFacts.

Module ChunkingTheorems.
Import Text TextFacts Server ChunkingFacts.

Lemma words_fit_Forall line :
  words_fit line = true -> Forall fits (split space line).
Proof.
  unfold words_fit. intros H. apply Forall_forall. intros w Hw.
  rewrite forallb_forall in H. apply list_elem_of_In in Hw.
  specialize (H w Hw). unfold fits. lia.
Qed.

(** One line, short or made of words that fit, keeps the bound on
    every chunk and adds its own non-whitespace content. *)
Lemma line_step_ok st line :
  fits2 st -> words_fit line = true ->
  fits2 (line_step st line)
  /\ non_whitespace (flat2 (line_step st line))
     = non_whitespace (flat2 st) +:+ non_whitespace line.
Proof.
  destruct st as [chunks cc]. unfold fits2, flat2. cbn [fst snd].
  intros [Hch Hcc] Hw%words_fit_Forall. unfold line_step.
  destruct (Z.ltb_spec 2000 (len line)) as [Hlong|Hshort]; cbn [fst snd].
  - assert (fits3 (chunks, cc, EmptyString)) as H0.
    { repeat split; try done. }
    pose proof (words_fits _ _ H0 Hw) as Hf.
    pose proof (words_content _ (chunks, cc, EmptyString) Hw) as Hc.
    destruct (fold_left word_step (split space line)
                        (chunks, cc, EmptyString)) as [[chunks' cc'] cl'].
    unfold fits3, flat3 in *. cbn [fst snd] in *.
    destruct Hf as (Hf1 & Hf2 & Hf3).
    rewrite nw_split_space, app_nil_r in Hc.
    destruct (truthy cl') eqn:Ht.
    + split; [by apply add_piece_fits|].
      rewrite add_piece_content, <- Hc.
      by rewrite <- nw_app, app_assoc.
    + apply truthy_false in Ht. subst cl'. cbn [fst snd].
      rewrite app_nil_r in Hc. done.
  - split; [apply add_piece_fits; try done; unfold fits; lia|].
    apply add_piece_content.
Qed.

Lemma lines_ok lines st :
  fits2 st -> Forall (fun l => words_fit l = true) lines ->
  fits2 (fold_left line_step lines st)
  /\ non_whitespace (flat2 (fold_left line_step lines st))
     = non_whitespace (flat2 st) +:+ non_whitespace (concat lines).
Proof.
  revert st. induction lines as [|l lines IH]; intros st Hst Hls.
  - cbn [fold_left concat]. split; [done|]. by rewrite nw_nil, app_nil_r.
  - inversion Hls; subst. cbn [fold_left concat].
    destruct (line_step_ok st l Hst) as [Hf Hc]; [done|].
    destruct (IH (line_step st l) Hf) as [Hf' Hc']; [done|].
    split; [done|]. rewrite Hc', Hc, nw_app. by rewrite app_assoc.
Qed.

(** Whatever the number of lines: when the words of every line fit,
    every chunk fits and no non-whitespace character is lost. *)
Lemma chunk_content_lines content :
  Forall (fun l => words_fit l = true) (split newline content) ->
  Forall fits (chunk_content content)
  /\ non_whitespace (concat (chunk_content content))
     = non_whitespace content.
Proof.
  intros Hls. unfold chunk_content.
  destruct (Z.leb_spec (len content) 2000) as [Hle|Hgt].
  - split; [by repeat constructor|]. cbn [concat]. by rewrite app_nil_r.
  - assert (fits2 ([], EmptyString)) as H0 by (split; [constructor|done]).
    destruct (lines_ok _ _ H0 Hls) as [Hf Hc].
    destruct (fold_left line_step (split newline content) ([], EmptyString))
      as [chunks cc].
    unfold fits2, flat2 in *. cbn [fst snd concat] in *.
    destruct Hf as [Hf1 Hf2].
    rewrite nw_split_newline, ?app_nil_l, ?nw_nil, ?app_nil_l in Hc.
    destruct (truthy cc) eqn:Ht.
    + split; [apply Forall_app; split; [done|by constructor]|].
      by rewrite nw_concat_snoc, <- nw_app.
    + apply truthy_false in Ht. subst cc.
      rewrite app_nil_r in Hc. done.
Qed.

(** C1, as the specification words it, fails: a single word of 4500
    characters has no newline, and the chunker keeps only its first
    2000 characters (after an empty first chunk). *)
Lemma chunking_drops_tail_of_long_word :
  let content := replicate 4500 "b" in
  len content = 4500
  /\ has_no newline content = true
  /\ chunk_content content = [EmptyString; replicate 2000 "b"]
  /\ ~ (Forall (fun c => len c <= 2000) (chunk_content content)
        /\ non_whitespace (concat (chunk_content content))
           = non_whitespace content).
Proof.
  cbv zeta. repeat split; try (vm_compute; reflexivity).
  intros [_ H]. apply (f_equal len) in H. vm_compute in H. discriminate.
Qed.

(** The other way round, a long word that follows some text is not cut
    at all and becomes a chunk of its own, longer than 2000. *)
Lemma chunking_keeps_long_word_after_text :
  let content := "a " +:+ replicate 4498 "b" in
  len content = 4500
  /\ has_no newline content = true
  /\ chunk_content content = ["a"; replicate 4498 "b"].
Proof. cbv zeta. repeat split; vm_compute; reflexivity. Qed.

(** C1 (amended): an input of at most 2000 characters is its own single
    chunk; an input without newline whose space-separated words have at
    most 2000 characters each (of 4500 characters or of any other
    length) is cut into chunks of at most 2000 characters whose
    concatenation has the non-whitespace content of the input. *)
Theorem chunking_of_fitting_words :
  (forall content, len content <= 2000 -> chunk_content content = [content])
  /\ (forall content,
        has_no newline content = true ->
        words_fit content = true ->
        Forall (fun c => len c <= 2000) (chunk_content content)
        /\ non_whitespace (concat (chunk_content content))
           = non_whitespace content).
Proof.
  split.
  - intros content Hle. unfold chunk_content.
    destruct (Z.leb_spec (len content) 2000); [done|lia].
  - intros content Hnl Hw. apply chunk_content_lines.
    rewrite (split_no_sep _ _ Hnl). by repeat constructor.
Qed.

Lemma chunking_of_fitting_words_witness :
  chunk_content (replicate 2000 "q") = [replicate 2000 "q"]
  /\ len sample_4500 = 4500
  /\ Forall (fun c => len c <= 2000) (chunk_content sample_4500)
  /\ non_whitespace (concat (chunk_content sample_4500))
     = non_whitespace sample_4500.
Proof.
  split; [|split].
  - apply (proj1 chunking_of_fitting_words). vm_compute. discriminate.
  - vm_compute. reflexivity.
  - apply (proj2 chunking_of_fitting_words); vm_compute; reflexivity.
Defined.

End ChunkingTheorems.

(** ** Teardown and page navigation *)

Module SessionTheorems.
Import Eff Client.

Lemma close_resource_run w ra h :
  close_resource w ra h
  = (Ok tt, h ++ match ra.1 with
                 | Some r => [Invoke r ra.2]
                 | None => []
                 end).
Proof.
  unfold close_resource, try_pass, perform, ret.
  destruct ra.1 as [r|]; [|by rewrite app_nil_r].
  by destruct (fails w h (Invoke r ra.2)).
Qed.

Lemma for_each_close w ras h :
  for_each ras (close_resource w) h
  = (Ok tt, h ++ omap (fun ra : option handle * string =>
                         match ra.1 with
                         | Some r => Some (Invoke r ra.2)
                         | None => None
                         end) ras).
Proof.
  revert h. induction ras as [|ra ras IH]; intros h.
  - cbn. by rewrite app_nil_r.
  - cbn [for_each]. unfold bind. rewrite close_resource_run, IH.
    f_equal. destruct ra as [[r|] a]; cbn; [|by rewrite app_nil_r].
    by rewrite <- app_assoc.
Qed.

(** C9: whatever the session holds and whichever of the calls raise,
    [close_client] returns normally after having called, in this order,
    [close] on the page, the context and the browser and [stop] on the
    driver, for each of those the session holds: all four for a session
    that has all four. *)
Theorem close_client_never_raises (w : world) (state : ClientState)
    (h : list event) :
  close_client w state h = (Ok tt, h ++ held state)
  /\ (forall p c b d,
        page state = Some p -> context state = Some c ->
        browser state = Some b -> playwright state = Some d ->
        held state = [ Invoke p "close"; Invoke c "close";
                       Invoke b "close"; Invoke d "stop" ]).
Proof.
  split.
  - unfold close_client, held. apply for_each_close.
  - intros p c b d Hp Hc Hb Hd. unfold held. cbn. by rewrite Hp, Hc, Hb, Hd.
Qed.

Lemma close_client_never_raises_witness :
  let w := failing_world [Invoke 4%nat "close"; Invoke 2%nat "close"] in
  fails w [] (Invoke 4%nat "close") = true
  /\ close_client w full_session [] = (Ok tt, held full_session)
  /\ held full_session = [ Invoke 4%nat "close"; Invoke 3%nat "close";
                           Invoke 2%nat "close"; Invoke 1%nat "stop" ].
Proof.
  cbv zeta. split; [reflexivity|]. split.
  - apply (proj1 (close_client_never_raises _ full_session [])).
  - apply (proj2 (close_client_never_raises
                    (failing_world []) full_session [])); reflexivity.
Defined.

(** *** Reaching a page of search results *)

Lemma perform_ok w e h : never_fails w -> perform w e h = (Ok tt, h ++ [e]).
Proof. intros Hw. unfold perform. by rewrite Hw. Qed.

Lemma found_and_visible_run w s h :
  never_fails w ->
  found_and_visible w s h
  = (Ok (shown w h s),
     h ++ Query s :: (if present w h s then [IsVisible s] else [])).
Proof.
  intros Hw. unfold found_and_visible, bind, query_selector, is_visible, shown.
  rewrite perform_ok by done.
  destruct (present w h s); cbn [andb]; [|done].
  rewrite perform_ok by done. by rewrite <- app_assoc.
Qed.

Lemma next_clicked_app h1 h2 :
  next_clicked (h1 ++ h2) = (next_clicked h1 + next_clicked h2)%nat.
Proof. unfold next_clicked. by rewrite List.filter_app, length_app. Qed.

Lemma next_turn_clicks w h :
  List.filter is_click (next_turn w h) = [Click SelNext]
  /\ next_clicked (next_turn w h) = 1%nat.
Proof. unfold next_turn, next_clicked. by destruct (present w h SelNext). Qed.

Lemma next_clicks_step w n h :
  never_fails w ->
  next_clicks w (S n) h
  = if shown w h SelNext then next_clicks w n (h ++ next_turn w h)
    else (Ok false,
          h ++ Query SelNext
            :: (if present w h SelNext then [IsVisible SelNext] else [])).
Proof.
  intros Hw. cbn [next_clicks]. unfold bind at 1.
  rewrite found_and_visible_run by done.
  destruct (shown w h SelNext); [|done].
  unfold bind. rewrite !perform_ok by done.
  f_equal. unfold next_turn. rewrite <- !app_assoc. cbn.
  by destruct (present w h SelNext).
Qed.

(** Next shown as long as fewer than [n] further clicks were made: the
    loop clicks it [n] times and reports success. *)
Lemma next_clicks_all w n h :
  never_fails w ->
  (forall h', (next_clicked h' < next_clicked h + n)%nat ->
              shown w h' SelNext = true) ->
  exists evs,
    next_clicks w n h = (Ok true, h ++ evs)
    /\ List.filter is_click evs = repeat (Click SelNext) n.
Proof.
  intros Hw. revert h. induction n as [|n IH]; intros h Hshown.
  - exists []. by rewrite app_nil_r.
  - rewrite next_clicks_step by done. rewrite Hshown by lia.
    destruct (next_turn_clicks w h) as [Hf Hc].
    destruct (IH (h ++ next_turn w h)) as (evs & Hrun & Hevs).
    { intros h' Hh'. apply Hshown. rewrite next_clicked_app, Hc in Hh'. lia. }
    exists (next_turn w h ++ evs). rewrite Hrun. split.
    + by rewrite <- app_assoc.
    + by rewrite List.filter_app, Hf, Hevs.
Qed.

(** Next shown for [k] clicks and gone after them, [k] being short of
    the [n] clicks wanted: the loop clicks [k] times and gives up. *)
Lemma next_clicks_stop w n k h :
  never_fails w -> (k < n)%nat ->
  (forall h', (next_clicked h' < next_clicked h + k)%nat ->
              shown w h' SelNext = true) ->
  (forall h', next_clicked h' = (next_clicked h + k)%nat ->
              shown w h' SelNext = false) ->
  exists evs,
    next_clicks w n h = (Ok false, h ++ evs)
    /\ List.filter is_click evs = repeat (Click SelNext) k.
Proof.
  intros Hw. revert k h. induction n as [|n IH]; intros k h Hk Hyes Hno;
    [lia|].
  rewrite next_clicks_step by done. destruct k as [|k].
  - rewrite Hno by lia. eexists. split; [done|].
    by destruct (present w h SelNext).
  - rewrite Hyes by lia.
    destruct (next_turn_clicks w h) as [Hf Hc].
    destruct (IH k (h ++ next_turn w h)) as (evs & Hrun & Hevs).
    + lia.
    + intros h' Hh'. apply Hyes. rewrite next_clicked_app, Hc in Hh'. lia.
    + intros h' Hh'. apply Hno. rewrite next_clicked_app, Hc in Hh'. lia.
    + exists (next_turn w h ++ evs). rewrite Hrun. split.
      * by rewrite <- app_assoc.
      * by rewrite List.filter_app, Hf, Hevs.
Qed.

(** With neither a page button nor the ellipsis shown, the navigation
    is the loop over Next, after two looks that click nothing. *)
Lemma navigate_falls_to_next w target_page h :
  never_fails w -> only_next w target_page -> target_page <> 1 ->
  exists pre,
    List.filter is_click pre = [] /\ next_clicked pre = 0%nat
    /\ _navigate_to_search_page w target_page h
       = next_clicks w (Z.to_nat (target_page - 1)) (h ++ pre).
Proof.
  intros Hw Hon Hne. unfold _navigate_to_search_page.
  destruct (Z.eqb_spec target_page 1) as [|_]; [done|].
  unfold bind at 1. rewrite found_and_visible_run by done.
  destruct (Hon h) as [-> _].
  unfold bind at 1. rewrite found_and_visible_run by done.
  match goal with |- context [shown w ?h' SelEllipsis] =>
    destruct (Hon h') as [_ ->] end.
  unfold bind at 1, ret at 1.
  eexists. split; [|split]; [| |by rewrite <- app_assoc].
  - by destruct (present w h (SelPageButton target_page)),
         (present w _ SelEllipsis).
  - by destruct (present w h (SelPageButton target_page)),
         (present w _ SelEllipsis).
Qed.

(** C8: asked for page 1 the navigation succeeds and touches nothing.
    On a page that shows neither a button for the target page nor the
    ellipsis, and where no call raises: if Next is shown as long as it
    has been clicked fewer than [target_page - 1] times, the navigation
    clicks Next [target_page - 1] times (twice for page 3), clicks
    nothing else and succeeds; if Next is gone after [k] clicks, [k]
    short of that, it clicks Next [k] times and reports failure. *)
Theorem navigate_to_search_page_by_next (w : world) :
  (forall h, _navigate_to_search_page w 1 h = (Ok true, h))
  /\ (forall target_page h,
        never_fails w -> only_next w target_page -> next_clicked h = 0%nat ->
        (forall h', (next_clicked h' < Z.to_nat (target_page - 1))%nat ->
                    shown w h' SelNext = true) ->
        exists evs,
          _navigate_to_search_page w target_page h = (Ok true, h ++ evs)
          /\ List.filter is_click evs
             = repeat (Click SelNext) (Z.to_nat (target_page - 1)))
  /\ (forall target_page k h,
        never_fails w -> only_next w target_page -> next_clicked h = 0%nat ->
        (k < Z.to_nat (target_page - 1))%nat ->
        (forall h', (next_clicked h' < k)%nat -> shown w h' SelNext = true) ->
        (forall h', next_clicked h' = k -> shown w h' SelNext = false) ->
        exists evs,
          _navigate_to_search_page w target_page h = (Ok false, h ++ evs)
          /\ List.filter is_click evs = repeat (Click SelNext) k).
Proof.
  split; [done|]. split.
  - intros target_page h Hw Hon Hh Hshown.
    destruct (Z.eq_dec target_page 1) as [->|Hne].
    { exists []. by rewrite app_nil_r. }
    destruct (navigate_falls_to_next w target_page h Hw Hon Hne)
      as (pre & Hpre & Hpre0 & ->).
    destruct (next_clicks_all w (Z.to_nat (target_page - 1)) (h ++ pre) Hw)
      as (evs & Hrun & Hevs).
    { intros h' Hh'. apply Hshown.
      rewrite next_clicked_app, Hh, Hpre0 in Hh'. lia. }
    exists (pre ++ evs). rewrite Hrun, <- app_assoc. split; [done|].
    by rewrite List.filter_app, Hpre, Hevs.
  - intros target_page k h Hw Hon Hh Hk Hyes Hno.
    assert (target_page <> 1) as Hne by lia.
    destruct (navigate_falls_to_next w target_page h Hw Hon Hne)
      as (pre & Hpre & Hpre0 & ->).
    destruct (next_clicks_stop w (Z.to_nat (target_page - 1)) k (h ++ pre)
                Hw Hk) as (evs & Hrun & Hevs).
    { intros h' Hh'. apply Hyes.
      rewrite next_clicked_app, Hh, Hpre0 in Hh'. lia. }
    { intros h' Hh'. apply Hno.
      rewrite next_clicked_app, Hh, Hpre0 in Hh'. lia. }
    exists (pre ++ evs). rewrite Hrun, <- app_assoc. split; [done|].
    by rewrite List.filter_app, Hpre, Hevs.
Qed.

Lemma next_only_world_quiet k : never_fails (next_only_world k).
Proof. by intros h e. Qed.

Lemma next_only_world_only_next k p : only_next (next_only_world k) p.
Proof. by intros h. Qed.

Lemma next_only_world_shown k h :
  shown (next_only_world k) h SelNext = bool_decide (next_clicked h < k)%nat.
Proof. unfold shown. cbn. by rewrite andb_true_r. Qed.

Lemma navigate_to_search_page_by_next_witness :
  _navigate_to_search_page (next_only_world 2) 1 [] = (Ok true, [])
  /\ (exists evs,
        _navigate_to_search_page (next_only_world 2) 3 [] = (Ok true, evs)
        /\ List.filter is_click evs = [Click SelNext; Click SelNext])
  /\ (exists evs,
        _navigate_to_search_page (next_only_world 1) 3 [] = (Ok false, evs)
        /\ List.filter is_click evs = [Click SelNext]).
Proof.
  split; [|split].
  - apply (proj1 (navigate_to_search_page_by_next (next_only_world 2))).
  - apply (proj1 (proj2 (navigate_to_search_page_by_next
                           (next_only_world 2))) 3 []).
    + apply next_only_world_quiet.
    + apply next_only_world_only_next.
    + reflexivity.
    + intros h' Hh'. rewrite next_only_world_shown.
      apply bool_decide_eq_true. exact Hh'.
  - apply (proj2 (proj2 (navigate_to_search_page_by_next
                           (next_only_world 1))) 3 1%nat []).
    + apply next_only_world_quiet.
    + apply next_only_world_only_next.
    + reflexivity.
    + vm_compute. lia.
    + intros h' Hh'. rewrite next_only_world_shown.
      apply bool_decide_eq_true. exact Hh'.
    + intros h' Hh'. rewrite next_only_world_shown.
      apply bool_decide_eq_false. lia.
Defined.

(** The run for page 3 on a page that shows Next twice, event by
    event. *)
Lemma navigate_to_page_3_events :
  _navigate_to_search_page (next_only_world 2) 3 []
  = (Ok true,
     [ Query (SelPageButton 3); Query SelEllipsis;
       Query SelNext; IsVisible SelNext; Click SelNext; WaitFor 800;
       Query SelNext; IsVisible SelNext; Click SelNext; WaitFor 800 ]).
Proof. vm_compute. reflexivity. Qed.

End SessionTheorems.

(** ** Merging the two channel listings *)

Module ChannelTheorems.
Import Text Channels.

Lemma fold_add_original original all final :
  let st := fold_left add_original original (all, final) in
  st.2 = final ++ original
  /\ (forall i, is_Some (st.1 !! i)
                <-> is_Some (all !! i) \/ i ∈ map cd_id original).
Proof.
  revert all final.
  induction original as [|ch original IH]; intros all final; cbn zeta.
  - cbn. rewrite app_nil_r. split; [done|]. intros i.
    split; [by left|]. intros [H|H]; [done|]. by apply elem_of_nil in H.
  - cbn [fold_left]. unfold add_original at 2. cbn [fst snd].
    destruct (IH (<[cd_id ch:=ch]> all) (final ++ [ch])) as [Hf Hm].
    split.
    + by rewrite Hf, <- app_assoc.
    + intros i. rewrite Hm. cbn [map]. rewrite elem_of_cons.
      destruct (decide (cd_id ch = i)) as [<-|Hne].
      * rewrite lookup_insert_eq. split; [auto|]. intros _. left. eauto.
      * rewrite lookup_insert_ne by done. split; [tauto|].
        intros [H|[H|H]]; auto. congruence.
Qed.

Lemma fold_add_browse all browse final :
  fold_left (add_browse all) browse final
  = final ++ List.filter
               (fun ch => negb (bool_decide (is_Some (all !! cd_id ch))))
               browse.
Proof.
  revert final. induction browse as [|ch browse IH]; intros final.
  - cbn. by rewrite app_nil_r.
  - cbn [fold_left List.filter]. rewrite IH. unfold add_browse.
    destruct (bool_decide (is_Some (all !! cd_id ch))); cbn [negb]; [done|].
    by rewrite <- app_assoc.
Qed.

Lemma filter_ext_in' {A} (f g : A -> bool) (l : list A) :
  (forall x, f x = g x) -> List.filter f l = List.filter g l.
Proof.
  intros H. induction l as [|x l IH]; [done|]. cbn. by rewrite H, IH.
Qed.

(** The merge is the direct set followed by the browse entries it does
    not know. *)
Lemma merge_channels_eq direct browse :
  merge_channels direct browse = direct ++ browse_only direct browse.
Proof.
  unfold merge_channels.
  pose proof (fold_add_original direct ∅ []) as [Hf Hm].
  destruct (fold_left add_original direct (∅, [])) as [all final].
  cbn [fst snd] in *. rewrite fold_add_browse, Hf. cbn [app]. f_equal.
  unfold browse_only. apply filter_ext_in'. intros ch. f_equal.
  apply bool_decide_ext. rewrite Hm, lookup_empty.
  split; [intros [[? ?]|?]; done | auto].
Qed.

Lemma filter_none {A} (f : A -> bool) (l : list A) :
  (forall x, x ∈ l -> f x = false) -> List.filter f l = [].
Proof.
  induction l as [|x l IH]; intros H; [done|]. cbn.
  rewrite (H x) by (by left). apply IH. intros y Hy. apply H. by right.
Qed.

Lemma filter_all {A} (f : A -> bool) (l : list A) :
  (forall x, x ∈ l -> f x = true) -> List.filter f l = l.
Proof.
  induction l as [|x l IH]; intros H; [done|]. cbn.
  rewrite (H x) by (by left). f_equal. apply IH. intros y Hy. apply H.
  by right.
Qed.

Lemma elem_of_browse_only direct browse ch :
  ch ∈ browse_only direct browse
  <-> ch ∈ browse /\ cd_id ch ∉ map cd_id direct.
Proof.
  unfold browse_only. rewrite !list_elem_of_In, filter_In.
  by rewrite negb_true_iff, bool_decide_eq_false, list_elem_of_In.
Qed.

(** Every browse entry has its identifier in the merge already. *)
Lemma browse_known direct browse ch :
  ch ∈ browse -> cd_id ch ∈ map cd_id (direct ++ browse_only direct browse).
Proof.
  intros Hch. rewrite map_app, elem_of_app.
  destruct (decide (cd_id ch ∈ map cd_id direct)) as [Hin|Hout]; [by left|].
  right. apply list_elem_of_fmap_2. by apply elem_of_browse_only.
Qed.

Lemma browse_only_again direct browse :
  browse_only (direct ++ browse_only direct browse) browse = [].
Proof.
  unfold browse_only at 1. apply filter_none. intros ch Hch.
  apply negb_false_iff, bool_decide_eq_true. by apply browse_known.
Qed.

Lemma browse_only_of_merge direct browse :
  browse_only direct (direct ++ browse_only direct browse)
  = browse_only direct browse.
Proof.
  unfold browse_only at 1. rewrite List.filter_app.
  rewrite filter_none, filter_all; [done| |].
  - intros ch [_ Hout]%elem_of_browse_only.
    by apply negb_true_iff, bool_decide_eq_false.
  - intros ch Hch. apply negb_false_iff, bool_decide_eq_true.
    by apply list_elem_of_fmap_2.
Qed.

Lemma with_id_browse_only i direct browse :
  i ∈ map cd_id direct -> with_id i (browse_only direct browse) = [].
Proof.
  intros Hi. unfold with_id. apply filter_none.
  intros ch [_ Hout]%elem_of_browse_only.
  destruct (String.eqb_spec (cd_id ch) i) as [E|]; [|done].
  by rewrite E in Hout.
Qed.

(** C4: the merge is the direct entries in their order followed by
    exactly the browse entries whose identifier the direct set does not
    have; merging its result again with the same browse set, or the
    same direct set with its result, changes nothing; and for an
    identifier of the direct set the merge holds the direct entries and
    no browse entry. *)
Theorem merge_channels_idempotent (direct browse : list channel_data) :
  merge_channels direct browse = direct ++ browse_only direct browse
  /\ merge_channels (merge_channels direct browse) browse
     = merge_channels direct browse
  /\ merge_channels direct (merge_channels direct browse)
     = merge_channels direct browse
  /\ (forall i, i ∈ map cd_id direct ->
                with_id i (merge_channels direct browse) = with_id i direct).
Proof.
  split; [apply merge_channels_eq|]. split; [|split].
  - rewrite (merge_channels_eq direct browse).
    rewrite merge_channels_eq, browse_only_again. by rewrite app_nil_r.
  - rewrite (merge_channels_eq direct browse).
    by rewrite merge_channels_eq, browse_only_of_merge.
  - intros i Hi. rewrite merge_channels_eq. unfold with_id at 1.
    rewrite List.filter_app. fold (with_id i direct).
    fold (with_id i (browse_only direct browse)).
    by rewrite with_id_browse_only, app_nil_r.
Qed.

Lemma merge_channels_idempotent_witness :
  merge_channels sample_direct sample_browse
  = sample_direct ++ skipn 1 sample_browse
  /\ "2" ∈ map cd_id sample_direct
  /\ with_id "2" (merge_channels sample_direct sample_browse)
     = firstn 1 (skipn 1 sample_direct).
Proof.
  destruct (merge_channels_idempotent sample_direct sample_browse)
    as (H1 & _ & _ & H4).
  assert ("2" ∈ map cd_id sample_direct) as Hin.
  { cbn. apply elem_of_cons. right. apply elem_of_cons. by left. }
  split; [|split].
  - rewrite H1. vm_compute. reflexivity.
  - exact Hin.
  - rewrite (H4 "2" Hin). vm_compute. reflexivity.
Defined.

(** *** Channel names *)

Lemma app_not_empty (s t : string) : s <> EmptyString -> s +:+ t <> EmptyString.
Proof. by destruct s. Qed.

Lemma truthy_not_empty (s : string) : truthy s = true -> s <> EmptyString.
Proof. by destruct s. Qed.

Lemma link_step_named guild_id st l :
  Forall named st.1 -> Forall named (link_step guild_id st l).1.
Proof.
  destruct st as [channels seenIds]. cbn [fst]. intros Hn.
  unfold link_step.
  destruct (match_channel _ (link_href l)) as [channelId|]; [|done].
  destruct (bool_decide (channelId ∈ seenIds)); [done|]. cbn [fst].
  apply Forall_app. split; [done|]. constructor; [|constructor].
  unfold named. cbn [cd_name].
  destruct (truthy (clean_name (link_text l))) eqn:E.
  - by apply truthy_not_empty.
  - by apply app_not_empty.
Qed.

Lemma extract_channels_named guild_id links :
  Forall named (extract_channels_js guild_id links).
Proof.
  unfold extract_channels_js.
  assert (forall st, Forall named st.1 ->
            Forall named (fold_left (link_step guild_id) links st).1) as H.
  { induction links as [|l links IH]; intros st Hst; [done|].
    cbn [fold_left]. apply IH. by apply link_step_named. }
  apply H. constructor.
Qed.

Lemma merge_channels_named direct browse :
  Forall named direct -> Forall named browse ->
  Forall named (merge_channels direct browse).
Proof.
  intros Hd Hb. rewrite merge_channels_eq. apply Forall_app. split; [done|].
  apply Forall_forall. intros ch [Hch _]%elem_of_browse_only.
  by eapply Forall_forall in Hb.
Qed.

(** C10: no channel returned by [get_guild_channels] has an empty name;
    a link whose cleaned text is empty gets the name made of [channel-]
    and of its identifier. *)
Theorem channel_names_not_empty (guild_id : string) :
  (forall direct browse,
     Forall (fun c => ch_name c <> EmptyString)
            (get_guild_channels guild_id direct browse))
  /\ (forall channels seenIds l channelId,
        match_channel ("/channels/" +:+ guild_id +:+ "/") (link_href l)
        = Some channelId ->
        channelId ∉ seenIds ->
        clean_name (link_text l) = EmptyString ->
        (link_step guild_id (channels, seenIds) l).1
        = channels ++ [ {| cd_id := channelId;
                           cd_name := "channel-" +:+ channelId;
                           cd_href := link_href l |} ]).
Proof.
  split.
  - intros direct browse. unfold get_guild_channels.
    apply Forall_fmap. 
    assert (Forall named
              (merge_channels (extract_channels_js guild_id direct)
                 match browse with
                 | Some links => extract_channels_js guild_id links
                 | None => []
                 end)) as H.
    { apply merge_channels_named; [apply extract_channels_named|].
      destruct browse; [apply extract_channels_named|constructor]. }
    eapply Forall_impl; [exact H|]. by intros ch Hch.
  - intros channels seenIds l channelId Hm Hnew Hclean.
    unfold link_step. rewrite Hm.
    rewrite (bool_decide_eq_false_2 _ Hnew). by rewrite Hclean.
Qed.

Lemma channel_names_not_empty_witness :
  get_guild_channels "123" [blank_link] None
  = [ {| ch_id := "456"; ch_name := "channel-456"; ch_type := 0;
         ch_guild_id := Some "123" |} ]
  /\ (link_step "123" ([], ∅) blank_link).1
     = [ {| cd_id := "456"; cd_name := "channel-456";
            cd_href := link_href blank_link |} ]
  /\ Forall (fun c => ch_name c <> EmptyString)
            (get_guild_channels "123" [blank_link] (Some [blank_link])).
Proof.
  split; [vm_compute; reflexivity|]. split.
  - apply (proj2 (channel_names_not_empty "123") [] ∅ blank_link "456").
    + vm_compute. reflexivity.
    + apply not_elem_of_empty.
    + vm_compute. reflexivity.
  - apply (proj1 (channel_names_not_empty "123")).
Defined.

End ChannelTheorems.

(** ** The guild list *)

Module GuildTheorems.
Import Text Guilds.

Lemma existsb_id_false (guilds : list (string * string)) guildId :
  existsb (fun g => String.eqb g.1 guildId) guilds = false ->
  guildId ∉ map fst guilds.
Proof.
  induction guilds as [|g guilds IH]; cbn [existsb map].
  - intros _. apply not_elem_of_nil.
  - intros [Hg Hrest]%orb_false_elim. rewrite not_elem_of_cons.
    split; [|by apply IH].
    intros ->. by rewrite String.eqb_refl in Hg.
Qed.

(** One tree item keeps the identifiers distinct and numeric. *)
Lemma guild_step_inv guilds item :
  NoDup (map fst guilds) -> Forall numeric guilds ->
  NoDup (map fst (guild_step guilds item))
  /\ Forall numeric (guild_step guilds item).
Proof.
  intros Hnd Hnum. unfold guild_step.
  destruct (item_list_item_id item) as [listItemId|]; [|done].
  destruct (String.prefix "guildsnav___" listItemId
            && negb (String.eqb listItemId "guildsnav___home")); [|done].
  destruct (all_digits (js_remove_first "guildsnav___" listItemId)) eqn:Hd;
    [|done].
  destruct (truthy_o (guild_name item)); cbn [andb]; [|done].
  destruct (existsb _ guilds) eqn:Hex; cbn [negb]; [done|].
  apply existsb_id_false in Hex. split.
  - rewrite map_app. cbn [map fst]. apply NoDup_app. split; [done|].
    split; [|apply NoDup_singleton].
    intros x Hx Hx'. apply list_elem_of_singleton in Hx'. by subst x.
  - apply Forall_app. split; [done|]. by repeat constructor.
Qed.

Lemma extract_guilds_inv treeItems :
  NoDup (map fst (extract_guilds_js treeItems))
  /\ Forall numeric (extract_guilds_js treeItems).
Proof.
  unfold extract_guilds_js.
  assert (forall guilds, NoDup (map fst guilds) -> Forall numeric guilds ->
            NoDup (map fst (fold_left guild_step treeItems guilds))
            /\ Forall numeric (fold_left guild_step treeItems guilds)) as H.
  { induction treeItems as [|item items IH]; intros guilds Hnd Hnum; [done|].
    cbn [fold_left]. destruct (guild_step_inv guilds item Hnd Hnum).
    by apply IH. }
  apply H; constructor.
Qed.

Lemma guild_step_home guilds item :
  is_home item = true -> guild_step guilds item = guilds.
Proof.
  unfold is_home, guild_step.
  destruct (item_list_item_id item) as [i|]; [|done].
  intros ->. by rewrite andb_false_r.
Qed.

Lemma extract_guilds_without_home treeItems :
  extract_guilds_js (List.filter (fun i => negb (is_home i)) treeItems)
  = extract_guilds_js treeItems.
Proof.
  unfold extract_guilds_js. generalize (@nil (string * string)).
  induction treeItems as [|item items IH]; intros guilds; [done|].
  cbn [List.filter fold_left].
  destruct (is_home item) eqn:Hh; cbn [negb].
  - by rewrite guild_step_home.
  - cbn [fold_left]. apply IH.
Qed.

Lemma home_not_numeric : all_digits "home" = false.
Proof. reflexivity. Qed.

(** C5: whatever tree items the page shows, the guilds returned have
    pairwise distinct identifiers, each identifier is a non-empty run of
    digits and none is that of the home entry; the home entry adds
    nothing to the result. *)
Theorem guilds_distinct_numeric_no_home (treeItems : list tree_item) :
  NoDup (map g_id (get_guilds treeItems))
  /\ Forall (fun g => all_digits (g_id g) = true /\ g_id g <> "home")
            (get_guilds treeItems)
  /\ get_guilds (List.filter (fun i => negb (is_home i)) treeItems)
     = get_guilds treeItems.
Proof.
  destruct (extract_guilds_inv treeItems) as [Hnd Hnum].
  unfold get_guilds. split; [|split].
  - rewrite <- list_fmap_compose.
    erewrite list_fmap_ext; [exact Hnd|]. by intros i [a b].
  - apply Forall_fmap. eapply Forall_impl; [exact Hnum|].
    intros [a b] Hab. unfold numeric in Hab. cbn in *. split; [done|].
    intros ->. by rewrite home_not_numeric in Hab.
  - by rewrite extract_guilds_without_home.
Qed.

(** The rail of the example: the guild listed twice comes out once,
    under the name found first; home, the folder and the entry without
    identifier are left out. *)
Lemma get_guilds_sample_rail :
  get_guilds sample_rail
  = [ {| g_id := "123456789012345"; g_name := "My Server"; g_icon := None |};
      {| g_id := "42"; g_name := "Lounge"; g_icon := None |} ].
Proof. vm_compute. reflexivity. Qed.

End GuildTheorems.

(** ** Reading a channel *)

Module MessageTheorems.
Import Messages.

Lemma slice_Forall {A} (P : A -> Prop) (l : list A) (a b : Z) :
  Forall P l -> Forall P (PyList.slice l a b).
Proof. intros H. unfold PyList.slice. by apply Forall_take, Forall_drop. Qed.

Lemma slice_to_take {A} (l : list A) (n : Z) :
  0 <= n -> PyList.slice_to l n = take (Z.to_nat n) l.
Proof.
  intros Hn. unfold PyList.slice_to, PyList.slice, PyList.clamp, PyList.len.
  change (0 <? 0) with false. cbv iota.
  destruct (Z.ltb_spec n 0) as [|_]; [lia|].
  rewrite (Z.min_l 0) by lia. rewrite Z.sub_0_r.
  change (Z.to_nat 0) with O. rewrite drop_0.
  destruct (Z.le_ge_cases n (Z.of_nat (length l))) as [Hle|Hge].
  - by rewrite Z.min_l by lia.
  - rewrite Z.min_r by lia. rewrite Nat2Z.id.
    rewrite !take_ge by lia. done.
Qed.

(** *** The sort *)

Lemma insert_desc_Forall (P : DiscordMessage -> Prop) m l :
  P m -> Forall P l -> Forall P (insert_desc m l).
Proof.
  intros Hm Hl. induction Hl as [|x l Hx Hl IH]; cbn [insert_desc].
  - by repeat constructor.
  - destruct (_ <? _); by repeat constructor.
Qed.

Lemma sorted_desc_Forall (P : DiscordMessage -> Prop) l :
  Forall P l -> Forall P (sorted_desc l).
Proof.
  induction 1 as [|m l Hm Hl IH]; cbn [sorted_desc]; [constructor|].
  by apply insert_desc_Forall.
Qed.

Lemma insert_desc_length m l : length (insert_desc m l) = S (length l).
Proof.
  induction l as [|x l IH]; cbn [insert_desc]; [done|].
  destruct (_ <? _); cbn [length]; by rewrite ?IH.
Qed.

Lemma sorted_desc_length l : length (sorted_desc l) = length l.
Proof.
  induction l as [|m l IH]; [done|]. cbn [sorted_desc].
  by rewrite insert_desc_length, IH.
Qed.

Lemma insert_desc_sorted m l :
  StronglySorted later_first l -> StronglySorted later_first (insert_desc m l).
Proof.
  induction 1 as [|x l Hl IH Hx]; cbn [insert_desc].
  - by repeat constructor.
  - destruct (Z.ltb_spec (instant (m_timestamp m))
                         (instant (m_timestamp x))) as [Hlt|Hge].
    + constructor; [done|]. apply insert_desc_Forall; [|done].
      unfold later_first. lia.
    + constructor; [by constructor|]. constructor.
      * unfold later_first. lia.
      * eapply Forall_impl; [exact Hx|]. unfold later_first.
        intros y Hy. lia.
Qed.

Lemma sorted_desc_sorted l : StronglySorted later_first (sorted_desc l).
Proof.
  induction l as [|m l IH]; cbn [sorted_desc]; [constructor|].
  by apply insert_desc_sorted.
Qed.

Lemma StronglySorted_take {A} (R : relation A) n (l : list A) :
  StronglySorted R l -> StronglySorted R (take n l).
Proof.
  intros H. rewrite <- (take_drop n l) in H.
  by apply StronglySorted_app_1_l in H.
Qed.

Lemma elem_of_rev {A} (x : A) (l : list A) : x ∈ rev l -> x ∈ l.
Proof. rewrite !list_elem_of_In. apply in_rev. Qed.

(** *** What the two loops collect *)

Section Collected.
Variable channel_id : string.
Variable limit : Z.
Variables before after : option string.
Variable elements_at : nat -> list message_node.

Lemma walk_Forall (P : DiscordMessage -> Prop) k elements st :
  collects channel_id before after elements_at P ->
  (forall e, e ∈ elements -> e ∈ elements_at k) ->
  Forall P st.1 ->
  Forall P (walk channel_id limit before after elements st).1.
Proof.
  intros HP. revert st.
  induction elements as [|element rest IH]; intros st Hsub Hst; [done|].
  assert (forall e, e ∈ rest -> e ∈ elements_at k) as Hrest.
  { intros e He. apply Hsub. by right. }
  cbn [walk]. destruct (limit <=? PyList.len st.1); [done|].
  destruct (_extract_message_data element channel_id _) as [message|] eqn:Hx;
    [|by apply IH].
  destruct (bool_decide (m_id message ∈ st.2)); [by apply IH|].
  destruct (at_or_after before (m_id message)) eqn:Hb; [by apply IH|].
  destruct (at_or_before after (m_id message)) eqn:Ha; [by apply IH|].
  apply IH; [done|]. cbn [fst]. apply Forall_app. split; [done|].
  constructor; [|constructor].
  eapply (HP k element); [apply Hsub; by left|exact Hx|by split].
Qed.

Lemma attempts_Forall (P : DiscordMessage -> Prop) left attempt st :
  collects channel_id before after elements_at P -> Forall P st.1 ->
  Forall P
    (attempts channel_id limit before after elements_at left attempt st).1.
Proof.
  intros HP. revert attempt st.
  induction left as [|left IH]; intros attempt st Hst; [done|].
  cbn [attempts].
  destruct (negb (PyList.truthy (elements_at attempt))); [by apply IH|].
  rewrite orb_false_r.
  pose proof (walk_Forall P attempt (rev (elements_at attempt)) st HP) as Hw.
  destruct (limit <=? PyList.len _).
  - apply Hw; [|done]. intros e He. by apply elem_of_rev.
  - apply IH. apply Hw; [|done]. intros e He. by apply elem_of_rev.
Qed.

End Collected.

Lemma extract_aware element channel_id collected m :
  match node_time element with GoodTime t => aware t = true | _ => True end ->
  _extract_message_data element channel_id collected = Some m ->
  aware (m_timestamp m) = true.
Proof.
  unfold _extract_message_data. intros Ht.
  destruct (node_raises element); [done|].
  destruct (node_time element) as [| |t]; [|done|];
    destruct (_ && _); [done| |done|]; by intros [= <-].
Qed.

Lemma all_aware_not_mixed l :
  Forall (fun m => aware (m_timestamp m) = true) l -> mixed l = false.
Proof.
  intros H. unfold mixed. apply andb_false_iff. right.
  induction H as [|m l Hm Hl IH]; [done|]. cbn [existsb].
  by rewrite Hm, IH.
Qed.

(** What the call returns is a slice of the sorted collection. *)
Lemma get_channel_messages_Ok p server_id channel_id limit before after
    messages :
  get_channel_messages p server_id channel_id limit before after
  = Ok messages ->
  messages
  = PyList.slice_to
      (sorted_desc
         (attempts channel_id limit before after (elements_at p)
                   10 0 ([], ∅)).1) limit.
Proof.
  unfold get_channel_messages.
  destruct (negb (login_ok p)); [done|].
  destruct (negb (list_appears p)); [done|].
  destruct (attempts _ _ _ _ _ _ _ _) as [collected seen].
  unfold sorted_by_timestamp. destruct (mixed collected); [done|].
  by intros [= <-].
Qed.

(** Once the channel is on the page and as long as its timestamps have
    their offsets, the call returns. *)
Lemma get_channel_messages_returns p server_id channel_id limit
    before after :
  login_ok p = true -> list_appears p = true -> offsets_given p ->
  exists messages,
    get_channel_messages p server_id channel_id limit before after
    = Ok messages.
Proof.
  intros Hl Ha Ho. unfold get_channel_messages. rewrite Hl, Ha. cbn [negb].
  pose proof (attempts_Forall channel_id limit before after (elements_at p)
                (fun m => aware (m_timestamp m) = true) 10 0 ([], ∅)) as H.
  destruct (attempts _ _ _ _ _ _ _ _) as [collected seen]. cbn [fst] in H.
  unfold sorted_by_timestamp. rewrite all_aware_not_mixed; [by eexists|].
  apply H; [|constructor].
  intros k element n m Hin Hx _. eapply extract_aware; [|exact Hx].
  by apply (Ho k).
Qed.

Lemma within_before B after m :
  B <> EmptyString -> within (Some B) after m -> Text.lt (m_id m) B = true.
Proof.
  intros HB [H _]. unfold at_or_after in H.
  destruct B; [done|]. cbn [Text.truthy andb] in H.
  unfold Text.ge in H. unfold Text.lt.
  by destruct (String.compare (m_id m) _).
Qed.

Lemma within_after before A m :
  A <> EmptyString -> within before (Some A) m -> Text.gt (m_id m) A = true.
Proof.
  intros HA [_ H]. unfold at_or_before in H.
  destruct A; [done|]. cbn [Text.truthy andb] in H.
  unfold Text.le in H. unfold Text.gt.
  by destruct (String.compare (m_id m) _).
Qed.

(** C2: in a list returned by [get_channel_messages], with a non-empty
    [before] bound every message has an identifier strictly below the
    bound in the order of strings, and with a non-empty [after] bound
    strictly above it; and the call does return a list once the channel
    is on the page with timestamps that have their offsets. *)
Theorem messages_respect_bounds (p : channel_page)
    (server_id channel_id : string) (limit : Z) (before after : option string) :
  (forall messages,
     get_channel_messages p server_id channel_id limit before after
     = Ok messages ->
     (forall B, before = Some B -> B <> EmptyString ->
                Forall (fun m => Text.lt (m_id m) B = true) messages)
     /\ (forall A, after = Some A -> A <> EmptyString ->
                   Forall (fun m => Text.gt (m_id m) A = true) messages))
  /\ (login_ok p = true -> list_appears p = true -> offsets_given p ->
      exists messages,
        get_channel_messages p server_id channel_id limit before after
        = Ok messages).
Proof.
  split; [|apply get_channel_messages_returns].
  intros messages ->%get_channel_messages_Ok.
  assert (Forall (within before after)
            (PyList.slice_to
               (sorted_desc
                  (attempts channel_id limit before after (elements_at p)
                            10 0 ([], ∅)).1) limit)) as H.
  { apply slice_Forall, sorted_desc_Forall.
    apply attempts_Forall; [|constructor]. by intros k e n m _ _ Hm. }
  split.
  - intros B -> HB. eapply Forall_impl; [exact H|].
    intros m Hm. by eapply within_before.
  - intros A -> HA. eapply Forall_impl; [exact H|].
    intros m Hm. by eapply within_after.
Qed.

(** C3: for a limit from 1 to 1000, a list returned by
    [get_channel_messages] is sorted by timestamp, latest first, and has
    at most [limit] messages; and the call does return a list once the
    channel is on the page with timestamps that have their offsets. *)
Theorem messages_sorted_and_limited (p : channel_page)
    (server_id channel_id : string) (limit : Z) (before after : option string) :
  1 <= limit <= 1000 ->
  (forall messages,
     get_channel_messages p server_id channel_id limit before after
     = Ok messages ->
     StronglySorted later_first messages /\ PyList.len messages <= limit)
  /\ (login_ok p = true -> list_appears p = true -> offsets_given p ->
      exists messages,
        get_channel_messages p server_id channel_id limit before after
        = Ok messages).
Proof.
  intros Hlimit. split; [|apply get_channel_messages_returns].
  intros messages ->%get_channel_messages_Ok.
  rewrite slice_to_take by lia. split.
  - apply StronglySorted_take, sorted_desc_sorted.
  - unfold PyList.len. rewrite length_take. lia.
Qed.

Lemma sample_page_offsets : offsets_given sample_page.
Proof.
  intros k element Hin. destruct k as [|k]; cbn in Hin;
    repeat (apply elem_of_cons in Hin as [->|Hin]; [done|]);
    by apply elem_of_nil in Hin.
Qed.

Lemma messages_respect_bounds_witness :
  exists messages,
    get_channel_messages sample_page "7" "8" 10 (Some "400") (Some "100")
    = Ok messages
    /\ Forall (fun m => Text.lt (m_id m) "400" = true) messages
    /\ Forall (fun m => Text.gt (m_id m) "100" = true) messages.
Proof.
  destruct (messages_respect_bounds sample_page "7" "8" 10
              (Some "400") (Some "100")) as [Hall Hrun].
  destruct (Hrun eq_refl eq_refl sample_page_offsets) as [messages Hm].
  destruct (Hall messages Hm) as [Hbefore Hafter].
  exists messages. split; [exact Hm|]. split.
  - apply (Hbefore "400"); [reflexivity|discriminate].
  - apply (Hafter "100"); [reflexivity|discriminate].
Defined.

Lemma messages_sorted_and_limited_witness :
  exists messages,
    get_channel_messages sample_page "7" "8" 3 None None = Ok messages
    /\ StronglySorted later_first messages
    /\ PyList.len messages <= 3.
Proof.
  destruct (messages_sorted_and_limited sample_page "7" "8" 3 None None
              ltac:(lia)) as [Hall Hrun].
  destruct (Hrun eq_refl eq_refl sample_page_offsets) as [messages Hm].
  exists messages. split; [exact Hm|]. exact (Hall messages Hm).
Defined.

(** The sample channel, read with and without bounds: identifier and
    instant of the messages returned. *)
Lemma get_channel_messages_sample :
  (match get_channel_messages sample_page "7" "8" 3 None None with
   | Ok l => map (fun m => (m_id m, instant (m_timestamp m))) l
   | Raise _ => []
   end) = [("400", 40); ("300", 30); ("200", 20)]
  /\ (match get_channel_messages sample_page "7" "8" 10
              (Some "400") (Some "100") with
      | Ok l => map (fun m => (m_id m, instant (m_timestamp m))) l
      | Raise _ => []
      end) = [("300", 30); ("200", 20)].
Proof. split; vm_compute; reflexivity. Qed.

(** A timestamp without offset next to one with an offset: the sort
    raises, and so does the call. *)
Lemma get_channel_messages_mixed :
  get_channel_messages mixed_page "7" "8" 10 None None = Raise TypeError.
Proof. vm_compute. reflexivity. Qed.

End MessageTheorems.

(** ** Search results *)

Module SearchTheorems.
Import Search.

(** The key is the author, a colon and the first fifty characters. *)
Lemma message_key_eq m :
  message_key m
  = m_author_name m +:+ ":" +:+ Text.slice_to 50 (m_content m).
Proof.
  unfold message_key. by destruct (m_content m).
Qed.

Section Dedup.
Variable limit : Z.
Variable in_channels : option (list string).

Lemma collect_keyed results_data st :
  keyed st -> keyed (collect limit in_channels results_data st).
Proof.
  revert st. induction results_data as [|result rest IH]; intros st Hst;
    [done|].
  cbn [collect]. destruct (limit <=? PyList.len st.1); [done|].
  destruct (bool_decide_reflect (content_key result ∈ st.2)) as [Hin|Hout];
    [by apply IH|].
  apply IH. destruct Hst as [Hnd Hkeys]. split; cbn [fst snd].
  - rewrite map_app. apply NoDup_app. split; [done|].
    split; [|apply NoDup_singleton].
    intros k Hk Hk'. apply list_elem_of_singleton in Hk'. subst k.
    apply list_elem_of_fmap in Hk as (m & Hm & Hin).
    apply Hout. change (content_key result) with
      (message_key
         {| m_id := "search-" +:+ Text.of_Z (PyList.len st.1);
            m_content := hit_content result;
            m_author_name := hit_author result;
            m_author_id := "unknown";
            m_channel_id :=
              if Text.truthy (hit_channel result) then hit_channel result
              else first_channel in_channels;
            m_timestamp := utc (hit_now result);
            m_attachments := [] |}).
    rewrite Hm. by apply Hkeys.
  - intros m [Hm|Hm]%elem_of_app.
    + apply elem_of_union. right. by apply Hkeys.
    + apply list_elem_of_singleton in Hm. subst m.
      apply elem_of_union. left. by apply elem_of_singleton.
Qed.

Lemma scrolls_keyed results_at left scroll_attempts st :
  keyed st ->
  keyed (scrolls limit in_channels results_at left scroll_attempts st).
Proof.
  revert scroll_attempts st.
  induction left as [|left IH]; intros k st Hst; [done|].
  cbn [scrolls]. destruct (limit <=? PyList.len st.1); [done|].
  pose proof (collect_keyed (results_at k) st Hst) as Hc.
  destruct (limit <=? PyList.len _); [done|]. by apply IH.
Qed.

End Dedup.

Lemma slice_NoDup {A} (l : list A) a b : NoDup l -> NoDup (PyList.slice l a b).
Proof.
  intros H. unfold PyList.slice.
  apply (sublist_NoDup _ l); [exact H|].
  etrans; [apply sublist_take|apply sublist_drop].
Qed.

Lemma slice_fmap {A B} (f : A -> B) (l : list A) a b :
  map f (PyList.slice l a b) = PyList.slice (map f l) a b.
Proof.
  unfold PyList.slice, PyList.len.
  by rewrite length_map, <- fmap_drop, <- fmap_take.
Qed.

(** C6: the search returns a list in which no two entries have the same
    key of author and first fifty characters of content, whatever the
    runs of the script show and in whatever order: two entries with the
    same author and the same first fifty characters are one entry. *)
Theorem search_results_have_distinct_keys (p : search_page)
    (in_channels : option (list string)) (limit : Z) :
  search_login_ok p = true -> search_box_found p = true ->
  exists messages,
    search_messages p in_channels limit = Ok messages
    /\ NoDup (map message_key messages)
    /\ (forall i j a b,
          messages !! i = Some a -> messages !! j = Some b ->
          m_author_name a = m_author_name b ->
          Text.slice_to 50 (m_content a) = Text.slice_to 50 (m_content b) ->
          i = j).
Proof.
  intros Hl Hb.
  assert (exists messages,
            search_messages p in_channels limit = Ok messages
            /\ NoDup (map message_key messages)) as (messages & Hrun & Hnd).
  { unfold search_messages. rewrite Hl, Hb. cbn [negb].
    destruct (results_appear p); cbn [negb].
    - assert (keyed ([], ∅)) as H0.
      { split; [constructor|]. intros m Hm. by apply elem_of_nil in Hm. }
      pose proof (scrolls_keyed limit in_channels (results_at p)
                    max_scrolls 0 _ H0) as [Hnd _].
      destruct (scrolls _ _ _ _ _ _) as [messages seen]. cbn [fst] in Hnd.
      eexists. split; [done|]. unfold PyList.slice_to.
      rewrite slice_fmap. by apply slice_NoDup.
    - exists []. split; [done|]. constructor. }
  exists messages. split; [done|]. split; [done|].
  intros i j a b Hi Hj Ha Hc.
  eapply NoDup_lookup; [exact Hnd| |].
  - rewrite list_lookup_fmap, Hi. reflexivity.
  - rewrite list_lookup_fmap, Hj. cbn. f_equal.
    by rewrite !message_key_eq, Ha, Hc.
Qed.

Lemma search_results_have_distinct_keys_witness :
  exists messages,
    search_messages sample_search None 25 = Ok messages
    /\ NoDup (map message_key messages)
    /\ (forall i j a b,
          messages !! i = Some a -> messages !! j = Some b ->
          m_author_name a = m_author_name b ->
          Text.slice_to 50 (m_content a) = Text.slice_to 50 (m_content b) ->
          i = j).
Proof.
  apply (search_results_have_distinct_keys sample_search None 25);
    reflexivity.
Defined.

(** The sample search: of the two hits that agree on author and first
    fifty characters, the one met first is returned, in either order of
    the runs. *)
Lemma search_messages_sample :
  (match search_messages sample_search None 25 with
   | Ok l => map (fun m => (m_id m, m_author_name m, m_content m)) l
   | Raise _ => []
   end) = [("search-0", "ann", long_a); ("search-1", "bob", long_a)].
Proof. vm_compute. reflexivity. Qed.

(** *** The window around a hit *)

Lemma slice_in_range {A} (l : list A) (a b : Z) :
  0 <= a <= b -> b <= PyList.len l ->
  PyList.slice l a b = take (Z.to_nat (b - a)) (drop (Z.to_nat a) l).
Proof.
  intros Hab Hb. unfold PyList.slice, PyList.clamp.
  destruct (Z.ltb_spec a 0) as [|_]; [lia|].
  destruct (Z.ltb_spec b 0) as [|_]; [lia|].
  by rewrite !Z.min_l by lia.
Qed.

Lemma index_in_range {A} (l : list A) (i : Z) :
  0 <= i < PyList.len l ->
  exists x, PyList.index l i = Ok x /\ l !! Z.to_nat i = Some x.
Proof.
  intros Hi. unfold PyList.index.
  destruct (Z.ltb_spec i 0) as [|_]; [lia|].
  destruct (Z.ltb_spec i 0) as [|_]; [lia|].
  destruct (Z.leb_spec (PyList.len l) i) as [|_]; [lia|]. cbn [orb].
  destruct (lookup_lt_is_Some_2 l (Z.to_nat i)) as [x Hx].
  { unfold PyList.len in Hi. lia. }
  exists x. by rewrite Hx.
Qed.

(** The loop answers a position it went through, or what it was given
    as the default. *)
Lemma find_target_range target_message_id messages_data i target_idx :
  find_target target_message_id messages_data i target_idx = target_idx
  \/ i <= find_target target_message_id messages_data i target_idx
        < i + PyList.len messages_data.
Proof.
  revert i. induction messages_data as [|msg rest IH]; intros i; [by left|].
  cbn [find_target]. unfold PyList.len in *. cbn [length].
  destruct (_ && _); [right; lia|].
  destruct (IH (i + 1)) as [H|H]; [by left|right; lia].
Qed.

(** For a view that shows something, the target found is a position of
    the list. *)
Lemma target_index_in_range target_message_id messages_data :
  messages_data <> [] ->
  0 <= target_index target_message_id messages_data
    < PyList.len messages_data.
Proof.
  intros Hne. unfold target_index.
  assert (0 < PyList.len messages_data) as Hlen.
  { destruct messages_data; [done|]. unfold PyList.len. cbn [length]. lia. }
  assert (0 <= PyList.len messages_data / 2 < PyList.len messages_data) as Hd.
  { split; [apply Z.div_pos; lia|apply Z.div_lt; lia]. }
  destruct (find_target_range target_message_id messages_data 0
              (PyList.len messages_data / 2)) as [->|H]; lia.
Qed.

(** The window in the list: what comes before it, the messages before
    the target, the target, the messages after it, what comes after. *)
Lemma context_window_shape (channel_id : string)
    (messages_data : list rendered) (target_idx before_count after_count : Z) :
  0 <= before_count -> 0 <= after_count ->
  0 <= target_idx < PyList.len messages_data ->
  exists before target after pre post,
    context_window channel_id messages_data target_idx
                   before_count after_count
    = Ok (before, target, after)
    /\ PyList.len before = Z.min before_count target_idx
    /\ PyList.len after
       = Z.min after_count (PyList.len messages_data - 1 - target_idx)
    /\ map (make_message channel_id) messages_data
       = pre ++ before ++ target :: after ++ post
    /\ PyList.len (pre ++ before) = target_idx.
Proof.
  intros Hb Ha Ht. unfold context_window.
  destruct (index_in_range messages_data target_idx Ht) as (x & -> & Hx).
  set (a := Z.max 0 (target_idx - before_count)).
  set (e := Z.min (PyList.len messages_data) (target_idx + after_count + 1)).
  rewrite (slice_in_range messages_data a target_idx) by lia.
  rewrite (slice_in_range messages_data (target_idx + 1) e) by lia.
  set (t := Z.to_nat target_idx).
  replace (Z.to_nat (target_idx + 1)) with (S t) by lia.
  exists (map (make_message channel_id)
            (take (Z.to_nat (target_idx - a))
                  (drop (Z.to_nat a) messages_data))),
    (make_message channel_id x),
    (map (make_message channel_id)
         (take (Z.to_nat (e - (target_idx + 1))) (drop (S t) messages_data))),
    (map (make_message channel_id) (take (Z.to_nat a) messages_data)),
    (map (make_message channel_id)
         (drop (Z.to_nat (e - (target_idx + 1))) (drop (S t) messages_data))).
  unfold PyList.len in *.
  split; [done|]. split; [|split; [|split]].
  - rewrite length_map, length_take, length_drop. lia.
  - rewrite length_map, length_take, length_drop. lia.
  - rewrite <- (take_drop_middle messages_data t x Hx) at 1.
    rewrite <- (take_drop (Z.to_nat a) (take t messages_data)) at 1.
    rewrite take_take, Nat.min_l by lia.
    rewrite <- (take_drop (Z.to_nat (e - (target_idx + 1)))
                          (drop (S t) messages_data)) at 1.
    replace (drop (Z.to_nat a) (take t messages_data))
      with (take (Z.to_nat (target_idx - a))
                 (drop (Z.to_nat a) messages_data)).
    + rewrite !map_app. cbn [map]. rewrite !map_app.
      by rewrite <- !app_assoc.
    + rewrite take_drop_commute. do 2 f_equal. lia.
  - rewrite length_app, !length_map, !length_take, length_drop. lia.
Qed.

(** C7: for counts that are not negative and a target inside the list,
    the window is built without raising; it holds the [before_count]
    messages just before the target, or all of them when there are
    fewer, then the target, then the [after_count] messages just after
    it, or all of them when there are fewer.  The target that
    [get_search_result_context] picks is inside the list, so it does
    not raise on the window either. *)
Theorem context_window_is_clamped (channel_id : string)
    (messages_data : list rendered) (before_count after_count : Z) :
  0 <= before_count -> 0 <= after_count ->
  (forall target_idx,
     0 <= target_idx < PyList.len messages_data ->
     exists before target after pre post,
       context_window channel_id messages_data target_idx
                      before_count after_count
       = Ok (before, target, after)
       /\ PyList.len before = Z.min before_count target_idx
       /\ PyList.len after
          = Z.min after_count (PyList.len messages_data - 1 - target_idx)
       /\ map (make_message channel_id) messages_data
          = pre ++ before ++ target :: after ++ post
       /\ PyList.len (pre ++ before) = target_idx)
  /\ (forall url header_title in_channels,
        exists context,
          get_search_result_context url messages_data header_title
            before_count after_count in_channels = Ok context).
Proof.
  intros Hb Ha. split.
  - intros target_idx Ht. by apply context_window_shape.
  - intros url header_title in_channels. unfold get_search_result_context.
    destruct messages_data as [|m l] eqn:E; [by eexists|].
    rewrite <- E. assert (messages_data <> []) as Hne by (by rewrite E).
    replace (PyList.truthy messages_data) with true by (by rewrite E).
    cbn [negb].
    match goal with |- context [target_index ?i messages_data] =>
      pose proof (target_index_in_range i messages_data Hne) as Ht;
      generalize dependent (target_index i messages_data) end.
    intros t Ht.
    match goal with |- context [context_window ?c messages_data t _ _] =>
      destruct (context_window_shape c messages_data t before_count
                  after_count Hb Ha Ht)
        as (before & target & after & _ & _ & -> & _) end.
    by eexists.
Qed.

(** Eight messages, the target the fifth of them, five asked for on
    either side: four come before it and three after it; and with no
    identifier to look for the target is the fifth. *)
Lemma context_window_is_clamped_witness :
  target_index EmptyString eight_messages = 4
  /\ exists before target after pre post,
       context_window "8" eight_messages 4 5 5 = Ok (before, target, after)
       /\ PyList.len before = 4
       /\ PyList.len after = 3
       /\ map (make_message "8") eight_messages
          = pre ++ before ++ target :: after ++ post
       /\ PyList.len (pre ++ before) = 4.
Proof.
  split; [reflexivity|].
  apply (proj1 (context_window_is_clamped "8" eight_messages 5 5
                  ltac:(lia) ltac:(lia)) 4).
  vm_compute. split; [discriminate|reflexivity].
Defined.

(** The same window, message by message. *)
Lemma context_window_eight :
  (match context_window "8" eight_messages 4 5 5 with
   | Ok (before, target, after) =>
       (map m_id before, m_id target, map m_id after)
   | Raise _ => ([], EmptyString, [])
   end)
  = (["8-1000"; "8-1001"; "8-1002"; "8-1003"], "8-1004",
     ["8-1005"; "8-1006"; "8-1007"]).
Proof. vm_compute. reflexivity. Qed.

End SearchTheorems.

(** ** More about the chunking of [send_message] *)

Module ChunkingMore.
Import Text TextFacts Server ChunkingFacts ChunkingTheorems ChunkingSamples.

Lemma has_no_cons sep c s :
  has_no sep (String c s) = negb (Ascii.eqb c sep) && has_no sep s.
Proof. reflexivity. Qed.

Lemma split_app_sep sep a b :
  has_no sep a = true ->
  split sep (a +:+ String sep b) = a :: split sep b.
Proof.
  induction a as [|c a IH]; intros Ha.
  - rewrite app_nil_l. cbn [split]. by rewrite Ascii.eqb_refl.
  - rewrite has_no_cons in Ha. apply andb_prop in Ha as [Hc Ha].
    rewrite app_cons. cbn [split].
    destruct (Ascii.eqb c sep); [done|]. by rewrite (IH Ha).
Qed.

Lemma len_take n s :
  Z.of_nat n <= len s -> len (take n s) = Z.of_nat n.
Proof.
  revert s. induction n as [|n IH]; intros [|c s]; cbn [take];
    rewrite ?len_nil, ?len_cons; try lia.
  intros H. rewrite IH; lia.
Qed.

Lemma len_sep s c t :
  len (s +:+ String c EmptyString +:+ t) = len s + 1 + len t.
Proof. rewrite len_app, app_cons, app_nil_l, len_cons. lia. Qed.

(** The pieces of a split are no longer than the text. *)
Lemma split_pieces_short sep s :
  Forall (fun w => len w <= len s) (split sep s).
Proof.
  induction s as [|c s IH]; [by repeat constructor|].
  cbn [split]. rewrite len_cons.
  assert (Forall (fun w => len w <= 1 + len s) (split sep s)) as IH'.
  { eapply Forall_impl; [exact IH|]. intros w Hw. cbn in Hw. lia. }
  destruct (Ascii.eqb c sep).
  - constructor; [|done]. rewrite len_nil. pose proof (len_nonneg s). lia.
  - destruct (split sep s) as [|w ws]; inversion IH as [|? ? Hw Hws]; subst.
    + constructor; [|done]. rewrite len_cons, len_nil. pose proof (len_nonneg s). lia.
    + inversion IH' as [|? ? _ Hws']; subst.
      constructor; [|done]. rewrite len_cons. lia.
Qed.

Lemma short_line_words_fit line : len line <= 2000 -> words_fit line = true.
Proof.
  intros Hl. unfold words_fit. apply forallb_forall. intros w Hw.
  pose proof (split_pieces_short space line) as H.
  rewrite Forall_forall in H. apply list_elem_of_In in Hw.
  specialize (H w Hw). cbn in H. lia.
Qed.

(** X1: with or without newlines, when every line either has at most
    2000 characters or is made of space-separated words of at most 2000
    characters each, every chunk has at most 2000 characters and the
    chunks together have the non-whitespace content of the input. *)
Theorem chunking_of_lines (content : string) :
  Forall (fun line => len line <= 2000 \/ words_fit line = true)
         (split newline content) ->
  Forall (fun c => len c <= 2000) (chunk_content content)
  /\ non_whitespace (concat (chunk_content content))
     = non_whitespace content.
Proof.
  intros Hlines. apply chunk_content_lines.
  eapply Forall_impl; [exact Hlines|].
  intros line [Hshort|Hfit]; [|done]. by apply short_line_words_fit.
Qed.

Lemma chunking_of_lines_witness :
  2000 < len sample_lines
  /\ map len (chunk_content sample_lines) = [1200; 1200; 1199]
  /\ Forall (fun c => len c <= 2000) (chunk_content sample_lines)
  /\ non_whitespace (concat (chunk_content sample_lines))
     = non_whitespace sample_lines.
Proof.
  split; [vm_compute; reflexivity|]. split; [vm_compute; reflexivity|].
  apply (chunking_of_lines sample_lines).
  vm_compute. repeat constructor; right; reflexivity.
Defined.

(** X2: a text of more than 2000 characters without space or newline is
    cut to its first 2000 characters, which come after an empty chunk;
    the rest is not sent. *)
Theorem chunking_truncates_single_word (w : string) :
  has_no space w = true -> has_no newline w = true -> 2000 < len w ->
  chunk_content w = [EmptyString; take 2000 w]
  /\ len (take 2000 w) = 2000.
Proof.
  intros Hsp Hnl Hlen.
  assert (len (take 2000 w) = 2000) as Ht by (apply len_take; lia).
  split; [|done]. unfold chunk_content.
  destruct (Z.leb_spec (len w) 2000) as [|_]; [lia|].
  rewrite (split_no_sep _ _ Hnl). cbn [fold_left]. unfold line_step.
  destruct (Z.ltb_spec 2000 (len w)) as [_|]; [|lia].
  rewrite (split_no_sep _ _ Hsp). cbn [fold_left fst snd].
  unfold word_step. rewrite len_sep, len_nil.
  destruct (Z.leb_spec (0 + 1 + len w) 2000) as [|_]; [lia|].
  cbn [truthy]. unfold slice_to. change (0 <=? 2000) with true. cbv iota.
  change (Z.to_nat 2000) with 2000%nat.
  assert (truthy (take 2000 w) = true) as Htr.
  { destruct (take 2000 w); [rewrite len_nil in Ht; lia|done]. }
  rewrite Htr. unfold add_piece. rewrite len_sep, len_nil, Ht.
  change (0 + 1 + 2000 <=? 2000) with false.
  cbv iota. cbn [app]. by rewrite Htr.
Qed.

Lemma chunking_truncates_single_word_witness :
  chunk_content (replicate 4500 "b") = [EmptyString; replicate 2000 "b"].
Proof.
  destruct (chunking_truncates_single_word (replicate 4500 "b")) as [H _];
    [reflexivity|reflexivity|vm_compute; reflexivity|].
  rewrite H. vm_compute. reflexivity.
Defined.

(** X3: a word of more than 2000 characters that follows a first word is
    not cut: it is handed on whole, as a chunk of more than 2000
    characters. *)
Theorem chunking_keeps_long_second_word (a w : string) :
  has_no space a = true -> has_no newline a = true ->
  has_no space w = true -> has_no newline w = true ->
  a <> EmptyString -> len a <= 1999 -> 2000 < len w ->
  chunk_content (a +:+ String space w) = [a; w].
Proof.
  intros Has Han Hws Hwn Ha Hla Hlw.
  assert (truthy a = true) as Hta by (by destruct a).
  assert (truthy w = true) as Htw.
  { destruct w; [rewrite len_nil in Hlw; lia|done]. }
  assert (has_no newline (a +:+ String space w) = true) as Hnl.
  { clear -Han Hwn. induction a as [|c a IH].
    - rewrite app_nil_l, has_no_cons. by rewrite Hwn.
    - rewrite has_no_cons in Han. apply andb_prop in Han as [Hc Han].
      rewrite app_cons, has_no_cons, Hc. by apply IH. }
  pose proof (len_nonneg a) as Hna.
  unfold chunk_content. rewrite len_app, len_cons.
  destruct (Z.leb_spec (len a + (1 + len w)) 2000) as [|_]; [lia|].
  rewrite (split_no_sep _ _ Hnl). cbn [fold_left]. unfold line_step.
  rewrite len_app, len_cons.
  destruct (Z.ltb_spec 2000 (len a + (1 + len w))) as [_|]; [|lia].
  rewrite (split_app_sep _ _ _ Has), (split_no_sep _ _ Hws).
  cbn [fold_left fst snd]. unfold word_step at 2.
  rewrite len_sep, len_nil.
  destruct (Z.leb_spec (0 + 1 + len a) 2000) as [_|]; [|lia].
  cbn [truthy]. unfold word_step. rewrite len_sep.
  destruct (Z.leb_spec (len a + 1 + len w) 2000) as [|_]; [lia|].
  rewrite Hta. unfold add_piece at 1. rewrite len_sep, len_nil.
  destruct (Z.leb_spec (0 + 1 + len a) 2000) as [_|]; [|lia].
  cbn [truthy]. rewrite Htw. unfold add_piece. rewrite len_sep.
  destruct (Z.leb_spec (len a + 1 + len w) 2000) as [|_]; [lia|].
  cbn [app]. by rewrite Htw.
Qed.

Lemma chunking_keeps_long_second_word_witness :
  chunk_content ("a" +:+ String space (replicate 4498 "b"))
  = ["a"; replicate 4498 "b"]
  /\ len (replicate 4498 "b") = 4498.
Proof.
  split; [|vm_compute; reflexivity].
  apply (chunking_keeps_long_second_word "a" (replicate 4498 "b"));
    try reflexivity; try discriminate; vm_compute; discriminate.
Defined.

Lemma split_newlines n :
  split newline (replicate n newline) = repeat EmptyString (S n).
Proof.
  induction n as [|n IH]; [done|].
  cbn [replicate split]. rewrite Ascii.eqb_refl. by rewrite IH.
Qed.

Lemma empty_lines_add_nothing n :
  fold_left line_step (repeat EmptyString n) ([], EmptyString)
  = ([], EmptyString).
Proof. induction n as [|n IH]; [done|]. cbn [repeat fold_left]. exact IH. Qed.

Lemma len_replicate n c : len (replicate n c) = Z.of_nat n.
Proof.
  induction n as [|n IH]; [done|]. cbn [replicate].
  rewrite len_cons, IH. lia.
Qed.

(** X4: a content of more than 2000 newlines and nothing else is not
    empty, so [send_message] accepts it, and it gives no chunk at all:
    nothing is handed to the client. *)
Theorem chunking_of_newlines_only (n : nat) :
  (2000 < n)%nat ->
  send_message (replicate n newline) = Ok [].
Proof.
  intros Hn. unfold send_message, chunk_content.
  rewrite len_replicate.
  destruct (Z.eqb_spec (Z.of_nat n) 0) as [|_]; [lia|].
  destruct (Z.leb_spec (Z.of_nat n) 2000) as [|_]; [lia|].
  by rewrite split_newlines, empty_lines_add_nothing.
Qed.

Lemma chunking_of_newlines_only_witness :
  send_message (replicate 2001 newline) = Ok [].
Proof. apply (chunking_of_newlines_only 2001). lia. Defined.

End ChunkingMore.

(** ** More about the guild list *)

Module GuildMore.
Import Text Guilds GuildViews.

(** *** Trimming *)

Lemma drop_while_head_clean p s : head_clean p (drop_while p s) = true.
Proof.
  induction s as [|c s IH]; [done|]. cbn [drop_while].
  destruct (p c) eqn:E; [done|]. cbn. by rewrite E.
Qed.

Lemma head_clean_drop_while p s :
  head_clean p s = true -> drop_while p s = s.
Proof. destruct s as [|c s]; [done|]. cbn. by destruct (p c). Qed.

Lemma rstrip_head_clean p s :
  head_clean p s = true -> head_clean p (rstrip_by p s) = true.
Proof.
  destruct s as [|c s]; [done|]. cbn [head_clean rstrip_by].
  intros Hc. apply negb_true_iff in Hc. rewrite Hc, andb_false_r.
  cbn. by rewrite Hc.
Qed.

Lemma rstrip_idem p s : rstrip_by p (rstrip_by p s) = rstrip_by p s.
Proof.
  induction s as [|c s IH]; [done|]. cbn [rstrip_by].
  destruct (negb (truthy (rstrip_by p s)) && p c) eqn:E; [done|].
  cbn [rstrip_by]. by rewrite IH, E.
Qed.

(** Trimming what is trimmed changes nothing. *)
Lemma strip_idem p s : strip_by p (strip_by p s) = strip_by p s.
Proof.
  unfold strip_by.
  rewrite (head_clean_drop_while p (rstrip_by p (drop_while p s))).
  - apply rstrip_idem.
  - apply rstrip_head_clean, drop_while_head_clean.
Qed.

(** *** Names *)

Lemma guild_name_trimmed item :
  truthy_o (guild_name item) = true ->
  exists n, guild_name item = Some n
            /\ n <> EmptyString /\ js_trim n = n.
Proof.
  unfold guild_name.
  match goal with |- context [match ?x with Some _ => _ | None => _ end] =>
    destruct x as [n0|] end; [|done].
  destruct (truthy n0) eqn:E.
  - cbn [truthy_o]. intros Ht. eexists. split; [done|]. split.
    + by destruct (js_trim (strip_mentions n0)).
    + apply strip_idem.
  - cbn [truthy_o]. by rewrite E.
Qed.

Lemma guild_step_well_named guilds item :
  Forall well_named guilds -> Forall well_named (guild_step guilds item).
Proof.
  intros H. unfold guild_step.
  destruct (item_list_item_id item) as [listItemId|]; [|done].
  destruct (_ && _); [|done].
  destruct (all_digits _); [|done].
  destruct (truthy_o (guild_name item)) eqn:Hn; cbn [andb]; [|done].
  destruct (negb _); [|done].
  apply Forall_app. split; [done|]. constructor; [|constructor].
  destruct (guild_name_trimmed item Hn) as (n & -> & Hne & Htrim).
  by split.
Qed.

(** X5: every guild returned has a name that is not empty and that
    neither starts nor ends with whitespace. *)
Theorem guild_names_trimmed (treeItems : list tree_item) :
  Forall (fun g => g_name g <> EmptyString /\ js_trim (g_name g) = g_name g)
         (get_guilds treeItems).
Proof.
  unfold get_guilds, extract_guilds_js. apply Forall_fmap.
  assert (forall guilds, Forall well_named guilds ->
            Forall well_named (fold_left guild_step treeItems guilds)) as H.
  { induction treeItems as [|item items IH]; intros guilds Hg; [done|].
    cbn [fold_left]. by apply IH, guild_step_well_named. }
  eapply Forall_impl; [apply H; constructor|]. by intros [i n] Hw.
Qed.

(** *** Which item names a guild *)

Lemma guild_step_eq guilds item :
  guild_step guilds item
  = match guild_of item with
    | Some g => if existsb (fun x => String.eqb x.1 g.1) guilds
                then guilds else guilds ++ [g]
    | None => guilds
    end.
Proof.
  unfold guild_of, guild_step.
  destruct (item_list_item_id item) as [listItemId|]; [|done].
  destruct (_ && _); [|done].
  destruct (all_digits _); [|done].
  destruct (truthy_o (guild_name item)); cbn [andb existsb negb app fst];
    [|done].
  by destruct (existsb _ guilds).
Qed.

Lemma extract_guilds_snoc treeItems item :
  extract_guilds_js (treeItems ++ [item])
  = guild_step (extract_guilds_js treeItems) item.
Proof. unfold extract_guilds_js. by rewrite fold_left_app. Qed.

Lemma existsb_find_id (guilds : list (string * string)) i :
  existsb (fun g => String.eqb g.1 i) guilds
  = bool_decide (is_Some (List.find (fun g => String.eqb g.1 i) guilds)).
Proof.
  induction guilds as [|g guilds IH]; [done|]. cbn [existsb List.find].
  destruct (String.eqb g.1 i); cbn [orb]; [|done].
  symmetry. apply bool_decide_eq_true. by eexists.
Qed.

Lemma find_app {A} (f : A -> bool) (l1 l2 : list A) :
  List.find f (l1 ++ l2)
  = match List.find f l1 with
    | Some x => Some x
    | None => List.find f l2
    end.
Proof.
  induction l1 as [|x l1 IH]; [done|]. cbn [app List.find].
  by destruct (f x).
Qed.

(** The records of the script, looked up by identifier, are the first
    records that the items give for it. *)
Lemma extract_guilds_find treeItems i :
  List.find (fun g => String.eqb g.1 i) (extract_guilds_js treeItems)
  = List.find (fun g => String.eqb g.1 i) (omap guild_of treeItems).
Proof.
  induction treeItems as [|item items IH] using rev_ind; [done|].
  rewrite extract_guilds_snoc, guild_step_eq, omap_app, find_app, <- IH.
  assert (omap guild_of [item]
          = match guild_of item with Some g => [g] | None => [] end) as ->.
  { cbn. by destruct (guild_of item). }
  destruct (guild_of item) as [g|].
  - destruct (existsb _ (extract_guilds_js items)) eqn:Hex.
    + destruct (List.find _ (extract_guilds_js items)) eqn:Hf; [done|].
      cbn [List.find].
      destruct (String.eqb_spec g.1 i) as [<-|]; [|done].
      rewrite existsb_find_id, Hf in Hex.
      apply bool_decide_eq_true in Hex. by destruct Hex.
    + by rewrite find_app.
  - by destruct (List.find _ (extract_guilds_js items)).
Qed.

Lemma find_by_id (l : list (string * string)) i n :
  NoDup (map fst l) -> (i, n) ∈ l ->
  List.find (fun g => String.eqb g.1 i) l = Some (i, n).
Proof.
  induction l as [|g l IH]; intros Hnd Hin; [by apply elem_of_nil in Hin|].
  cbn [map] in Hnd. apply NoDup_cons in Hnd as [Hg Hnd].
  cbn [List.find]. apply elem_of_cons in Hin as [<-|Hin].
  - cbn. by rewrite String.eqb_refl.
  - destruct (String.eqb_spec g.1 i) as [E|_]; [|by apply IH].
    destruct Hg. rewrite E. by apply (list_elem_of_fmap_2 fst _ (i, n)).
Qed.

(** X6: a guild is returned under a name exactly when the first tree
    item that the script accepts for its identifier gives that name: no
    accepted guild is dropped, and later items of the same guild do not
    rename it. *)
Theorem guild_named_by_first_item (treeItems : list tree_item)
    (i n : string) :
  {| g_id := i; g_name := n; g_icon := None |} ∈ get_guilds treeItems
  <-> first_name i treeItems = Some n.
Proof.
  unfold first_name. rewrite <- extract_guilds_find. unfold get_guilds.
  destruct (GuildTheorems.extract_guilds_inv treeItems) as [Hnd _].
  split.
  - intros ([i' n'] & [= -> ->] & Hin)%list_elem_of_fmap.
    by rewrite (find_by_id _ i' n' Hnd Hin).
  - destruct (List.find _ _) as [[i' n']|] eqn:Hf; [|done].
    cbn. intros [= ->].
    apply find_some in Hf as [Hin Hi]. cbn in Hi.
    apply String.eqb_eq in Hi. subst i'.
    apply list_elem_of_fmap. exists (i, n). split; [done|].
    by apply list_elem_of_In.
Qed.

(** On the sample rail: the guild shown twice keeps the name of its
    first item, and the home entry names nothing. *)
Lemma guild_named_by_first_item_witness :
  first_name "123456789012345" sample_rail = Some "My Server"
  /\ first_name "home" sample_rail = None
  /\ {| g_id := "123456789012345"; g_name := "My Server"; g_icon := None |}
       ∈ get_guilds sample_rail.
Proof.
  split; [reflexivity|]. split; [reflexivity|].
  apply (proj2 (guild_named_by_first_item sample_rail _ _)). reflexivity.
Defined.

End GuildMore.

(** ** More about the channel list *)

Module ChannelMore.
Import Text TextFacts Channels ChannelViews ChannelTheorems.











(** *** Where the channels come from *)





End ChannelMore.

(** ** More about reading a channel *)

Module MessageMore.
Import Messages MessageViews MessageTheorems.

(** *** One element *)

Lemma cascade_trimmed {S} (text_of : S -> option string) selectors :
  Text.py_strip (cascade text_of selectors EmptyString)
  = cascade text_of selectors EmptyString.
Proof.
  induction selectors as [|s selectors IH]; [done|]. cbn [cascade].
  destruct (text_of s) as [text|]; [|done].
  destruct (Text.truthy text); [|done]. apply GuildMore.strip_idem.
Qed.

Lemma hrefs_not_empty l : Forall (fun h => h <> EmptyString) (hrefs l).
Proof.
  unfold hrefs. apply Forall_forall. intros h Hh.
  apply list_elem_of_omap in Hh as ([s|] & _ & Hs); [|done].
  destruct s; [done|]. by injection Hs as <-.
Qed.

Lemma list_truthy_not_nil {A} (l : list A) :
  PyList.truthy l = true -> l <> [].
Proof. by destruct l. Qed.

(** X9: a message made from an element has a text or an attachment; its
    text neither starts nor ends with whitespace, its attachments are
    non-empty addresses, its channel is the one asked for and its author
    identifier is the word unknown.  An element on which a call raises
    or whose timestamp cannot be read gives no message. *)
Theorem extracted_message_is_sound (element : message_node)
    (channel_id : string) (collected : Z) :
  (forall m,
     _extract_message_data element channel_id collected = Some m ->
     (m_content m <> EmptyString \/ m_attachments m <> [])
     /\ Text.py_strip (m_content m) = m_content m
     /\ Forall (fun h => h <> EmptyString) (m_attachments m)
     /\ m_channel_id m = channel_id
     /\ m_author_id m = "unknown")
  /\ (node_raises element = true \/ node_time element = BadTime ->
      _extract_message_data element channel_id collected = None).
Proof.
  unfold _extract_message_data. split.
  - intros m. destruct (node_raises element); [done|].
    set (content := cascade (node_content element) _ EmptyString).
    assert (Text.py_strip content = content) as Htrim
      by apply cascade_trimmed.
    destruct (node_time element) as [| |t]; [|done|];
      (destruct (Text.truthy content) eqn:Hc;
       [|destruct (PyList.truthy (hrefs (node_attachments element))) eqn:Ha];
       cbn [negb andb]; [| |done]; intros [= <-]; cbn;
       (split; [|split; [done|split; [apply hrefs_not_empty|done]]])).
    + left. by apply ChannelTheorems.truthy_not_empty.
    + right. by apply list_truthy_not_nil.
    + left. by apply ChannelTheorems.truthy_not_empty.
    + right. by apply list_truthy_not_nil.
  - intros [-> | Hbad]; [done|].
    destruct (node_raises element); [done|]. by rewrite Hbad.
Qed.

Lemma extracted_message_is_sound_witness :
  exists m,
    _extract_message_data attachment_node "8" 3 = Some m
    /\ m_id m = "message-3"
    /\ m_content m = EmptyString
    /\ m_attachments m
       = ["https://cdn.discordapp.com/attachments/1/2/a.png"]
    /\ (m_content m <> EmptyString \/ m_attachments m <> []).
Proof.
  eexists. split; [vm_compute; reflexivity|].
  split; [reflexivity|]. split; [reflexivity|]. split; [reflexivity|].
  eapply (proj1 (extracted_message_is_sound attachment_node "8" 3)).
  vm_compute. reflexivity.
Defined.

(** *** Identifiers *)

Section Seen.
Variable channel_id : string.
Variable limit : Z.
Variables before after : option string.

Lemma walk_seen_all elements st :
  seen_all st -> seen_all (walk channel_id limit before after elements st).
Proof.
  revert st. induction elements as [|element rest IH]; intros st Hst; [done|].
  cbn [walk]. destruct (limit <=? PyList.len st.1); [done|].
  destruct (_extract_message_data element channel_id _) as [message|];
    [|by apply IH].
  destruct (bool_decide_reflect (m_id message ∈ st.2)) as [Hin|Hout];
    [by apply IH|].
  destruct (at_or_after before (m_id message)); [by apply IH|].
  destruct (at_or_before after (m_id message)); [by apply IH|].
  apply IH. destruct Hst as [Hnd Hseen]. split; cbn [fst snd].
  - rewrite map_app. apply NoDup_app. split; [done|].
    split; [|apply NoDup_singleton].
    intros i Hi Hi'. apply list_elem_of_singleton in Hi'. subst i.
    apply list_elem_of_fmap in Hi as (m & Heq & Hm).
    apply Hout. rewrite Heq. by apply Hseen.
  - intros m [Hm|Hm]%elem_of_app.
    + apply elem_of_union. right. by apply Hseen.
    + apply list_elem_of_singleton in Hm. subst m.
      apply elem_of_union. left. by apply elem_of_singleton.
Qed.

Lemma attempts_seen_all elements_at left attempt st :
  seen_all st ->
  seen_all (attempts channel_id limit before after elements_at left attempt st).
Proof.
  revert attempt st. induction left as [|left IH]; intros attempt st Hst;
    [done|].
  cbn [attempts].
  destruct (negb (PyList.truthy (elements_at attempt))); [by apply IH|].
  pose proof (walk_seen_all (rev (elements_at attempt)) st Hst) as Hw.
  destruct (_ || _); [done|]. by apply IH.
Qed.

(** The loop asks for the elements of the queries [attempt],
    [attempt + 1], ... , [attempt + left - 1] and of no other. *)
Lemma attempts_ext (e1 e2 : nat -> list message_node) left attempt st :
  (forall k, (attempt <= k < attempt + left)%nat -> e1 k = e2 k) ->
  attempts channel_id limit before after e1 left attempt st
  = attempts channel_id limit before after e2 left attempt st.
Proof.
  revert attempt st. induction left as [|left IH]; intros attempt st Hk;
    [done|].
  cbn [attempts]. rewrite <- (Hk attempt) by lia.
  destruct (negb (PyList.truthy (e1 attempt))).
  - apply IH. intros k Hk'. apply Hk. lia.
  - destruct (_ || _); [done|]. apply IH. intros k Hk'. apply Hk. lia.
Qed.

(** With a limit that is not positive the loops collect nothing. *)
Lemma attempts_no_room elements_at left attempt st :
  limit <= PyList.len st.1 ->
  attempts channel_id limit before after elements_at left attempt st = st.
Proof.
  intros Hl. revert attempt.
  induction left as [|left IH]; intros attempt; [done|].
  cbn [attempts].
  destruct (negb (PyList.truthy (elements_at attempt))); [apply IH|].
  assert (walk channel_id limit before after (rev (elements_at attempt)) st
          = st) as ->.
  { destruct (rev (elements_at attempt)); [done|]. cbn [walk].
    by destruct (Z.leb_spec limit (PyList.len st.1)); [|lia]. }
  by destruct (Z.leb_spec limit (PyList.len st.1)); [|lia].
Qed.

(** A page without elements gives nothing. *)
Lemma attempts_nothing_shown elements_at left attempt st :
  (forall k, elements_at k = []) ->
  attempts channel_id limit before after elements_at left attempt st = st.
Proof.
  intros He. revert attempt.
  induction left as [|left IH]; intros attempt; [done|].
  cbn [attempts]. rewrite He. cbn. apply IH.
Qed.

End Seen.

Lemma insert_desc_Permutation m l : insert_desc m l ≡ₚ m :: l.
Proof.
  induction l as [|x l IH]; [done|]. cbn [insert_desc].
  destruct (_ <? _); [|done]. rewrite IH. apply Permutation_swap.
Qed.

Lemma sorted_desc_Permutation l : sorted_desc l ≡ₚ l.
Proof.
  induction l as [|m l IH]; [done|]. cbn [sorted_desc].
  by rewrite insert_desc_Permutation, IH.
Qed.

(** X10: the messages returned by one call have pairwise distinct
    identifiers. *)
Theorem returned_ids_distinct (p : channel_page)
    (server_id channel_id : string) (limit : Z) (before after : option string)
    (messages : list DiscordMessage) :
  get_channel_messages p server_id channel_id limit before after
  = Ok messages ->
  NoDup (map m_id messages).
Proof.
  intros ->%get_channel_messages_Ok.
  unfold PyList.slice_to. rewrite SearchTheorems.slice_fmap.
  apply SearchTheorems.slice_NoDup.
  rewrite (fmap_Permutation m_id _ _ (sorted_desc_Permutation _)).
  apply (attempts_seen_all channel_id limit before after (elements_at p)
           10 0 ([], ∅)).
  split; [constructor|]. intros m Hm. by apply elem_of_nil in Hm.
Qed.

Lemma returned_ids_distinct_witness :
  exists messages,
    get_channel_messages sample_page "7" "8" 10 None None = Ok messages
    /\ map m_id messages = ["400"; "300"; "200"; "100"]
    /\ NoDup (map m_id messages).
Proof.
  eexists. split; [vm_compute; reflexivity|]. split; [reflexivity|].
  apply (returned_ids_distinct sample_page "7" "8" 10 None None).
  vm_compute. reflexivity.
Defined.

(** X11: one call looks at the message list at most ten times: two
    pages that answer alike and show the same elements at the first ten
    queries give the same outcome, whatever they would show later. *)
Theorem reading_stops_after_ten_queries (p p' : channel_page)
    (server_id channel_id : string) (limit : Z) (before after : option string) :
  login_ok p = login_ok p' -> list_appears p = list_appears p' ->
  (forall k, (k < 10)%nat -> elements_at p k = elements_at p' k) ->
  get_channel_messages p server_id channel_id limit before after
  = get_channel_messages p' server_id channel_id limit before after.
Proof.
  intros Hl Ha He. unfold get_channel_messages. rewrite Hl, Ha.
  rewrite (attempts_ext channel_id limit before after
             (elements_at p) (elements_at p') 10 0); [done|].
  intros k Hk. apply He. lia.
Qed.

Lemma reading_stops_after_ten_queries_witness :
  get_channel_messages sample_page "7" "8" 10 None None
  = get_channel_messages (first_ten sample_page) "7" "8" 10 None None
  /\ elements_at (first_ten sample_page) 10 = []
  /\ elements_at sample_page 10 <> [].
Proof.
  split; [|split; [reflexivity|discriminate]].
  apply (reading_stops_after_ten_queries sample_page (first_ten sample_page));
    [reflexivity|reflexivity|].
  intros k Hk. cbn [first_ten elements_at].
  destruct (Nat.ltb_spec k 10) as [_|]; [reflexivity|lia].
Defined.

(** X12: once the channel is on the page, a limit of zero or below
    gives the empty list, and so does a message list that never shows
    an element: neither is an error. *)
Theorem reading_nothing_is_no_error (p : channel_page)
    (server_id channel_id : string) (limit : Z) (before after : option string) :
  login_ok p = true -> list_appears p = true ->
  limit <= 0 \/ (forall k, elements_at p k = []) ->
  get_channel_messages p server_id channel_id limit before after = Ok [].
Proof.
  intros Hl Ha Hcase. unfold get_channel_messages. rewrite Hl, Ha.
  cbn [negb].
  assert (attempts channel_id limit before after (elements_at p) 10 0 ([], ∅)
          = ([], ∅)) as ->.
  { destruct Hcase as [Hlimit|Hnone].
    - by apply attempts_no_room.
    - by apply attempts_nothing_shown. }
  cbn. unfold PyList.slice_to, PyList.slice.
  by rewrite drop_nil, take_nil.
Qed.

Lemma reading_nothing_is_no_error_witness :
  get_channel_messages sample_page "7" "8" 0 None None = Ok []
  /\ get_channel_messages sample_page "7" "8" (-3) None None = Ok [].
Proof.
  split.
  - apply (reading_nothing_is_no_error sample_page "7" "8" 0);
      [reflexivity|reflexivity|left; lia].
  - apply (reading_nothing_is_no_error sample_page "7" "8" (-3));
      [reflexivity|reflexivity|left; lia].
Defined.

(** X13: every message returned was made from an element that one of
    the first ten queries found. *)
Theorem returned_messages_come_from_page (p : channel_page)
    (server_id channel_id : string) (limit : Z) (before after : option string)
    (messages : list DiscordMessage) :
  get_channel_messages p server_id channel_id limit before after
  = Ok messages ->
  Forall (fun m => exists k element collected,
                     (k < 10)%nat /\ element ∈ elements_at p k
                     /\ _extract_message_data element channel_id collected
                        = Some m)
         messages.
Proof.
  intros ->%get_channel_messages_Ok.
  apply slice_Forall, sorted_desc_Forall.
  rewrite (attempts_ext channel_id limit before after (elements_at p)
             (elements_at (first_ten p)) 10 0).
  - apply attempts_Forall; [|constructor].
    intros k element collected m Hin Hx _. cbn [first_ten elements_at] in Hin.
    destruct (Nat.ltb_spec k 10) as [Hk|_]; [|by apply elem_of_nil in Hin].
    by exists k, element, collected.
  - intros k Hk. cbn [first_ten elements_at].
    destruct (Nat.ltb_spec k 10) as [_|]; [done|lia].
Qed.

Lemma returned_messages_come_from_page_witness :
  exists messages,
    get_channel_messages sample_page "7" "8" 2 None None = Ok messages
    /\ map m_id messages = ["400"; "300"]
    /\ Forall (fun m => exists k element collected,
                          (k < 10)%nat /\ element ∈ elements_at sample_page k
                          /\ _extract_message_data element "8" collected
                             = Some m)
              messages.
Proof.
  eexists. split; [vm_compute; reflexivity|]. split; [reflexivity|].
  apply (returned_messages_come_from_page sample_page "7" "8" 2 None None).
  vm_compute. reflexivity.
Defined.

End MessageMore.

(** ** More about the search *)

Module SearchMore.
Import Search SearchViews SearchTheorems.

Section Numbering.
Variable limit : Z.
Variable channels : option (list string).

Lemma collect_numbered results_data st :
  numbered st.1 -> numbered (collect limit channels results_data st).1.
Proof.
  revert st. induction results_data as [|result rest IH]; intros st Hst;
    [done|].
  cbn [collect]. destruct (limit <=? PyList.len st.1); [done|].
  destruct (bool_decide _); [by apply IH|].
  apply IH. cbn [fst]. intros i m Hi.
  apply lookup_app_Some in Hi as [Hi|[Hlen Hi]]; [by apply Hst|].
  apply list_lookup_singleton_Some in Hi as [Hi <-]. cbn [m_id].
  assert (i = length st.1) as -> by lia. done.
Qed.

Lemma scrolls_numbered results_at left k st :
  numbered st.1 -> numbered (scrolls limit channels results_at left k st).1.
Proof.
  revert k st. induction left as [|left IH]; intros k st Hst; [done|].
  cbn [scrolls]. destruct (limit <=? PyList.len st.1); [done|].
  pose proof (collect_numbered (results_at k) st Hst) as Hc.
  destruct (limit <=? PyList.len _); [done|]. by apply IH.
Qed.

(** Every message collected is made from a record of one of the runs
    from [k] on, fewer than [left] runs later. *)
Lemma collect_made_from (P : DiscordMessage -> Prop) results_data st :
  (forall m h, h ∈ results_data -> made_from channels m h -> P m) ->
  Forall P st.1 -> Forall P (collect limit channels results_data st).1.
Proof.
  revert st. induction results_data as [|result rest IH]; intros st HP Hst;
    [done|].
  assert (forall m h, h ∈ rest -> made_from channels m h -> P m) as HP'.
  { intros m h Hh. apply HP. by right. }
  cbn [collect]. destruct (limit <=? PyList.len st.1); [done|].
  destruct (bool_decide _); [by apply IH|].
  apply IH; [done|]. cbn [fst]. apply Forall_app. split; [done|].
  constructor; [|constructor]. apply (HP _ result); [by left|].
  by repeat split.
Qed.

Lemma scrolls_made_from (P : DiscordMessage -> Prop) results_at left k st :
  (forall m j h, (k <= j < k + left)%nat -> h ∈ results_at j ->
                 made_from channels m h -> P m) ->
  Forall P st.1 ->
  Forall P (scrolls limit channels results_at left k st).1.
Proof.
  revert k st. induction left as [|left IH]; intros k st HP Hst; [done|].
  cbn [scrolls]. destruct (limit <=? PyList.len st.1); [done|].
  assert (Forall P (collect limit channels (results_at k) st).1) as Hc.
  { apply collect_made_from; [|done]. intros m h Hh. apply (HP m k). lia.
    done. }
  destruct (limit <=? PyList.len _); [done|].
  apply IH; [|done]. intros m j h Hj. apply HP. lia.
Qed.

End Numbering.

Lemma search_messages_Ok p channels limit messages :
  search_messages p channels limit = Ok messages ->
  messages = []
  \/ messages
     = PyList.slice_to
         (scrolls limit channels (results_at p) max_scrolls 0 ([], ∅)).1
         limit.
Proof.
  unfold search_messages.
  destruct (negb (search_login_ok p)); [done|].
  destruct (negb (search_box_found p)); [done|].
  destruct (negb (results_appear p)); [intros [= <-]; by left|].
  destruct (scrolls _ _ _ _ _ _) as [collected seen].
  intros [= <-]. by right.
Qed.

Lemma slice_to_lookup {A} (l : list A) (n : Z) i x :
  PyList.slice_to l n !! i = Some x -> l !! i = Some x.
Proof.
  unfold PyList.slice_to, PyList.slice, PyList.clamp.
  change (0 <? 0) with false. cbv iota.
  rewrite (Z.min_l 0) by (unfold PyList.len; lia).
  change (Z.to_nat 0) with O. rewrite drop_0.
  intros H. apply lookup_take_Some in H. tauto.
Qed.

(** X14: the messages of a search are numbered by their place: the one
    at the position [i] of the list returned is called [search-i]; and
    the list has at most [limit] messages when [limit] is not
    negative. *)
Theorem search_results_are_numbered (p : search_page)
    (channels : option (list string)) (limit : Z)
    (messages : list DiscordMessage) :
  search_messages p channels limit = Ok messages ->
  (forall i m, messages !! i = Some m ->
               m_id m = "search-" +:+ Text.of_Z (Z.of_nat i))
  /\ (0 <= limit -> PyList.len messages <= limit).
Proof.
  intros [->| ->]%search_messages_Ok.
  { split; [by intros i m Hi|]. intros Hl. unfold PyList.len. cbn. lia. }
  split.
  - intros i m Hi%slice_to_lookup.
    by apply (scrolls_numbered limit channels (results_at p) max_scrolls 0
                ([], ∅)).
  - intros Hl. rewrite MessageTheorems.slice_to_take by done.
    unfold PyList.len. rewrite length_take. lia.
Qed.

Lemma search_results_are_numbered_witness :
  exists messages,
    search_messages sample_search None 1 = Ok messages
    /\ map m_id messages = ["search-0"]
    /\ PyList.len messages <= 1.
Proof.
  eexists. split; [vm_compute; reflexivity|]. split; [reflexivity|].
  apply (search_results_are_numbered sample_search None 1); [|lia].
  vm_compute. reflexivity.
Defined.

(** X15: every message of a search is made from a record that one of
    the first five runs of the script returned: it has the content and
    the author of the record, the clock for timestamp, and for channel
    the one of the record or else the first channel asked for.  When no
    result appears in time the search returns the empty list. *)
Theorem search_results_come_from_hits (p : search_page)
    (channels : option (list string)) (limit : Z) :
  (forall messages,
     search_messages p channels limit = Ok messages ->
     Forall (fun m => exists k h,
                        (k < 5)%nat /\ h ∈ results_at p k
                        /\ made_from channels m h)
            messages)
  /\ (search_login_ok p = true -> search_box_found p = true ->
      results_appear p = false ->
      search_messages p channels limit = Ok []).
Proof.
  split.
  - intros messages [->| ->]%search_messages_Ok; [constructor|].
    apply MessageTheorems.slice_Forall.
    apply scrolls_made_from; [|constructor].
    intros m j h Hj Hh Hm. exists j, h. split; [unfold max_scrolls in Hj; lia|].
    done.
  - intros Hl Hb Hr. unfold search_messages. by rewrite Hl, Hb, Hr.
Qed.

Lemma search_results_come_from_hits_witness :
  search_messages silent_search None 25 = Ok []
  /\ exists messages,
       search_messages sample_search None 25 = Ok messages
       /\ Forall (fun m => exists k h,
                            (k < 5)%nat /\ h ∈ results_at sample_search k
                            /\ made_from None m h)
                 messages.
Proof.
  split.
  - apply (proj2 (search_results_come_from_hits silent_search None 25));
      reflexivity.
  - eexists. split; [vm_compute; reflexivity|].
    apply (proj1 (search_results_come_from_hits sample_search None 25)).
    vm_compute. reflexivity.
Defined.

End SearchMore.

(** ** The tools around the client *)

Module ToolsMore.
Import Text TextFacts SearchViews Eff Client Tools.

(** X16: the teardown of [_execute_with_fresh_client] is handed the
    state made before the operation, which holds no resource: the calls
    of a run are those of the operation and no call to close anything
    follows them, whatever the operation has opened; the outcome is the
    result of the operation or its exception. *)
Theorem execute_closes_nothing {T} (w : world) (home : string) (cfg : config)
    (operation : ClientState -> Eff (ClientState * T)) (h : list event) :
  let fresh := create_client_state home (cfg_email cfg) (cfg_password cfg)
                                   true (cfg_extra_wait_ms cfg) in
  _execute_with_fresh_client w home cfg operation h
  = (match (operation fresh h).1 with
     | Ok r => Ok r.2
     | Raise e => Raise e
     end,
     (operation fresh h).2).
Proof.
  cbv zeta. unfold _execute_with_fresh_client, try_finally, bind, ret.
  destruct (operation _ h) as [[r|e] h']; cbn [fst snd].
  - unfold close_client. cbn [page context browser playwright
                                create_client_state].
    rewrite SessionTheorems.for_each_close. cbn. by rewrite List.app_nil_r.
  - unfold close_client. cbn [page context browser playwright
                                create_client_state].
    rewrite SessionTheorems.for_each_close. cbn. by rewrite List.app_nil_r.
Qed.

Lemma execute_closes_nothing_witness :
  _execute_with_fresh_client (failing_world []) "/home/u" sample_config
    (launching (failing_world [])) []
  = (Ok 7,
     [ Invoke 1%nat "start"; Invoke 2%nat "launch";
       Invoke 3%nat "new_context"; Invoke 4%nat "new_page" ]).
Proof.
  rewrite (execute_closes_nothing (failing_world []) "/home/u" sample_config
             (launching (failing_world [])) []).
  vm_compute. reflexivity.
Defined.

(** *** Blank searches *)

Lemma blank_app a b : blank (a +:+ b) = blank a && blank b.
Proof.
  unfold blank. induction a as [|c a IH]; [done|].
  rewrite app_cons. cbn [forallb]. by rewrite IH, andb_assoc.
Qed.

Lemma forallb_drop_while p s : forallb p (drop_while p s) = forallb p s.
Proof.
  induction s as [|c s IH]; [done|]. cbn [drop_while].
  destruct (p c) eqn:E; [|done]. cbn [forallb]. by rewrite E, IH.
Qed.

Lemma rstrip_empty p s : truthy (rstrip_by p s) = negb (forallb p s).
Proof.
  induction s as [|c s IH]; [done|]. cbn [rstrip_by forallb].
  rewrite IH, negb_involutive.
  by destruct (forallb p s), (p c).
Qed.

(** Stripping leaves a text exactly when the text is not blank. *)
Lemma strip_truthy s : truthy (py_strip s) = negb (blank s).
Proof.
  unfold py_strip, strip_by, blank.
  by rewrite rstrip_empty, forallb_drop_while.
Qed.

Lemma blank_join parts :
  blank (join " " parts) = List.forallb blank parts.
Proof.
  induction parts as [|p [|q rest] IH]; [done| |].
  - cbn. by rewrite andb_true_r.
  - change (join " " (p :: q :: rest))
      with (p +:+ " " +:+ join " " (q :: rest)).
    rewrite !blank_app, IH. cbn [List.forallb].
    by change (blank " ") with true.
Qed.

Lemma blank_each tag values :
  blank tag = false ->
  List.forallb blank (each tag values) = negb (some_list values).
Proof.
  intros Htag. unfold each, some_list.
  destruct values as [[|v l]|]; [done| |done].
  cbn [PyList.truthy map List.forallb]. by rewrite blank_app, Htag.
Qed.

Lemma blank_one tag value :
  blank tag = false ->
  List.forallb blank (one tag value) = negb (some_text value).
Proof.
  intros Htag. unfold one, some_text.
  destruct value as [v|]; [|done].
  destruct (truthy v); [|done].
  cbn [List.forallb]. by rewrite blank_app, Htag.
Qed.

Lemma forallb_app' {A} (f : A -> bool) l1 l2 :
  List.forallb f (l1 ++ l2) = List.forallb f l1 && List.forallb f l2.
Proof. apply List.forallb_app. Qed.

(** The query composed is blank exactly when the text is blank and no
    criterion is given. *)
Lemma blank_full_query c :
  blank (full_query c) = blank (query c) && negb (any_filter c).
Proof.
  unfold full_query, query_parts, any_filter.
  rewrite blank_join, !forallb_app'.
  rewrite !blank_each, !blank_one by done.
  rewrite !negb_orb.
  assert (List.forallb blank (if truthy (query c) then [query c] else [])
          = blank (query c)) as ->.
  { destruct (query c); [done|]. cbn [truthy List.forallb].
    by rewrite andb_true_r. }
  assert (List.forallb blank
            match pinned c with Some true => ["pinned: true"] | _ => [] end
          = negb (some_true (pinned c))) as ->.
  { by destruct (pinned c) as [[]|]. }
  by rewrite !andb_assoc.
Qed.

(** X17: the tool refuses a search whose composed query would be blank
    before it touches the browser, whatever the other parameters; and
    a request that passes the checks composes a query that is not
    blank, for a page of at least 1 and 1 to 100 results. *)
Theorem blank_searches_are_refused (w : world) (home : string) (cfg : config)
    (valid_has_text : string) (c : criteria) (page max_results : Z) :
  (forall search h,
     blank (full_query c) = true ->
     search_messages_tool w home cfg valid_has_text c page max_results
                          search h
     = (Raise (ValueError "Must provide query text or at least one filter"),
        h))
  /\ (validate_search valid_has_text c page max_results = Ok tt ->
      blank (full_query c) = false
      /\ py_strip (full_query c) <> EmptyString
      /\ 1 <= max_results <= 100 /\ 1 <= page).
Proof.
  split.
  - intros search h Hb. unfold search_messages_tool, validate_search.
    rewrite blank_full_query in Hb. rewrite strip_truthy, negb_involutive.
    by rewrite Hb.
  - unfold validate_search. rewrite strip_truthy, negb_involutive.
    rewrite <- blank_full_query.
    destruct (blank (full_query c)) eqn:Hb; [done|].
    destruct (Z.leb_spec 1 max_results); [|done].
    destruct (Z.leb_spec max_results 100); [|done]. cbn [andb negb].
    destruct (Z.ltb_spec page 1); [done|]. intros _.
    split; [done|]. split; [|lia].
    pose proof (strip_truthy (full_query c)) as Ht. rewrite Hb in Ht.
    by destruct (py_strip (full_query c)).
Qed.

Lemma blank_searches_are_refused_witness :
  search_messages_tool (failing_world []) "/home/u" sample_config
       "{...}" (only_text "   ") 1 25
       (fun _ _ _ s => ret (s, [])) []
     = (Raise (ValueError "Must provide query text or at least one filter"),
        [])
  /\ full_query sample_criteria
     = "release notes in: general in: dev has: image after: 2025-01-31 authorType: bot pinned: true"
  /\ blank (full_query sample_criteria) = false.
Proof.
  split; [|split; [reflexivity|]].
  - apply (proj1 (blank_searches_are_refused (failing_world []) "/home/u"
                    sample_config "{...}" (only_text "   ") 1 25)).
    reflexivity.
  - apply (proj2 (blank_searches_are_refused (failing_world []) "/home/u"
                    sample_config "{...}" sample_criteria 1 25)).
    reflexivity.
Defined.

End ToolsMore.

(** ** More about the navigation between result pages *)

Module NavigateMore.
Import Eff Client NavigateViews SessionTheorems.

Lemma query_selector_run w s h :
  never_fails w ->
  query_selector w s h = (Ok (present w h s), h ++ [Query s]).
Proof. intros Hw. unfold query_selector. by rewrite perform_ok. Qed.

(** X18: when the button of the target page is shown, the navigation
    clicks it, acts on nothing else and succeeds; Next is not looked
    for. *)
Theorem navigate_by_page_button (w : world) (target_page : Z)
    (h : list event) :
  never_fails w -> target_page <> 1 ->
  shown w h (SelPageButton target_page) = true ->
  exists evs,
    _navigate_to_search_page w target_page h = (Ok true, h ++ evs)
    /\ List.filter acts evs = [Click (SelPageButton target_page)]
    /\ Query SelNext ∉ evs.
Proof.
  intros Hw Hne Hs. unfold _navigate_to_search_page.
  destruct (Z.eqb_spec target_page 1) as [|_]; [done|].
  unfold bind at 1. rewrite found_and_visible_run, Hs by done.
  unfold bind, ret. rewrite !perform_ok by done.
  eexists. split; [by rewrite <- !app_assoc|].
  unfold shown in Hs. apply andb_prop in Hs as [-> _]. split; [done|].
  cbn. rewrite !not_elem_of_cons. repeat split; try done.
  apply not_elem_of_nil.
Qed.

Lemma navigate_by_page_button_witness :
  _navigate_to_search_page buttons_world 7 []
  = (Ok true,
     [ Query (SelPageButton 7); IsVisible (SelPageButton 7);
       Click (SelPageButton 7); WaitFor 1000 ])
  /\ exists evs,
       _navigate_to_search_page buttons_world 7 [] = (Ok true, evs)
       /\ List.filter acts evs = [Click (SelPageButton 7)]
       /\ Query SelNext ∉ evs.
Proof.
  split; [vm_compute; reflexivity|].
  apply (navigate_by_page_button buttons_world 7 []);
    [by intros h e|discriminate|reflexivity].
Defined.

(** X19: when no button of the target page is shown and the ellipsis
    is: if the click on the ellipsis brings an input, the navigation
    types the number of the target page into it, presses Enter and
    succeeds without looking at where it landed; if it brings none, the
    navigation goes on with the loop over Next, the ellipsis having been
    clicked. *)
Theorem navigate_by_ellipsis (w : world) (target_page : Z) (h : list event) :
  never_fails w -> target_page <> 1 ->
  shown w h (SelPageButton target_page) = false ->
  (forall h', shown w h' SelEllipsis = true) ->
  ((forall h', present w h' SelPageInput = true) ->
   exists evs,
     _navigate_to_search_page w target_page h = (Ok true, h ++ evs)
     /\ List.filter acts evs
        = [ Click SelEllipsis;
            Fill SelPageInput (Text.of_Z target_page);
            Press SelPageInput "Enter" ])
  /\ ((forall h', present w h' SelPageInput = false) ->
      exists pre,
        _navigate_to_search_page w target_page h
        = next_clicks w (Z.to_nat (target_page - 1)) (h ++ pre)
        /\ List.filter acts pre = [Click SelEllipsis]).
Proof.
  intros Hw Hne Hbutton Hell.
  assert (forall h', present w h' SelEllipsis = true) as Hpe.
  { intros h'. specialize (Hell h'). unfold shown in Hell.
    by apply andb_prop in Hell as [-> _]. }
  split; intros Hin; unfold _navigate_to_search_page;
    (destruct (Z.eqb_spec target_page 1) as [|_]; [done|]);
    unfold bind at 1; rewrite found_and_visible_run, Hbutton by done;
    unfold bind at 1; rewrite found_and_visible_run, Hell, Hpe by done;
    unfold bind, ret;
    repeat (cbv beta iota;
            first [ rewrite perform_ok by done
                  | rewrite query_selector_run, Hin by done ]);
    cbv beta iota; repeat rewrite <- List.app_assoc;
    eexists; (split; [reflexivity|]);
    by destruct (present w h (SelPageButton target_page)).
Qed.

Lemma navigate_by_ellipsis_witness :
  _navigate_to_search_page (ellipsis_world true) 40 []
  = (Ok true,
     [ Query (SelPageButton 40); Query SelEllipsis; IsVisible SelEllipsis;
       Click SelEllipsis; WaitFor 500; Query SelPageInput;
       Fill SelPageInput "40"; Press SelPageInput "Enter"; WaitFor 1000 ])
  /\ _navigate_to_search_page (ellipsis_world false) 40 []
     = (Ok false,
        [ Query (SelPageButton 40); Query SelEllipsis; IsVisible SelEllipsis;
          Click SelEllipsis; WaitFor 500; Query SelPageInput;
          Query SelNext ])
  /\ exists evs,
       _navigate_to_search_page (ellipsis_world true) 40 [] = (Ok true, evs)
       /\ List.filter acts evs
          = [ Click SelEllipsis; Fill SelPageInput "40";
              Press SelPageInput "Enter" ].
Proof.
  split; [vm_compute; reflexivity|]. split; [vm_compute; reflexivity|].
  apply (proj1 (navigate_by_ellipsis (ellipsis_world true) 40 []
                  ltac:(by intros h e) ltac:(discriminate) eq_refl
                  ltac:(by intros h'))).
  by intros h'.
Defined.

(** X20: asked for page 0 or below on a page that shows neither a page
    button nor the ellipsis, the navigation reports success without
    acting on the page: the loop over Next has no turn to do. *)
Theorem navigate_below_first_page (w : world) (target_page : Z)
    (h : list event) :
  never_fails w -> only_next w target_page -> target_page <= 0 ->
  exists evs,
    _navigate_to_search_page w target_page h = (Ok true, h ++ evs)
    /\ List.filter acts evs = [].
Proof.
  intros Hw Hon Hle. unfold _navigate_to_search_page.
  destruct (Z.eqb_spec target_page 1) as [|_]; [lia|].
  unfold bind at 1. rewrite found_and_visible_run by done.
  destruct (Hon h) as [-> _].
  unfold bind at 1. rewrite found_and_visible_run by done.
  match goal with |- context [shown w ?h' SelEllipsis] =>
    destruct (Hon h') as [_ ->] end.
  unfold bind, ret. cbv beta iota.
  replace (Z.to_nat (target_page - 1)) with O by lia. cbn [next_clicks].
  unfold ret. repeat rewrite <- List.app_assoc.
  eexists. split; [reflexivity|].
  by destruct (present w h (SelPageButton target_page)),
       (present w _ SelEllipsis).
Qed.

Lemma navigate_below_first_page_witness :
  _navigate_to_search_page (next_only_world 2) 0 []
  = (Ok true, [Query (SelPageButton 0); Query SelEllipsis])
  /\ exists evs,
       _navigate_to_search_page (next_only_world 2) (-4) [] = (Ok true, evs)
       /\ List.filter acts evs = [].
Proof.
  split; [vm_compute; reflexivity|].
  apply (navigate_below_first_page (next_only_world 2) (-4) []);
    [by intros h e|by intros h|lia].
Defined.

End NavigateMore.

(** ** More about the context of a hit *)

Module ContextMore.
Import Search SearchTheorems.

Lemma find_target_first tid data i0 d i msg :
  tid <> EmptyString ->
  data !! i = Some msg ->
  Text.includes tid (r_id msg) = true ->
  (forall j m', (j < i)%nat -> data !! j = Some m' ->
                Text.includes tid (r_id m') = false) ->
  find_target tid data i0 d = i0 + Z.of_nat i.
Proof.
  intros Htid. assert (Text.truthy tid = true) as Ht by (by destruct tid).
  revert i0 i. induction data as [|x data IH]; intros i0 i Hi Hinc Hfirst;
    [done|].
  cbn [find_target]. rewrite Ht. cbn [andb]. destruct i as [|i].
  - cbn in Hi. injection Hi as ->. rewrite Hinc. lia.
  - rewrite (Hfirst 0%nat x) by (done || lia).
    rewrite (IH (i0 + 1) i); [lia|done|done|].
    intros j m' Hj Hm'. apply (Hfirst (S j)); [lia|done].
Qed.

Lemma find_target_default tid data i0 d :
  tid = EmptyString
  \/ (forall msg, msg ∈ data -> Text.includes tid (r_id msg) = false) ->
  find_target tid data i0 d = d.
Proof.
  intros H. revert i0. induction data as [|x data IH]; intros i0; [done|].
  cbn [find_target].
  assert (Text.truthy tid && Text.includes tid (r_id x) = false) as ->.
  { destruct H as [->|H]; [done|]. rewrite (H x) by (by left).
    apply andb_false_r. }
  apply IH. destruct H as [->|H]; [by left|right].
  intros msg Hmsg. apply H. by right.
Qed.

(** X21: the target of the context is the first message of the view
    whose identifier contains the identifier read from the address;
    when that identifier is empty or no message contains it, the target
    is the message in the middle, at the position of half the length
    rounded down. *)
Theorem target_is_first_match (tid : string) (data : list rendered) :
  (forall i msg,
     tid <> EmptyString -> data !! i = Some msg ->
     Text.includes tid (r_id msg) = true ->
     (forall j m', (j < i)%nat -> data !! j = Some m' ->
                   Text.includes tid (r_id m') = false) ->
     target_index tid data = Z.of_nat i)
  /\ (tid = EmptyString
      \/ (forall msg, msg ∈ data -> Text.includes tid (r_id msg) = false) ->
      target_index tid data = PyList.len data / 2).
Proof.
  split.
  - intros i msg Htid Hi Hinc Hfirst. unfold target_index.
    by rewrite (find_target_first tid data 0 _ i msg).
  - intros H. unfold target_index. by apply find_target_default.
Qed.

Lemma target_is_first_match_witness :
  target_index "1006" eight_messages = 6
  /\ target_index "100" eight_messages = 0
  /\ target_index "2000" eight_messages = 4
  /\ target_index EmptyString eight_messages = 4.
Proof.
  destruct (target_is_first_match "1006" eight_messages) as [H1 _].
  destruct (target_is_first_match "2000" eight_messages) as [_ H2].
  destruct (target_is_first_match EmptyString eight_messages) as [_ H3].
  split; [|split; [reflexivity|split]].
  - apply (H1 6%nat (sample_rendered 6)); [discriminate|reflexivity
                                            |reflexivity|].
    intros j m' Hj Hm'.
    do 6 (destruct j as [|j]; [by injection Hm' as <-|]). lia.
  - rewrite H2; [reflexivity|]. right. intros msg Hmsg.
    unfold eight_messages in Hmsg. cbn [map] in Hmsg.
    repeat (apply elem_of_cons in Hmsg as [->|Hmsg]; [reflexivity|]).
    by apply elem_of_nil in Hmsg.
  - rewrite H3; [reflexivity|by left].
Defined.

(** *** The address the click leads to *)

Lemma split_app_cut sep a b :
  Text.split sep (a +:+ String sep b) = Text.split sep a ++ Text.split sep b.
Proof.
  induction a as [|c a IH].
  - rewrite TextFacts.app_nil_l. cbn [Text.split].
    by rewrite Ascii.eqb_refl.
  - rewrite TextFacts.app_cons. cbn [Text.split].
    destruct (Ascii.eqb c sep); [by rewrite IH|].
    rewrite IH.
    pose proof (ChunkingFacts.split_not_nil sep a) as Hne.
    by destruct (Text.split sep a).
Qed.

Lemma index_last_two {A} (pre : list A) (c m : A) :
  PyList.index (pre ++ [c; m]) (-2) = Ok c
  /\ PyList.index (pre ++ [c; m]) (-1) = Ok m
  /\ 2 <= PyList.len (pre ++ [c; m]).
Proof.
  unfold PyList.index, PyList.len. rewrite length_app. cbn [length].
  change (-2 <? 0) with true. change (-1 <? 0) with true. cbv iota.
  repeat split; [| |lia].
  - destruct (Z.ltb_spec (Z.of_nat (length pre + 2) + -2) 0); [lia|].
    destruct (Z.leb_spec (Z.of_nat (length pre + 2))
                         (Z.of_nat (length pre + 2) + -2)); [lia|].
    cbn [orb].
    replace (Z.to_nat (Z.of_nat (length pre + 2) + -2)) with (length pre)
      by lia.
    by rewrite list_lookup_middle.
  - destruct (Z.ltb_spec (Z.of_nat (length pre + 2) + -1) 0); [lia|].
    destruct (Z.leb_spec (Z.of_nat (length pre + 2))
                         (Z.of_nat (length pre + 2) + -1)); [lia|].
    cbn [orb].
    replace (Z.to_nat (Z.of_nat (length pre + 2) + -1))
      with (length (pre ++ [c])) by (rewrite length_app; cbn; lia).
    replace (pre ++ [c; m]) with ((pre ++ [c]) ++ [m])
      by (by rewrite <- List.app_assoc).
    by rewrite list_lookup_middle.
Qed.

(** X22: for an address that ends with a slash, a channel, a slash and
    a message, and a view that shows messages, the context is built
    without raising: its channel is the one of the address, its
    messages are put in that channel, and its target is the message of
    the view at the position found for the message of the address. *)
Theorem context_reads_the_address (base c m : string)
    (data : list rendered) (header_title : string)
    (before_count after_count : Z) (in_channels : option (list string)) :
  Text.has_no "/" c = true -> Text.has_no "/" m = true ->
  data <> [] -> 0 <= before_count -> 0 <= after_count ->
  exists ctx msg,
    get_search_result_context (base +:+ "/" +:+ c +:+ "/" +:+ m)
      data header_title before_count after_count in_channels
    = Ok (Some ctx)
    /\ channel_id ctx = c
    /\ data !! Z.to_nat (target_index m data) = Some msg
    /\ target_message ctx = make_message c msg
    /\ Forall (fun x => m_channel_id x = c)
              (messages_before ctx ++ messages_after ctx).
Proof.
  intros Hc Hm Hne Hb Ha. unfold get_search_result_context.
  change (base +:+ "/" +:+ c +:+ "/" +:+ m)
    with (base +:+ String "/" (c +:+ String "/" m)).
  rewrite !split_app_cut.
  rewrite (ChunkingFacts.split_no_sep _ _ Hc).
  rewrite (ChunkingFacts.split_no_sep _ _ Hm).
  cbn [app].
  destruct (index_last_two (Text.split "/" base) c m) as (-> & -> & Hlen).
  destruct (Z.leb_spec 2 (PyList.len (Text.split "/" base ++ [c; m])));
    [|lia].
  destruct (Z.leb_spec 1 (PyList.len (Text.split "/" base ++ [c; m])));
    [|lia].
  replace (PyList.truthy data) with true by (by destruct data).
  cbn [negb].
  pose proof (target_index_in_range m data Hne) as Ht.
  unfold context_window.
  destruct (index_in_range data (target_index m data) Ht) as (x & -> & Hx).
  eexists _, x. split; [reflexivity|]. cbn.
  split; [done|]. split; [done|]. split; [done|].
  apply Forall_app. split; apply Forall_fmap, Forall_true; by intros y.
Qed.

Lemma context_reads_the_address_witness :
  exists ctx msg,
    get_search_result_context
      ("https://discord.com/channels/7" +:+ "/" +:+ "8" +:+ "/" +:+ "1006")
      eight_messages "general" 1 5 None
    = Ok (Some ctx)
    /\ channel_id ctx = "8"
    /\ eight_messages !! Z.to_nat (target_index "1006" eight_messages)
       = Some msg
    /\ target_message ctx = make_message "8" msg
    /\ Forall (fun x => m_channel_id x = "8")
              (messages_before ctx ++ messages_after ctx).
Proof.
  apply (context_reads_the_address "https://discord.com/channels/7" "8"
           "1006" eight_messages "general" 1 5 None);
    [reflexivity|reflexivity|discriminate|lia|lia].
Defined.

(** The same context, spelled out. *)
Lemma context_of_sample_address :
  (match get_search_result_context "https://discord.com/channels/7/8/1006"
           eight_messages " general " 1 5 None with
   | Ok (Some ctx) =>
       (channel_id ctx, channel_name ctx, m_id (target_message ctx),
        map m_id (messages_before ctx), map m_id (messages_after ctx))
   | _ => (EmptyString, EmptyString, EmptyString, [], [])
   end)
  = ("8", "general", "8-1006", ["8-1005"], ["8-1007"]).
Proof. vm_compute. reflexivity. Qed.

End ContextMore.

(** ** The browser session and the login *)

Module SessionMore.
Import Text Session.

Lemma call_for_ok {A} (e : env) (c : call) (answer : list call -> A) h :
  raises e h c = false ->
  call_for e c answer h = (Ok (answer h), h ++ [c]).
Proof. intros H. unfold call_for. by rewrite H. Qed.

Lemma call_for_cases {A} (e : env) (c : call) (answer : list call -> A) h :
  call_for e c answer h = (Raise PlaywrightError, h ++ [c])
  \/ call_for e c answer h = (Ok (answer h), h ++ [c]).
Proof. unfold call_for. destruct (raises e h c); auto. Qed.

Lemma submitted_app (h l : list call) :
  submitted (h ++ l) = submitted h || submitted l.
Proof. unfold submitted. apply existsb_app. Qed.

Lemma complete_pages (state : ClientState) :
  complete state = true -> exists p, page state = Some p.
Proof.
  unfold complete.
  destruct (playwright state), (browser state), (context state),
    (page state); try discriminate.
  eauto.
Qed.

Lemma ensure_browser_complete (e : env) (state : ClientState) h :
  complete state = true -> _ensure_browser e state h = (Ok state, h).
Proof. intros H. unfold _ensure_browser. by rewrite H. Qed.

(** What [_ensure_browser] does on a state that lacks a resource. *)
Lemma ensure_browser_outcome (e : env) (state : ClientState) h :
  exists evs,
    (_ensure_browser e state h).2 = h ++ evs
    /\ Forall (fun c => types_or_saves c = false) evs
    /\ Forall (fun c => waits c = false) evs
    /\ submitted evs = false
    /\ match (_ensure_browser e state h).1 with
       | Ok s' =>
           complete s' = true
           /\ email s' = email state /\ password s' = password state
           /\ extra_wait_ms s' = extra_wait_ms state
           /\ logged_in s' = logged_in state
           /\ cookies_file s' = cookies_file state
       | Raise x => x = PlaywrightError
       end.
Proof.
  unfold _ensure_browser. destruct (complete state) eqn:Hc.
  - exists []. cbn. rewrite List.app_nil_r. by repeat split.
  - unfold bind, create, ret, call_for.
    repeat match goal with
    | |- context [raises e ?h ?c] => destruct (raises e h c)
    end; cbn [fst snd]; repeat rewrite <- List.app_assoc;
      (eexists; split; [reflexivity|]); cbn;
      repeat split; repeat constructor.
Qed.

(** What [_check_logged_in] does. *)
Lemma check_logged_in_outcome (e : env) (state : ClientState) h :
  exists b evs,
    _check_logged_in e state h = (Ok b, h ++ evs)
    /\ Forall (fun c => types_or_saves c = false) evs
    /\ Forall (fun c => waits c = false) evs
    /\ submitted evs = false
    /\ (b = true ->
        exists p,
          page state = Some p
          /\ let seen :=
               h ++ [Goto p "https://discord.com/channels/@me"
                       (Some "domcontentloaded");
                     WaitForSelector p GuildItem 15000] in
             off_the_app (url e seen) = false
             /\ found e seen GuildItem = true
             /\ evs = [Goto p "https://discord.com/channels/@me"
                         (Some "domcontentloaded");
                       WaitForSelector p GuildItem 15000;
                       QuerySelector p GuildItem]).
Proof.
  unfold _check_logged_in. destruct (page state) as [p|].
  2: { exists false, []. cbn. rewrite List.app_nil_r. by repeat split. }
  unfold try_except, bind, do, read_url, ret, call_for.
  destruct (raises e h _).
  { eexists false, _. split; [reflexivity|]. cbn.
    repeat split; repeat constructor. discriminate. }
  destruct (raises e (h ++ _) _).
  { rewrite <- List.app_assoc. eexists false, _. split; [reflexivity|]. cbn.
    repeat split; repeat constructor. discriminate. }
  rewrite <- List.app_assoc. cbn [app].
  destruct (off_the_app _) eqn:Hoff.
  { eexists false, _. split; [reflexivity|]. cbn.
    repeat split; repeat constructor. discriminate. }
  destruct (raises e (h ++ _) _).
  { rewrite <- List.app_assoc. eexists false, _. split; [reflexivity|]. cbn.
    repeat split; repeat constructor. discriminate. }
  rewrite <- List.app_assoc. cbn [app].
  eexists _, _. split; [reflexivity|]. cbn.
  repeat split; repeat constructor.
  intros Hb. exists p. by repeat split.
Qed.

(** X23: when no call raises, [_ensure_browser] returns a state that
    holds all four resources and keeps the account, the waits, the login
    flag and the cookie file; called again on its result it makes no
    call and returns it unchanged, and so it does on any state that
    already holds the four. *)
Theorem ensure_browser_completes (e : env) (state : ClientState)
    (h : list call) :
  quiet e ->
  exists s' evs,
    _ensure_browser e state h = (Ok s', h ++ evs)
    /\ complete s' = true
    /\ email s' = email state /\ password s' = password state
    /\ logged_in s' = logged_in state
    /\ cookies_file s' = cookies_file state
    /\ _ensure_browser e s' (h ++ evs) = (Ok s', h ++ evs)
    /\ (complete state = true -> s' = state /\ evs = []).
Proof.
  intros Hq. unfold _ensure_browser at 1. destruct (complete state) eqn:Hc.
  - exists state, []. rewrite List.app_nil_r.
    rewrite ensure_browser_complete by done. by repeat split.
  - unfold bind, create, ret. rewrite !call_for_ok by apply Hq.
    repeat rewrite <- List.app_assoc.
    eexists _, _. split; [reflexivity|]. by repeat split.
Qed.

Lemma ensure_browser_completes_witness :
  exists s' evs,
    _ensure_browser (plain_env true false) new_session [] = (Ok s', evs)
    /\ complete s' = true
    /\ email s' = email new_session /\ password s' = password new_session
    /\ logged_in s' = logged_in new_session
    /\ cookies_file s' = cookies_file new_session
    /\ _ensure_browser (plain_env true false) s' evs = (Ok s', evs)
    /\ (complete new_session = true -> s' = new_session /\ evs = []).
Proof.
  apply (ensure_browser_completes (plain_env true false) new_session []).
  intros h c. reflexivity.
Defined.


Lemma filter_quiet_calls (evs : list call) :
  Forall (fun c => types_or_saves c = false) evs ->
  List.filter types_or_saves evs = [].
Proof.
  induction 1 as [|c l Hc _ IH]; [done|]. cbn. by rewrite Hc.
Qed.

Lemma bind_call {A B} (e : env) (c : call) (answer : list call -> A)
    (k : A -> Run B) h :
  bind (call_for e c answer) k h
  = if raises e h c then (Raise PlaywrightError, h ++ [c])
    else k (answer h) (h ++ [c]).
Proof. unfold bind, call_for. by destruct (raises e h c). Qed.

Lemma bind_sleep {B} (ms : Z) (k : unit -> Run B) h :
  bind (sleep ms) k h = k tt (h ++ [Sleep ms]).
Proof. reflexivity. Qed.

Lemma bind_read_url {B} (e : env) (k : string -> Run B) h :
  bind (read_url e) k h = k (url e h) h.
Proof. reflexivity. Qed.

Lemma bind_ret {A B} (a : A) (k : A -> Run B) h : bind (ret a) k h = k a h.
Proof. reflexivity. Qed.

(** What the part of [_login] under [try] does. *)
Lemma after_submit_outcome (e : env) (state : ClientState) (p : handle) h
    (r : result ClientState) (h' : list call) :
  page state = Some p -> logged_in state = false ->
  after_submit e state p h = (r, h') ->
  exists evs,
    h' = h ++ WaitForFunction p LeftLogin 60000 :: evs
    /\ match r with
       | Ok s' =>
           s' = with_login state true
           /\ List.filter types_or_saves evs
              = [StorageState p (cookies_file state)]
       | Raise x =>
           x = PlaywrightError \/ x = RuntimeError verification_failed
       end.
Proof.
  intros Hp Hl Hrun. unfold after_submit, do in Hrun.
  rewrite bind_call in Hrun. destruct (raises e _ _).
  { injection Hrun as <- <-. eexists. split; [reflexivity|]. by left. }
  rewrite bind_sleep, bind_read_url in Hrun.
  match type of Hrun with
  | context [bind (_check_logged_in e state) ?k] =>
      set (rest := bind (_check_logged_in e state) k) in Hrun
  end.
  assert (Hrest : forall h1 r1 h1',
    rest h1 = (r1, h1') ->
    exists evs,
      h1' = h1 ++ evs
      /\ match r1 with
         | Ok s' =>
             s' = with_login state true
             /\ List.filter types_or_saves evs
                = [StorageState p (cookies_file state)]
         | Raise x =>
             x = PlaywrightError \/ x = RuntimeError verification_failed
         end).
  { clear Hrun. intros h1 r1 h1' Hrun. unfold rest in Hrun. clear rest.
    unfold bind at 1 in Hrun.
    destruct (check_logged_in_outcome e state h1)
      as (b & evs & Hc & Hsafe & _ & _ & _).
    rewrite Hc in Hrun. destruct b.
    2: { injection Hrun as <- <-. eexists. split; [reflexivity|]. by right. }
    rewrite bind_sleep in Hrun. cbn [page with_login] in Hrun.
    rewrite Hp, bind_call in Hrun. destruct (raises e _ _).
    { injection Hrun as <- <-. repeat rewrite <- List.app_assoc.
      eexists. split; [reflexivity|]. by left. }
    rewrite bind_sleep, Hl in Hrun. cbn [negb] in Hrun.
    unfold _save_storage_state in Hrun. cbn [page with_login] in Hrun.
    rewrite Hp in Hrun. unfold do in Hrun. rewrite bind_call in Hrun.
    cbn [cookies_file with_login] in Hrun.
    destruct (raises e _ _).
    { injection Hrun as <- <-. repeat rewrite <- List.app_assoc.
      eexists. split; [reflexivity|]. by left. }
    injection Hrun as <- <-. repeat rewrite <- List.app_assoc.
    eexists. split; [reflexivity|]. split; [done|].
    rewrite List.filter_app, (filter_quiet_calls evs) by done. reflexivity. }
  clearbody rest.
  assert (Hgo : forall pre,
    Forall (fun c => types_or_saves c = false) pre ->
    rest (h ++ WaitForFunction p LeftLogin 60000 :: pre) = (r, h') ->
    exists evs,
      h' = h ++ WaitForFunction p LeftLogin 60000 :: evs
      /\ match r with
         | Ok s' =>
             s' = with_login state true
             /\ List.filter types_or_saves evs
                = [StorageState p (cookies_file state)]
         | Raise x =>
             x = PlaywrightError \/ x = RuntimeError verification_failed
         end).
  { intros pre Hpre Hr. apply Hrest in Hr as (evs & -> & Hr).
    rewrite <- List.app_assoc. cbn [app].
    eexists. split; [reflexivity|].
    destruct r as [s'|x]; [|done]. destruct Hr as [-> Hf]. split; [done|].
    by rewrite List.filter_app, (filter_quiet_calls pre). }
  clear Hrest. repeat rewrite <- List.app_assoc in Hrun. cbn [app] in Hrun.
  destruct (includes "/verify" _).
  - rewrite bind_ret, bind_call in Hrun. destruct (raises e _ _).
    { injection Hrun as <- <-. repeat rewrite <- List.app_assoc.
      eexists. split; [reflexivity|]. by left. }
    rewrite <- List.app_assoc in Hrun. apply Hgo in Hrun; [done|].
    repeat constructor.
  - unfold bind at 1 in Hrun. rewrite bind_call in Hrun.
    destruct (raises e _ _).
    { injection Hrun as <- <-. repeat rewrite <- List.app_assoc.
      eexists. split; [reflexivity|]. by left. }
    unfold ret at 1 in Hrun. rewrite <- List.app_assoc in Hrun.
    destruct (negb _).
    + rewrite bind_call in Hrun. destruct (raises e _ _).
      { injection Hrun as <- <-. repeat rewrite <- List.app_assoc.
        eexists. split; [reflexivity|]. by left. }
      rewrite <- List.app_assoc in Hrun. apply Hgo in Hrun; [done|].
      repeat constructor.
    + rewrite bind_ret in Hrun. apply Hgo in Hrun; [done|].
      repeat constructor.
Qed.

(** What [_login] does on a state that is not logged in. *)
Lemma login_outcome (e : env) (driver_text : string) (state : ClientState)
    (h : list call) (r : result ClientState) (h' : list call) :
  logged_in state = false ->
  _login e driver_text state h = (r, h') ->
  exists evs,
    h' = h ++ evs
    /\ match r with
       | Ok s' =>
           logged_in s' = true /\ complete s' = true
           /\ email s' = email state /\ password s' = password state
           /\ cookies_file s' = cookies_file state
           /\ (List.filter types_or_saves evs = []
               \/ exists p,
                    page s' = Some p
                    /\ List.filter types_or_saves evs
                       = [ Fill p EmailInput (email state);
                           Fill p PasswordInput (password state);
                           Click p SubmitButton;
                           StorageState p (cookies_file state) ])
       | Raise x =>
           (x = PlaywrightError /\ Forall (fun c => waits c = false) evs)
           \/ (Exists (fun c => waits c = true) evs
               /\ (x = RuntimeError
                         ("Failed to login to Discord: " +:+ driver_text)
                   \/ x = RuntimeError
                            ("Failed to login to Discord: "
                             +:+ verification_failed)))
       end.
Proof.
  intros Hl Hrun. unfold _login in Hrun. rewrite Hl in Hrun.
  unfold bind at 1 in Hrun.
  destruct (ensure_browser_outcome e state h)
    as (ev0 & Hh0 & Hsafe0 & Hcalm0 & _ & Hs0).
  destruct (_ensure_browser e state h) as [[s0|x0] h0]; cbn [fst snd] in *.
  2: { injection Hrun as <- <-. subst. eexists. split; [reflexivity|].
       by left. }
  destruct Hs0 as (Hc0 & He & Hpw & _ & Hl0 & Hck). subst h0.
  destruct (complete_pages s0 Hc0) as [p Hp]. rewrite Hp in Hrun.
  unfold bind at 1 in Hrun.
  destruct (check_logged_in_outcome e s0 (h ++ ev0))
    as (b & ev1 & Hc & Hsafe1 & Hcalm1 & _ & _).
  rewrite Hc in Hrun. clear Hc. rewrite <- List.app_assoc in Hrun.
  destruct b.
  { injection Hrun as <- <-. eexists. split; [reflexivity|].
    cbn [logged_in with_login email password cookies_file].
    repeat (split; [done|]). left.
    rewrite List.filter_app, !filter_quiet_calls by done. done. }
  unfold do in Hrun. rewrite bind_call in Hrun. destruct (raises e _ _).
  { injection Hrun as <- <-. repeat rewrite <- List.app_assoc.
    eexists. split; [reflexivity|]. left. split; [done|].
    rewrite !Forall_app. repeat split; try done. repeat constructor. }
  rewrite bind_sleep, bind_call in Hrun. destruct (raises e _ _).
  { injection Hrun as <- <-. repeat rewrite <- List.app_assoc.
    eexists. split; [reflexivity|]. left. split; [done|].
    rewrite !Forall_app. repeat split; try done; repeat constructor. }
  rewrite bind_call in Hrun. destruct (raises e _ _).
  { injection Hrun as <- <-. repeat rewrite <- List.app_assoc.
    eexists. split; [reflexivity|]. left. split; [done|].
    rewrite !Forall_app. repeat split; try done; repeat constructor. }
  rewrite bind_call in Hrun. destruct (raises e _ _).
  { injection Hrun as <- <-. repeat rewrite <- List.app_assoc.
    eexists. split; [reflexivity|]. left. split; [done|].
    rewrite !Forall_app. repeat split; try done; repeat constructor. }
  unfold try_except in Hrun.
  destruct (after_submit e s0 p _) as [r2 h2] eqn:Hafter.
  apply after_submit_outcome in Hafter as (ev2 & -> & Hr2); [|done|congruence].
  repeat rewrite <- List.app_assoc in Hrun. cbn [app] in Hrun.
  destruct r2 as [s2|x2].
  - injection Hrun as <- <-. destruct Hr2 as [-> Hf].
    eexists. split; [reflexivity|].
    cbn [logged_in with_login email password cookies_file complete
         playwright browser context page].
    split; [done|]. split; [exact Hc0|]. repeat (split; [done|]).
    right. exists p. split; [done|].
    rewrite !List.filter_app, !filter_quiet_calls by done. cbn.
    rewrite Hf, He, Hpw, Hck. reflexivity.
  - unfold raise in Hrun. injection Hrun as <- <-.
    eexists. split; [reflexivity|]. right. split.
    + rewrite !Exists_app. right. right.
      do 5 apply Exists_cons_tl. by apply Exists_cons_hd.
    + destruct Hr2 as [-> | ->]; [by left | by right].
Qed.

Lemma ensure_browser_quiet (e : env) (state : ClientState) h :
  quiet e ->
  exists s' evs,
    _ensure_browser e state h = (Ok s', h ++ evs)
    /\ complete s' = true
    /\ email s' = email state /\ password s' = password state
    /\ extra_wait_ms s' = extra_wait_ms state
    /\ logged_in s' = logged_in state
    /\ cookies_file s' = cookies_file state
    /\ Forall (fun c => types_or_saves c = false) evs
    /\ submitted evs = false.
Proof.
  intros Hq.
  destruct (ensure_browser_outcome e state h)
    as (evs & Hh & Hsafe & _ & Hsub & Hs).
  destruct (_ensure_browser e state h) as [[s'|x] h'] eqn:Hrun;
    cbn [fst snd] in *; subst h'.
  - exists s', evs. split; [done|]. destruct Hs as (? & ? & ? & ? & ? & ?).
    by repeat split.
  - exfalso. unfold _ensure_browser in Hrun.
    destruct (complete state); [discriminate|].
    unfold bind, create, ret in Hrun.
    rewrite !call_for_ok in Hrun by apply Hq. discriminate.
Qed.

Lemma check_logged_in_inside (e : env) (state : ClientState) (p : handle) h :
  quiet e -> page state = Some p ->
  off_the_app
    (url e (h ++ [Goto p "https://discord.com/channels/@me"
                    (Some "domcontentloaded");
                  WaitForSelector p GuildItem 15000])) = false ->
  _check_logged_in e state h
  = (Ok (found e (h ++ [Goto p "https://discord.com/channels/@me"
                          (Some "domcontentloaded");
                        WaitForSelector p GuildItem 15000]) GuildItem),
     h ++ [Goto p "https://discord.com/channels/@me"
             (Some "domcontentloaded");
           WaitForSelector p GuildItem 15000;
           QuerySelector p GuildItem]).
Proof.
  intros Hq Hp Hoff. unfold _check_logged_in. rewrite Hp.
  unfold try_except, do. rewrite !bind_call, !Hq, bind_read_url.
  repeat rewrite <- List.app_assoc. cbn [app]. rewrite Hoff.
  rewrite call_for_ok by apply Hq. by rewrite <- List.app_assoc.
Qed.

Lemma check_logged_in_outside (e : env) (state : ClientState) (p : handle)
    h :
  quiet e -> page state = Some p ->
  off_the_app
    (url e (h ++ [Goto p "https://discord.com/channels/@me"
                    (Some "domcontentloaded");
                  WaitForSelector p GuildItem 15000])) = true ->
  _check_logged_in e state h
  = (Ok false,
     h ++ [Goto p "https://discord.com/channels/@me"
             (Some "domcontentloaded");
           WaitForSelector p GuildItem 15000]).
Proof.
  intros Hq Hp Hoff. unfold _check_logged_in. rewrite Hp.
  unfold try_except, do. rewrite !bind_call, !Hq, bind_read_url.
  repeat rewrite <- List.app_assoc. cbn [app]. by rewrite Hoff.
Qed.

(** X25: a state that is not logged in, in surroundings where no call
    raises and the page, sent to /channels/@me, stays inside the
    application with the guild list shown: [_login] returns a logged-in
    state holding the four resources, and neither fills a field, clicks
    nor saves the session. *)
Theorem login_resumes_session (e : env) (driver_text : string)
    (state : ClientState) (h : list call) :
  logged_in state = false -> quiet e ->
  (forall h', off_the_app (url e h') = false) ->
  (forall h', found e h' GuildItem = true) ->
  exists s' evs,
    _login e driver_text state h = (Ok s', h ++ evs)
    /\ logged_in s' = true /\ complete s' = true
    /\ List.filter types_or_saves evs = [].
Proof.
  intros Hl Hq Hin Hfound. unfold _login. rewrite Hl. unfold bind at 1.
  destruct (ensure_browser_quiet e state h Hq)
    as (s0 & ev0 & -> & Hc0 & _ & _ & _ & _ & _ & Hsafe0 & _).
  destruct (complete_pages s0 Hc0) as [p Hp]. rewrite Hp.
  unfold bind. rewrite (check_logged_in_inside e s0 p) by done.
  rewrite Hfound. unfold ret. rewrite <- List.app_assoc.
  eexists _, _. split; [reflexivity|]. split; [done|]. split; [exact Hc0|].
  by rewrite List.filter_app, filter_quiet_calls.
Qed.

Lemma login_resumes_session_witness :
  exists s' evs,
    _login (plain_env true true) "Timeout" new_session [] = (Ok s', evs)
    /\ logged_in s' = true /\ complete s' = true
    /\ List.filter types_or_saves evs = [].
Proof.
  apply (login_resumes_session (plain_env true true) "Timeout"
           new_session []);
    [reflexivity | intros h c; reflexivity
    | intros h'; reflexivity | intros h'; reflexivity].
Defined.

(** X26: a state that is not logged in, in surroundings where no call
    raises and the page is outside the application until the form has
    been submitted and inside it afterwards, with no verification asked:
    [_login] returns a logged-in state; it fills the address and the
    password of the state into their fields, clicks the submit button
    and, after that, saves the session to the cookie file of the state,
    each once and in that order. *)
Theorem login_through_form (e : env) (driver_text : string)
    (state : ClientState) (h : list call) :
  logged_in state = false -> quiet e -> submitted h = false ->
  (forall h', submitted h' = false -> off_the_app (url e h') = true) ->
  (forall h', submitted h' = true ->
     off_the_app (url e h') = false
     /\ includes "/verify" (url e h') = false) ->
  (forall h', found e h' GuildItem = true) ->
  (forall h', counted e h' CheckEmailText = 0) ->
  exists s' p evs,
    _login e driver_text state h = (Ok s', h ++ evs)
    /\ logged_in s' = true /\ page s' = Some p
    /\ List.filter types_or_saves evs
       = [ Fill p EmailInput (email state);
           Fill p PasswordInput (password state);
           Click p SubmitButton;
           StorageState p (cookies_file state) ].
Proof.
  intros Hl Hq Hh Hout Hin Hfound Hcount. unfold _login. rewrite Hl.
  unfold bind at 1.
  destruct (ensure_browser_quiet e state h Hq)
    as (s0 & ev0 & -> & Hc0 & He & Hpw & _ & Hl0 & Hck & Hsafe0 & Hsub0).
  destruct (complete_pages s0 Hc0) as [p Hp]. rewrite Hp.
  unfold bind at 1. rewrite (check_logged_in_outside e s0 p); [|done..|].
  2: { apply Hout. rewrite !submitted_app, Hh, Hsub0. reflexivity. }
  unfold do. rewrite bind_call, Hq, bind_sleep, !bind_call, !Hq.
  unfold try_except, after_submit, do.
  rewrite bind_call, Hq, bind_sleep, bind_read_url.
  match goal with
  | |- context [includes "/verify" (url e ?hh)] =>
      destruct (Hin hh) as [_ ->];
        [rewrite !submitted_app; cbn; by rewrite !orb_true_r|]
  end.
  unfold bind at 1. rewrite bind_call, Hq, Hcount. unfold ret at 1.
  cbn [Z.eqb negb]. rewrite bind_ret.
  unfold bind at 1.
  match goal with
  | |- context [_check_logged_in e s0 ?hh] =>
      rewrite (check_logged_in_inside e s0 p hh); [|done..|]
  end.
  2: { apply Hin. rewrite !submitted_app. cbn. by rewrite !orb_true_r. }
  rewrite Hfound, bind_sleep. cbn [page with_login]. rewrite Hp.
  rewrite bind_call, Hq, bind_sleep. rewrite Hl0, Hl. cbn [negb].
  unfold _save_storage_state. cbn [page with_login cookies_file].
  rewrite Hp. unfold do. rewrite bind_call, Hq. unfold ret.
  repeat rewrite <- List.app_assoc. cbn [app].
  eexists _, p, _. split; [reflexivity|]. split; [done|]. split; [done|].
  rewrite List.filter_app, filter_quiet_calls by done. cbn.
  by rewrite He, Hpw, Hck.
Qed.

Lemma login_through_form_witness :
  exists s' p evs,
    _login (plain_env false false) "Timeout" new_session [] = (Ok s', evs)
    /\ logged_in s' = true /\ page s' = Some p
    /\ List.filter types_or_saves evs
       = [ Fill p EmailInput "user@example.org";
           Fill p PasswordInput "secret";
           Click p SubmitButton;
           StorageState p "/home/u/.discord_mcp_cookies.json" ].
Proof.
  apply (login_through_form (plain_env false false) "Timeout"
           new_session []).
  - reflexivity.
  - intros h c. reflexivity.
  - reflexivity.
  - intros h' H. cbn. rewrite H. reflexivity.
  - intros h' H. cbn. rewrite H. split; reflexivity.
  - intros h'. reflexivity.
  - intros h'. reflexivity.
Defined.

(** X27: whatever the calls do, a state that [_login] returns is logged
    in.  A state that came logged in is returned as it is, with no call
    made.  Otherwise the returned state holds the four resources and
    the account and cookie file it came with, and between them the
    calls either filled, clicked and saved nothing, or filled the
    address, filled the password, clicked submit and saved the session,
    once each and in that order. *)
Theorem login_returns_logged_in (e : env) (driver_text : string)
    (state s' : ClientState) (h h' : list call) :
  _login e driver_text state h = (Ok s', h') ->
  logged_in s' = true
  /\ exists evs,
       h' = h ++ evs
       /\ (logged_in state = true -> s' = state /\ evs = [])
       /\ (logged_in state = false ->
           complete s' = true
           /\ email s' = email state /\ password s' = password state
           /\ cookies_file s' = cookies_file state
           /\ (List.filter types_or_saves evs = []
               \/ exists p,
                    page s' = Some p
                    /\ List.filter types_or_saves evs
                       = [ Fill p EmailInput (email state);
                           Fill p PasswordInput (password state);
                           Click p SubmitButton;
                           StorageState p (cookies_file state) ])).
Proof.
  intros Hrun. destruct (logged_in state) eqn:Hl.
  - unfold _login in Hrun. rewrite Hl in Hrun. injection Hrun as <- <-.
    split; [done|]. exists []. rewrite List.app_nil_r. by repeat split.
  - apply login_outcome in Hrun as (evs & -> & Hin & Hrest); [|done].
    split; [done|]. exists evs. split; [done|]. split; [done|].
    intros _. exact Hrest.
Qed.

Lemma login_returns_logged_in_witness :
  exists s' evs,
    _login (plain_env false false) "Timeout" new_session [] = (Ok s', evs)
    /\ logged_in s' = true /\ complete s' = true
    /\ email s' = "user@example.org".
Proof.
  destruct (_login (plain_env false false) "Timeout" new_session [])
    as [[s'|x] h'] eqn:Hrun; [|vm_compute in Hrun; discriminate].
  exists s', h'. split; [reflexivity|].
  destruct (login_returns_logged_in (plain_env false false) "Timeout"
              new_session s' [] h' Hrun)
    as (Hin & evs & _ & _ & Hnew).
  destruct (Hnew eq_refl) as (Hc & He & _).
  split; [exact Hin|]. split; [exact Hc|]. exact He.
Defined.

(** X28: whatever the calls do, on a state that is not logged in
    [_login] raises in one of three ways only: the error of a call made
    before the first wait for the address, as it is; or a RuntimeError
    whose message is Failed to login to Discord: followed by the text of
    the error of a later call, or by the message that the verification
    failed.  The RuntimeError for a missing page is never raised. *)
Theorem login_errors_are_wrapped (e : env) (driver_text : string)
    (state : ClientState) (h h' : list call) (x : exn) :
  logged_in state = false ->
  _login e driver_text state h = (Raise x, h') ->
  exists evs,
    h' = h ++ evs
    /\ ((x = PlaywrightError /\ Forall (fun c => waits c = false) evs)
        \/ (Exists (fun c => waits c = true) evs
            /\ (x = RuntimeError
                      ("Failed to login to Discord: " +:+ driver_text)
                \/ x = RuntimeError
                         ("Failed to login to Discord: "
                          +:+ verification_failed)))).
Proof.
  intros Hl Hrun. apply login_outcome in Hrun as (evs & -> & Hx); [|done].
  by exists evs.
Qed.

Lemma login_errors_are_wrapped_witness :
  exists evs,
    _login stuck_env "Timeout 60000ms exceeded." new_session []
    = (Raise (RuntimeError
                "Failed to login to Discord: Timeout 60000ms exceeded."),
       evs)
    /\ Exists (fun c => waits c = true) evs.
Proof.
  destruct (_login stuck_env "Timeout 60000ms exceeded." new_session [])
    as [[s'|x] h'] eqn:Hrun; [vm_compute in Hrun; discriminate|].
  destruct (login_errors_are_wrapped stuck_env "Timeout 60000ms exceeded."
              new_session [] h' x eq_refl Hrun)
    as (evs & -> & [[-> Hcalm] | [Hw Hx]]).
  - exfalso. vm_compute in Hrun. discriminate.
  - exists evs. split; [|exact Hw].
    assert (Hx' : x = RuntimeError
              "Failed to login to Discord: Timeout 60000ms exceeded.").
    { destruct Hx as [-> | ->]; [reflexivity|].
      exfalso. vm_compute in Hrun. discriminate. }
    rewrite Hx'. reflexivity.
Defined.

End SessionMore.
